(** * Negotiator: the deterministic core, embedded from the Python sources

    Files embedded:
      - [backend/app/services/extraction.py]     (module [Extraction])
      - [backend/app/services/agreement.py]      (module [Agreement])
      - [app.py]                                 (module [App])
      - [backend/app/services/deal_generator.py] (module [DealGenerator])
      - [backend/app/services/evaluator.py]      (module [Evaluator])
      - [backend/app/main.py]                    (module [Main])
      - [backend/app.py]                         (module [Session])

    Modelling conventions.
      - A Python [str] is a list of characters ([str]); the model covers
        ASCII text, so [str.lower], [\d], [\s], [\b] are their ASCII
        restrictions.
      - A Python [float] is an exact rational or +infinity ([pyfloat]):
        [float(s)] overflows to infinity exactly as binary64 does, finite
        values are kept exact (no mantissa rounding).
      - [round] is rounding half to even on the exact value.
      - In [backend/app.py], which truncates floats to integers, a float is
        the binary64 number itself ([binary64]).
      - The random generator is a function from the seed to the six values
        [random.uniform] returns.
      - A call that may raise returns a [result]; a call that writes to the
        transcript returns the transcript it leaves behind. *)

From Stdlib Require Import String Ascii ZArith QArith Qround Qabs Qpower Bool Lia Lqa
  List.
Import ListNotations.

Local Open Scope Z_scope.

(* ------------------------------------------------------------------ *)
(** * Exceptions *)

Inductive exn : Set :=
| ValueError
| OverflowError
| ZeroDivisionError
| TypeError
| KeyError.

Inductive result (A : Type) : Type :=
| Ok (a : A)
| Raise (e : exn).
Arguments Ok {A} a.
Arguments Raise {A} e.

Definition bind {A B} (r : result A) (f : A -> result B) : result B :=
  match r with
  | Ok a => f a
  | Raise e => Raise e
  end.

Notation "x <- c ;; k" := (bind c (fun x => k))
  (at level 61, c at next level, right associativity).

(* ------------------------------------------------------------------ *)
(** * Text *)

Definition str := list ascii.

Definition txt (s : string) : str := list_ascii_of_string s.
Arguments txt s%_string.

Definition code (c : ascii) : N := N_of_ascii c.

Definition is_digit (c : ascii) : bool :=
  ((48 <=? code c) && (code c <=? 57))%N.

(** [str.isspace] on the ASCII range: TAB..CR, FS..US and SPACE. *)
Definition is_space (c : ascii) : bool :=
  (((9 <=? code c) && (code c <=? 13)) || ((28 <=? code c) && (code c <=? 32)))%N.

Definition is_upper (c : ascii) : bool :=
  ((65 <=? code c) && (code c <=? 90))%N.

Definition is_lower (c : ascii) : bool :=
  ((97 <=? code c) && (code c <=? 122))%N.

(** Word characters of [\b]: letters, digits, underscore. *)
Definition is_word (c : ascii) : bool :=
  is_digit c || is_upper c || is_lower c || (code c =? 95)%N.

Definition lower_char (c : ascii) : ascii :=
  if is_upper c then ascii_of_N (code c + 32) else c.

Definition lower (s : str) : str := map lower_char s.

Definition eqc (a b : ascii) : bool := Ascii.eqb a b.

Fixpoint starts_with (p s : str) : bool :=
  match p, s with
  | [], _ => true
  | a :: p', b :: s' => eqc a b && starts_with p' s'
  | _ :: _, [] => false
  end.

(** [needle in hay]. *)
Fixpoint contains (needle hay : str) : bool :=
  starts_with needle hay ||
  match hay with
  | [] => false
  | _ :: hay' => contains needle hay'
  end.

(** [any(k in s for k in keys)]. *)
Definition any_in (keys : list str) (s : str) : bool :=
  existsb (fun k => contains k s) keys.

Fixpoint drop_while (p : ascii -> bool) (s : str) : str :=
  match s with
  | [] => []
  | c :: s' => if p c then drop_while p s' else s
  end.

Fixpoint take_while (p : ascii -> bool) (s : str) : str :=
  match s with
  | [] => []
  | c :: s' => if p c then c :: take_while p s' else []
  end.

(** [str.strip()]. *)
Definition lstrip (s : str) : str := drop_while is_space s.
Definition rstrip (s : str) : str := rev (drop_while is_space (rev s)).
Definition strip (s : str) : str := rstrip (lstrip s).

(** [old in s] is decided by [contains]; [s.replace(old, new)] replaces the
    non-overlapping occurrences from the left.  [old] is never empty in the
    sources. *)
Fixpoint replace_fuel (fuel : nat) (old new s : str) : str :=
  match fuel with
  | O => s
  | S fuel' =>
      match s with
      | [] => []
      | c :: s' =>
          if starts_with old s
          then new ++ replace_fuel fuel' old new (skipn (length old) s)
          else c :: replace_fuel fuel' old new s'
      end
  end.

Definition replace (old new s : str) : str :=
  replace_fuel (S (length s)) old new s.

(** [s.replace(old, new, 1)]. *)
Fixpoint replace_first (old new s : str) : str :=
  match s with
  | [] => []
  | c :: s' =>
      if starts_with old s then new ++ skipn (length old) s
      else c :: replace_first old new s'
  end.

(** [sep.join(parts)]. *)
Fixpoint join (sep : str) (parts : list str) : str :=
  match parts with
  | [] => []
  | [p] => p
  | p :: ps => p ++ sep ++ join sep ps
  end.

(** [len(s.split())]: the number of maximal runs of non-space characters. *)
Fixpoint count_words_from (in_word : bool) (s : str) : nat :=
  match s with
  | [] => O
  | c :: s' =>
      if is_space c then count_words_from false s'
      else if in_word then count_words_from true s'
      else S (count_words_from true s')
  end.

Definition count_words (s : str) : nat := count_words_from false s.

(** [s.split(sep)] for a separator that is not empty: the pieces between
    the non-overlapping occurrences of [sep], found from the left. *)
Fixpoint str_split_fuel (fuel : nat) (sep s piece_rev : str) : list str :=
  match fuel with
  | O => [rev piece_rev ++ s]
  | S fuel' =>
      match s with
      | [] => [rev piece_rev]
      | c :: s' =>
          if starts_with sep s
          then rev piece_rev :: str_split_fuel fuel' sep (skipn (length sep) s) []
          else str_split_fuel fuel' sep s' (c :: piece_rev)
      end
  end.

Definition str_split (sep s : str) : list str :=
  str_split_fuel (S (length s)) sep s [].

(** The decimal digits of a non-negative integer, as [str(n)] and the
    format specifications print them. *)
Definition digit_char (d : Z) : ascii := ascii_of_N (Z.to_N (48 + d)).

Fixpoint digits_fuel (fuel : nat) (n : Z) (acc : str) : str :=
  match fuel with
  | O => acc
  | S fuel' =>
      let acc' := digit_char (n mod 10) :: acc in
      if n <? 10 then acc' else digits_fuel fuel' (n / 10) acc'
  end.

Definition str_of_Z (n : Z) : str :=
  digits_fuel (S (Z.to_nat (Z.log2 n))) n [].

Definition str_of_nat (n : nat) : str := str_of_Z (Z.of_nat n).

(* ------------------------------------------------------------------ *)
(** * A backtracking matcher for the regular expressions of the sources

    The matcher follows Python's [re]: ordered alternation, greedy
    repetition with backtracking, leftmost match.  A cursor carries the
    character before the position (for [\b] and the look-behind), the rest
    of the input, and the text of capture group 1. *)

Inductive re : Type :=
| Eps
| Chr (p : ascii -> bool)
| Seq (a b : re)
| Alt (a b : re)
| Star (a : re)
| Grp (a : re)
| Bnd
| Behind (p : ascii -> bool).

Definition Lit (c : ascii) : re := Chr (eqc c).
Definition Opt (a : re) : re := Alt a Eps.
Definition Plus (a : re) : re := Seq a (Star a).
Fixpoint Str (s : str) : re :=
  match s with
  | [] => Eps
  | c :: s' => Seq (Lit c) (Str s')
  end.

Record cursor : Type := mkCursor {
  prev : option ascii;
  rest : str;
  grp1 : option str
}.

Definition consumed (a b : cursor) : str :=
  firstn (length (rest a) - length (rest b)) (rest a).

Definition word_before (c : cursor) : bool :=
  match prev c with Some x => is_word x | None => false end.

Definition word_after (c : cursor) : bool :=
  match rest c with x :: _ => is_word x | [] => false end.

Section Matcher.
Context {R : Type}.

(** Greedy repetition of [body]: one more iteration first, the
    continuation [k] when that fails.  An iteration has to consume input,
    so [fuel], the length of the input, bounds the iterations. *)
Fixpoint star_loop (body : cursor -> (cursor -> option R) -> option R)
         (k : cursor -> option R) (fuel : nat) (c0 : cursor) : option R :=
  match fuel with
  | O => k c0
  | S fuel' =>
      match body c0 (fun c' =>
              if Nat.ltb (length (rest c')) (length (rest c0))
              then star_loop body k fuel' c' else None) with
      | Some v => Some v
      | None => k c0
      end
  end.

Fixpoint rmatch (r : re) (c : cursor) (k : cursor -> option R) : option R :=
  match r with
  | Eps => k c
  | Chr p =>
      match rest c with
      | x :: s => if p x then k (mkCursor (Some x) s (grp1 c)) else None
      | [] => None
      end
  | Seq a b => rmatch a c (fun c' => rmatch b c' k)
  | Alt a b =>
      match rmatch a c k with
      | Some v => Some v
      | None => rmatch b c k
      end
  | Star a => star_loop (rmatch a) k (length (rest c)) c
  | Grp a =>
      rmatch a c (fun c' => k (mkCursor (prev c') (rest c') (Some (consumed c c'))))
  | Bnd => if xorb (word_before c) (word_after c) then k c else None
  | Behind p =>
      match prev c with
      | Some x => if p x then k c else None
      | None => None
      end
  end.
End Matcher.

(** A match found by [re.search] / one step of [re.finditer]: what precedes
    it, group 1, and the cursor after it. *)
Record found : Type := mkFound {
  before : str;
  group1 : str;
  after : cursor
}.

Definition match_here (r : re) (c : cursor) : option cursor :=
  rmatch r (mkCursor (prev c) (rest c) None) (fun c' => Some c').

Fixpoint search_from (r : re) (skipped : str) (pv : option ascii) (s : str)
  : option found :=
  match match_here r (mkCursor pv s None) with
  | Some c' =>
      Some (mkFound (rev skipped)
                    (match grp1 c' with Some g => g | None => [] end) c')
  | None =>
      match s with
      | [] => None
      | x :: s' => search_from r (x :: skipped) (Some x) s'
      end
  end.

(** [re.search(r, s)], reduced to group 1. *)
Definition re_search (r : re) (s : str) : option str :=
  match search_from r [] None s with
  | Some f => Some (group1 f)
  | None => None
  end.

(** [re.findall(r, s)] for a pattern with one group: the group of every
    non-overlapping match, left to right.  After an empty match the scan
    advances by one character, as [re] does. *)
Fixpoint findall_fuel (fuel : nat) (r : re) (pv : option ascii) (s : str)
  : list str :=
  match fuel with
  | O => []
  | S fuel' =>
      match search_from r [] pv s with
      | None => []
      | Some f =>
          let c := after f in
          if Nat.ltb (length (rest c)) (length s)
          then group1 f :: findall_fuel fuel' r (prev c) (rest c)
          else match rest c with
               | [] => [group1 f]
               | x :: s' => group1 f :: findall_fuel fuel' r (Some x) s'
               end
      end
  end.

Definition re_findall (r : re) (s : str) : list str :=
  findall_fuel (S (length s)) r None s.

(** [re.split(r, s)] for a pattern without groups that never matches the
    empty string: the pieces between the matches. *)
Fixpoint split_fuel (fuel : nat) (r : re) (pv : option ascii) (s : str)
  : list str :=
  match fuel with
  | O => [s]
  | S fuel' =>
      match search_from r [] pv s with
      | None => [s]
      | Some f =>
          before f :: split_fuel fuel' r (prev (after f)) (rest (after f))
      end
  end.

Definition re_split (r : re) (s : str) : list str :=
  split_fuel (S (length s)) r None s.

Fixpoint Cat (l : list re) : re :=
  match l with
  | [] => Eps
  | [a] => a
  | a :: l' => Seq a (Cat l')
  end.

Definition digit : re := Chr is_digit.
Definition space : re := Chr is_space.

(* ------------------------------------------------------------------ *)
(** * Python numbers *)

Inductive pyfloat : Type :=
| Fin (q : Q)
| Inf.

(** The least real that binary64 rounds to infinity. *)
Definition DBL_OVERFLOW : Z := 2 ^ 1024 - 2 ^ 970.

Definition to_float (q : Q) : pyfloat :=
  if Qle_bool (inject_Z DBL_OVERFLOW) q then Inf else Fin (Qred q).

Definition fmul (f : pyfloat) (q : Q) : pyfloat :=
  match f with
  | Fin x => to_float (x * q)
  | Inf => Inf
  end.

(** [int(f)]: truncation toward zero; infinity raises [OverflowError]. *)
Definition int_of_float (f : pyfloat) : result Z :=
  match f with
  | Fin q => Ok (if Qle_bool 0 q then Qfloor q else Qceiling q)
  | Inf => Raise OverflowError
  end.

Definition digit_val (c : ascii) : Z := Z.of_N (code c) - 48.

Definition digits_val (s : str) : Z :=
  fold_left (fun acc c => 10 * acc + digit_val c) s 0.

Definition nonempty (s : str) : bool :=
  match s with [] => false | _ :: _ => true end.

(** [int(s)] for a string of decimal digits. *)
Definition int_of_str (s : str) : result Z :=
  if nonempty s && forallb is_digit s then Ok (digits_val s)
  else Raise ValueError.

Fixpoint pow10 (n : nat) : positive :=
  match n with
  | O => 1%positive
  | S n' => (10 * pow10 n')%positive
  end.

(** [float(s)] for the strings the patterns below can capture: decimal
    digits with at most one dot.  Any other string is reported as
    [ValueError]. *)
Definition float_of_str (s : str) : result pyfloat :=
  let ip := take_while is_digit s in
  match drop_while is_digit s with
  | [] =>
      if nonempty ip then Ok (to_float (inject_Z (digits_val ip)))
      else Raise ValueError
  | c :: fp =>
      if eqc c "."%char && forallb is_digit fp && (nonempty ip || nonempty fp)
      then Ok (to_float (Qmake (digits_val (ip ++ fp)) (pow10 (length fp))))
      else Raise ValueError
  end.

(** [round(x)]: to the nearest integer, ties to the even one. *)
Definition round_half_even (x : Q) : Z :=
  let f := Qfloor x in
  match ((x - inject_Z f) ?= (1 # 2))%Q with
  | Lt => f
  | Gt => f + 1
  | Eq => if Z.even f then f else f + 1
  end.

(** [round(x, 1)] and [round(x, 2)]. *)
Definition round1 (x : Q) : Q := Qmake (round_half_even (x * 10)) 10.
Definition round2 (x : Q) : Q := Qmake (round_half_even (x * 100)) 100.

(** [int(x)] for a finite [x]. *)
Definition trunc (x : Q) : Z := if Qle_bool 0 x then Qfloor x else Qceiling x.

Definition Qmax (a b : Q) : Q := if Qle_bool a b then b else a.
Definition Qmin (a b : Q) : Q := if Qle_bool a b then a else b.

(** The three anchor levels of one variable. *)
Record levels (A : Type) : Type := mkLevels {
  opening : A;
  target : A;
  reservation : A
}.
Arguments mkLevels {A}.
Arguments opening {A}.
Arguments target {A}.
Arguments reservation {A}.

Record volume_tiers : Type := mkTiers {
  standard : Z;
  tier_1_threshold : Z;
  tier_1_discount : Q;
  tier_2_threshold : Z;
  tier_2_discount : Q
}.

(** The dict [generate_deal_parameters] returns; [src/app.py] leaves the
    key [volume] out. *)
Record deal_params : Type := mkParams {
  params_price : levels Q;
  params_delivery : levels Z;
  params_volume : option volume_tiers
}.

(** The six values [random.uniform] returns, in call order: [uniform(5, 30)],
    [uniform(0.15, 0.25)], [uniform(0.10, 0.15)], [uniform(4, 10)],
    [uniform(0.15, 0.25)], [uniform(0.10, 0.15)]. *)
Record draws : Type := mkDraws {
  u_price : Q;
  price_reduction_1 : Q;
  price_reduction_2 : Q;
  u_delivery : Q;
  delivery_reduction_1 : Q;
  delivery_reduction_2 : Q
}.

(** What [random.uniform(a, b)] guarantees of its result. *)
Definition within (a b x : Q) : Prop := (a <= x /\ x <= b)%Q.

Definition in_range (d : draws) : Prop :=
  within 5 30 (u_price d) /\
  within (15 # 100) (25 # 100) (price_reduction_1 d) /\
  within (10 # 100) (15 # 100) (price_reduction_2 d) /\
  within 4 10 (u_delivery d) /\
  within (15 # 100) (25 # 100) (delivery_reduction_1 d) /\
  within (10 # 100) (15 # 100) (delivery_reduction_2 d).

Definition Qlt_bool (a b : Q) : bool := negb (Qle_bool b a).

(** The outcome of a call that raises with a message. *)
Inductive outcome (A : Type) : Type :=
| Returns (a : A)
| RaisesValueError (message : string)
| RaisesKeyError (key : string).
Arguments Returns {A} a.
Arguments RaisesValueError {A} message.
Arguments RaisesKeyError {A} key.

(* ------------------------------------------------------------------ *)
(** * backend/app/services/deal_generator.py

    [random.seed(seed)] followed by six calls of [random.uniform] is the
    generator [rng]: the draws a seed (or no seed) determines. *)

Module DealGenerator.

Definition MIN_PRICE_DIFF : Q := 5.
Definition MIN_DELIVERY_DIFF : Z := 3.
Definition RESERVATION_FLOOR : Q := 50 # 100.

Definition generate_deal_parameters (rng : option Z -> draws) (seed : option Z)
  : deal_params :=
  let d := rng seed in
  let opening_price := round2 (u_price d * 10) in
  let target_price := round2 (opening_price * (1 - price_reduction_1 d)) in
  let reservation_price := round2 (target_price * (1 - price_reduction_2 d)) in
  let target_price :=
    if Qle_bool (opening_price - MIN_PRICE_DIFF) target_price
    then (opening_price - MIN_PRICE_DIFF)%Q else target_price in
  let reservation_price :=
    if Qle_bool (target_price - MIN_PRICE_DIFF) reservation_price
    then (target_price - MIN_PRICE_DIFF)%Q else reservation_price in
  let min_reservation := round2 (opening_price * RESERVATION_FLOOR) in
  let reservation_price := Qmax reservation_price min_reservation in
  let opening_delivery := round_half_even (u_delivery d * 10) in
  let target_delivery :=
    round_half_even (inject_Z opening_delivery * (1 - delivery_reduction_1 d)) in
  let reservation_delivery :=
    round_half_even (inject_Z target_delivery * (1 - delivery_reduction_2 d)) in
  let target_delivery :=
    if opening_delivery - MIN_DELIVERY_DIFF <=? target_delivery
    then opening_delivery - MIN_DELIVERY_DIFF else target_delivery in
  let reservation_delivery :=
    if target_delivery - MIN_DELIVERY_DIFF <=? reservation_delivery
    then target_delivery - MIN_DELIVERY_DIFF else reservation_delivery in
  mkParams (mkLevels opening_price target_price reservation_price)
           (mkLevels opening_delivery target_delivery reservation_delivery)
           (Some (mkTiers 10000 20000 (5 # 100) 50000 (8 # 100))).

(** [validate_parameters]: the checks in the order of the source, each
    raising [ValueError] with its own message; the key [volume] is read
    after the delivery checks. *)
Definition validate_parameters (params : deal_params) : outcome bool :=
  let price := params_price params in
  let delivery := params_delivery params in
  if negb (Qlt_bool (target price) (opening price))
  then RaisesValueError "Target price must be less than opening price"
  else if negb (Qlt_bool (reservation price) (target price))
  then RaisesValueError "Reservation price must be less than target price"
  else if negb (Qlt_bool 0 (reservation price))
  then RaisesValueError "Reservation price must be positive"
  else if negb (target delivery <? opening delivery)
  then RaisesValueError "Target delivery must be less than opening delivery"
  else if negb (reservation delivery <? target delivery)
  then RaisesValueError "Reservation delivery must be less than target delivery"
  else if negb (0 <? reservation delivery)
  then RaisesValueError "Reservation delivery must be positive"
  else
    match params_volume params with
    | None => RaisesKeyError "volume"
    | Some volume =>
        if negb (0 <? standard volume)
        then RaisesValueError "Standard volume must be positive"
        else if negb (standard volume <? tier_1_threshold volume)
        then RaisesValueError
               "Tier 1 threshold must be greater than standard volume"
        else if negb (tier_1_threshold volume <? tier_2_threshold volume)
        then RaisesValueError
               "Tier 2 threshold must be greater than Tier 1 threshold"
        else Returns true
    end.

End DealGenerator.

(* ------------------------------------------------------------------ *)
(** * backend/app/services/extraction.py

    [src/app.py] defines the same three functions, character for
    character. *)

Module Extraction.

Definition is_digit_or_comma (c : ascii) : bool :=
  is_digit c || eqc c ","%char.

(** [\$\s*( [0-9][0-9,]*(?:\.\d+)? )], the parenthesis being group 1. *)
Definition PRICE_RE : re :=
  Cat [ Lit "$"; Star space;
        Grp (Cat [ digit; Star (Chr is_digit_or_comma);
                   Opt (Seq (Lit ".") (Plus digit)) ]) ].

Definition remove_commas (s : str) : str :=
  filter (fun c => negb (eqc c ","%char)) s.

Definition extract_price (text : option str) : result (option pyfloat) :=
  match text with
  | None | Some [] => Ok None
  | Some t =>
      match re_search PRICE_RE t with
      | Some g =>
          let num_str := strip (remove_commas g) in
          match float_of_str num_str with
          | Ok f => Ok (Some f)
          | Raise ValueError => Ok None
          | Raise e => Raise e
          end
      | None => Ok None
      end
  end.

(** [(\d+)\s*days?] *)
Definition DELIVERY_RE : re :=
  Cat [ Grp (Plus digit); Star space; Str (txt "day"); Opt (Lit "s") ].

Definition extract_delivery (text : option str) : result (option Z) :=
  match text with
  | None | Some [] => Ok None
  | Some t =>
      match re_search DELIVERY_RE (lower t) with
      | Some g => n <- int_of_str g ;; Ok (Some n)
      | None => Ok None
      end
  end.

(** The alternative [\d{1,3}(?:,\d{3})*]. *)
Definition GROUPED : re :=
  Seq (Cat [ digit; Opt (Seq digit (Opt digit)) ])
      (Star (Cat [ Lit ","; digit; digit; digit ])).

(** Capture group 1 of the volume patterns: [\d{1,3}(?:,\d{3})*] or else
    [\d+\.?\d*]. *)
Definition NUMBER : re :=
  Grp (Alt GROUPED (Cat [ Plus digit; Opt (Lit "."); Star digit ])).

(** Group 1, then [\s*(thousand|k)\b]; the second group is never read. *)
Definition THOUSAND_RE : re :=
  Cat [ NUMBER; Star space; Alt (Str (txt "thousand")) (Lit "k"); Bnd ].

(** Group 1, then [\s*(?:units?)\b]. *)
Definition UNITS_RE : re :=
  Cat [ NUMBER; Star space; Str (txt "unit"); Opt (Lit "s"); Bnd ].

(** One group: [\d{1,3}(?:,\d{3})*] or else [\d+]. *)
Definition BARE_RE : re := Grp (Alt GROUPED (Plus digit)).

Definition volume_keywords : list str :=
  [ txt "units"; txt "order"; txt "volume"; txt "quantity" ].

(** [try: return int(float(num_str) * scale) except ValueError: return None] *)
Definition int_float_or_none (num_str : str) (scale : Q) : result (option Z) :=
  match float_of_str num_str with
  | Ok f =>
      match int_of_float (fmul f scale) with
      | Ok n => Ok (Some n)
      | Raise ValueError => Ok None
      | Raise e => Raise e
      end
  | Raise ValueError => Ok None
  | Raise e => Raise e
  end.

Definition extract_volume (text : option str) : result (option Z) :=
  match text with
  | None | Some [] => Ok None
  | Some t =>
      let txt := lower t in
      match re_search THOUSAND_RE txt with
      | Some g => int_float_or_none (remove_commas g) 1000
      | None =>
          match re_search UNITS_RE txt with
          | Some g => int_float_or_none (remove_commas g) 1
          | None =>
              if any_in volume_keywords txt then
                match re_search BARE_RE txt with
                | Some g => int_float_or_none (remove_commas g) 1
                | None => Ok None
                end
              else Ok None
          end
      end
  end.

End Extraction.

(* ------------------------------------------------------------------ *)
(** * The transcript

    A message is the dict [{"role": ..., "content": ...}]; [src/app.py] may
    add the key [_cached_extracts] to it.  The list of messages is shared
    with the caller, so a function that writes to a message returns the
    transcript it leaves behind. *)

Record terms : Type := mkTerms {
  price : option pyfloat;
  delivery : option Z;
  volume : option Z
}.

Record message : Type := mkMessage {
  role : string;
  content : str;
  cached_extracts : option terms
}.

Definition history := list message.

Definition is_role (r : string) (m : message) : bool := String.eqb (role m) r.

Definition present {A} (x : option A) : bool :=
  match x with Some _ => true | None => false end.

(** [sum(1 for x in (p, d, v) if x is not None)] *)
Definition count_present (t : terms) : nat :=
  (if present (price t) then 1 else 0) +
  (if present (delivery t) then 1 else 0) +
  (if present (volume t) then 1 else 0).

(** [[k for k, v in agreed_terms.items() if v is None]], in the dict's
    insertion order. *)
Definition missing_of (t : terms) : list string :=
  (if present (price t) then [] else ["price"%string]) ++
  (if present (delivery t) then [] else ["delivery"%string]) ++
  (if present (volume t) then [] else ["volume"%string]).

Definition no_terms : terms := mkTerms None None None.

Definition all_missing : list string :=
  ["price"%string; "delivery"%string; "volume"%string].

(** The three extractions of one message, in the order the sources call
    them. *)
Definition extract_terms (c : str) : result terms :=
  p <- Extraction.extract_price (Some c) ;;
  d <- Extraction.extract_delivery (Some c) ;;
  v <- Extraction.extract_volume (Some c) ;;
  Ok (mkTerms p d v).

Definition agreement_keywords : list str :=
  [ txt "agree"; txt "agreed"; txt "deal"; txt "accept"; txt "acceptable";
    txt "works for me"; txt "sounds good"; txt "confirmed"; txt "yes";
    txt "okay that works"; txt "perfect"; txt "deal"; txt "let's do it";
    txt "that works"; txt "i accept" ].

(** [current_msg.get("role") == "user"] and
    [any(keyword in user_content for keyword in agreement_keywords)]. *)
Definition signals_agreement (m : message) : bool :=
  is_role "user" m && any_in agreement_keywords (lower (content m)).

(** [(is_valid, missing_terms, agreed_terms)] *)
Definition verdict : Type := bool * list string * terms.

Definition verdict_of (t : terms) : verdict :=
  let missing := missing_of t in
  (Nat.eqb (length missing) 0, missing, t).

Definition no_agreement : verdict := (false, all_missing, no_terms).

(* ------------------------------------------------------------------ *)
(** * backend/app/services/agreement.py *)

Module Agreement.

(** The body of the loop once [current_msg] carries an agreement keyword. *)
Definition resolve (prev_msg current_msg : message) : result verdict :=
  user <- extract_terms (content current_msg) ;;
  if Nat.leb 2 (count_present user) then Ok (verdict_of user)
  else if is_role "assistant" prev_msg then
    seller <- extract_terms (content prev_msg) ;;
    if Nat.leb 2 (count_present seller) then Ok (verdict_of seller)
    else Ok (verdict_of no_terms)
  else Ok (verdict_of no_terms).

(** [for i in range(len(conversation_history) - 1, 0, -1)]: [scan h n]
    runs the iterations [i = n, n-1, ..., 1]. *)
Fixpoint scan (h : history) (i : nat) : result verdict :=
  match i with
  | O => Ok no_agreement
  | S j =>
      match nth_error h i, nth_error h j with
      | Some current_msg, Some prev_msg =>
          if signals_agreement current_msg
          then resolve prev_msg current_msg
          else scan h j
      | _, _ => scan h j
      end
  end.

Definition validate_agreement (conversation_history : history)
  : result verdict :=
  scan conversation_history (length conversation_history - 1).

End Agreement.

(* ------------------------------------------------------------------ *)
(** * src/app.py: the agreement detector with its backward search *)

Module App.

Definition MIN_PRICE_DIFF : Q := 5.
Definition MIN_DELIVERY_DIFF : Z := 3.
Definition RESERVATION_FLOOR : Q := 50 # 100.

Definition generate_deal_parameters (rng : option Z -> draws) (seed : option Z)
  : deal_params :=
  let d := rng seed in
  let opening_price := round2 (u_price d * 10) in
  let target_price := round2 (opening_price * (1 - price_reduction_1 d)) in
  let reservation_price := round2 (target_price * (1 - price_reduction_2 d)) in
  let target_price :=
    if Qle_bool (opening_price - MIN_PRICE_DIFF) target_price
    then round2 (opening_price - Qmax MIN_PRICE_DIFF (opening_price * (15 # 100)))
    else target_price in
  let reservation_price :=
    if Qle_bool (target_price - MIN_PRICE_DIFF) reservation_price
    then round2 (target_price - Qmax MIN_PRICE_DIFF (target_price * (10 # 100)))
    else reservation_price in
  let min_reservation := round2 (opening_price * RESERVATION_FLOOR) in
  let reservation_price := Qmax reservation_price min_reservation in
  let opening_delivery := round_half_even (u_delivery d * 10) in
  let target_delivery :=
    round_half_even (inject_Z opening_delivery * (1 - delivery_reduction_1 d)) in
  let reservation_delivery :=
    round_half_even (inject_Z target_delivery * (1 - delivery_reduction_2 d)) in
  let target_delivery :=
    if opening_delivery - MIN_DELIVERY_DIFF <=? target_delivery
    then Z.max 5 (opening_delivery -
                  Z.max MIN_DELIVERY_DIFF
                        (trunc (inject_Z opening_delivery * (15 # 100))))
    else target_delivery in
  let reservation_delivery :=
    if target_delivery - MIN_DELIVERY_DIFF <=? reservation_delivery
    then Z.max 3 (target_delivery -
                  Z.max MIN_DELIVERY_DIFF
                        (trunc (inject_Z target_delivery * (10 # 100))))
    else reservation_delivery in
  mkParams (mkLevels opening_price target_price reservation_price)
           (mkLevels opening_delivery target_delivery reservation_delivery)
           None.

(** ** [clean_ai_response] *)

Definition paragraph_break : str := ["010"%char; "010"%char].

Definition paragraphs_eqb (a b : list str) : bool :=
  if list_eq_dec (list_eq_dec ascii_dec) a b then true else false.

Definition clean_ai_response (text : str) : str :=
  let paragraphs := str_split paragraph_break text in
  if Nat.ltb 1 (length paragraphs) && Nat.eqb (Nat.modulo (length paragraphs) 2) 0
  then
    let mid := Nat.div (length paragraphs) 2 in
    let first_half := firstn mid paragraphs in
    let second_half := skipn mid paragraphs in
    if paragraphs_eqb first_half second_half
    then join paragraph_break first_half
    else text
  else text.

(** ** [enforce_concise_response] *)

Definition abbreviations : list str :=
  [ txt "Mr."; txt "Mrs."; txt "Ms."; txt "Dr."; txt "Inc."; txt "Ltd.";
    txt "Corp."; txt "Co."; txt "LLC"; txt "etc."; txt "e.g."; txt "i.e.";
    txt "vs."; txt "dept."; txt "approx."; txt "qty."; txt "no." ].

(** [f"__{tag}{i}__"] *)
Definition placeholder (tag : str) (i : nat) : str :=
  txt "__" ++ tag ++ str_of_nat i ++ txt "__".

(** The protected text and [placeholder_map], in insertion order. *)
Definition protection : Type := str * list (str * str).

Definition has_key (k : str) (m : list (str * str)) : bool :=
  existsb (fun kv => if list_eq_dec ascii_dec (fst kv) k then true else false) m.

(** [for i, abbr in enumerate(abbreviations)], from index [i] on. *)
Fixpoint protect_abbreviations (abbrs : list str) (i : nat) (st : protection)
  : protection :=
  match abbrs with
  | [] => st
  | abbr :: abbrs' =>
      let '(protected_text, placeholder_map) := st in
      let ph := placeholder (txt "ABBR") i in
      protect_abbreviations abbrs' (S i)
        (if contains abbr protected_text
         then (replace abbr ph protected_text, placeholder_map ++ [(ph, abbr)])
         else st)
  end.

(** The pattern [(?:\$|\\\$)?\d+\.\d+], the whole of it being group 1. *)
Definition DECIMAL_RE : re :=
  Grp (Cat [ Opt (Alt (Lit "$") (Seq (Lit "\") (Lit "$")));
             Plus digit; Lit "."; Plus digit ]).

(** [for i, match in enumerate(decimal_matches)], from index [i] on. *)
Fixpoint protect_decimals (matches : list str) (i : nat) (st : protection)
  : protection :=
  match matches with
  | [] => st
  | mt :: matches' =>
      let '(protected_text, placeholder_map) := st in
      let ph := placeholder (txt "DEC") i in
      protect_decimals matches' (S i)
        (if negb (has_key ph placeholder_map)
         then (replace_first mt ph protected_text, placeholder_map ++ [(ph, mt)])
         else st)
  end.

Definition protect (text : str) : protection :=
  let st := protect_abbreviations abbreviations 0 (strip text, []) in
  protect_decimals (re_findall DECIMAL_RE (fst st)) 0 st.

Definition is_terminal (c : ascii) : bool :=
  eqc c "."%char || eqc c "!"%char || eqc c "?"%char.

(** [(?<=[.!?])\s+] *)
Definition SENTENCE_RE : re := Seq (Behind is_terminal) (Plus space).

(** [[s.strip() for s in sentences if s.strip()]] *)
Definition sentences_of (protected_text : str) : list str :=
  map strip (filter (fun s => nonempty (strip s))
                    (re_split SENTENCE_RE protected_text)).

(** [for placeholder, original in placeholder_map.items()] *)
Definition restore (placeholder_map : list (str * str)) (truncated : str)
  : str :=
  fold_left (fun acc kv => replace (fst kv) (snd kv) acc) placeholder_map truncated.

(** [if truncated and truncated[-1] not in '.!?': truncated += '.'] *)
Definition ensure_terminal (truncated : str) : str :=
  match rev truncated with
  | [] => truncated
  | c :: _ => if is_terminal c then truncated else truncated ++ txt "."
  end.

Definition enforce_concise_response (text : str) (max_sentences : nat) : str :=
  if negb (nonempty (strip text)) then text
  else
    let '(protected_text, placeholder_map) := protect text in
    let sentences := sentences_of protected_text in
    if Nat.leb (length sentences) max_sentences then text
    else
      let truncated := join (txt " ") (firstn max_sentences sentences) in
      ensure_terminal (restore placeholder_map truncated).

(** ** The agreement detector *)

(** [msg['_cached_extracts'] = e] on the message at index [j]. *)
Fixpoint set_cache (h : history) (j : nat) (e : terms) : history :=
  match h, j with
  | [], _ => []
  | m :: h', O => mkMessage (role m) (content m) (Some e) :: h'
  | m :: h', S j' => m :: set_cache h' j' e
  end.

(** [hasattr(msg, '_cached_extracts')]: [msg] is a dict, and [hasattr]
    asks for an attribute, not a key; a dict has no such attribute. *)
Definition hasattr_cached_extracts (m : message) : bool := false.

(** [for j in range(idx-1, -1, -1)]: [_find_nearest_proposal_before h idx]
    runs [j = idx-1, ..., 0] and returns the proposal with its index, and
    the transcript as the writes leave it. *)
Fixpoint _find_nearest_proposal_before (h : history) (idx : nat)
  : result (option (terms * nat)) * history :=
  match idx with
  | O => (Ok None, h)
  | S j =>
      match nth_error h j with
      | None => _find_nearest_proposal_before h j
      | Some msg =>
          if negb (is_role "assistant" msg)
          then _find_nearest_proposal_before h j
          else
            let stored :=
              if negb (hasattr_cached_extracts msg)
              then (e <- extract_terms (content msg) ;; Ok (set_cache h j e, e))
              else match cached_extracts msg with
                   | Some e => Ok (h, e)
                   | None => Raise KeyError
                   end in
            match stored with
            | Raise e => (Raise e, h)
            | Ok (h', extracts) =>
                if Nat.leb 2 (count_present extracts)
                then (Ok (Some (extracts, j)), h')
                else _find_nearest_proposal_before h' j
            end
      end
  end.

(** The body of the loop at index [i] once [current_msg] carries an
    agreement keyword. *)
Definition resolve (h : history) (i : nat) (prev_msg current_msg : message)
  : result verdict * history :=
  match extract_terms (content current_msg) with
  | Raise e => (Raise e, h)
  | Ok user =>
      if Nat.leb 2 (count_present user) then (Ok (verdict_of user), h)
      else
        let from_prev :=
          if is_role "assistant" prev_msg then
            seller <- extract_terms (content prev_msg) ;;
            Ok (if Nat.leb 2 (count_present seller) then seller else no_terms)
          else Ok no_terms in
        match from_prev with
        | Raise e => (Raise e, h)
        | Ok agreed =>
            if Nat.eqb (count_present agreed) 0 then
              match _find_nearest_proposal_before h i with
              | (Raise e, h') => (Raise e, h')
              | (Ok (Some (proposal, _)), h') => (Ok (verdict_of proposal), h')
              | (Ok None, h') => (Ok (verdict_of agreed), h')
              end
            else (Ok (verdict_of agreed), h)
        end
  end.

Fixpoint scan (h : history) (i : nat) : result verdict * history :=
  match i with
  | O => (Ok no_agreement, h)
  | S j =>
      match nth_error h i, nth_error h j with
      | Some current_msg, Some prev_msg =>
          if signals_agreement current_msg
          then resolve h i prev_msg current_msg
          else scan h j
      | _, _ => scan h j
      end
  end.

Definition validate_agreement (conversation_history : history)
  : result verdict * history :=
  scan conversation_history (length conversation_history - 1).

(** ** [determine_next_state] *)

Definition closing_keywords : list str :=
  [ txt "agree"; txt "deal"; txt "accept"; txt "agreed"; txt "confirmed";
    txt "works for me"; txt "sounds good"; txt "perfect"; txt "let's do it";
    txt "that works"; txt "i accept" ].

Definition determine_next_state (current_state : string) (user_input : str)
  : string :=
  let user_lower := lower user_input in
  if any_in closing_keywords user_lower then "CLOSING" else "NEGOTIATING".

End App.

(* ------------------------------------------------------------------ *)
(** * backend/app/services/evaluator.py

    [agreed_terms] is [None] when the Python value is falsy ([None] or the
    empty dict); otherwise each field is the value [.get] returns, [None]
    for a missing key.  Scores are exact rationals.  The report's
    [feedback] and [negotiation_analysis] are text assembled after the
    scores and are not part of the model. *)

Module Evaluator.

Record final_terms : Type := mkFinal {
  agreed_price : option Q;
  agreed_delivery : option Q;
  agreed_volume : option Q
}.

(** [[m["content"] for m in self.history if m["role"] == "user"]] *)
Definition user_messages (h : history) : list str :=
  map content (filter (is_role "user") h).

(** The step function shared by the price and the delivery component. *)
Definition component (final target reduction_pct : Q) : Q :=
  if Qle_bool final target then 95
  else if Qle_bool 15 reduction_pct then 80
  else if Qle_bool 10 reduction_pct then 70
  else if Qle_bool 5 reduction_pct then 50
  else 30.

(** [((opening - final) / opening) * 100] *)
Definition reduction_pct (opening : Q) (final : option Q) : result Q :=
  match final with
  | None => Raise TypeError
  | Some f =>
      if Qeq_bool opening 0 then Raise ZeroDivisionError
      else Ok (((opening - f) / opening) * 100)%Q
  end.

Definition _score_deal_quality (deal_params : deal_params)
           (agreed_terms : option final_terms) : result Q :=
  match agreed_terms with
  | None => Ok 0%Q
  | Some agreed =>
      let opening_price := opening (params_price deal_params) in
      let opening_delivery := inject_Z (opening (params_delivery deal_params)) in
      let target_price := target (params_price deal_params) in
      let target_delivery := inject_Z (target (params_delivery deal_params)) in
      price_reduction_pct <- reduction_pct opening_price (agreed_price agreed) ;;
      match agreed_price agreed, agreed_delivery agreed with
      | Some final_price, final_delivery =>
          let price_component :=
            component final_price target_price price_reduction_pct in
          delivery_reduction_pct <- reduction_pct opening_delivery final_delivery ;;
          match final_delivery with
          | Some final_delivery =>
              let delivery_component :=
                component final_delivery target_delivery delivery_reduction_pct in
              Ok (round1 (price_component * (6 # 10) + delivery_component * (4 # 10)))
          | None => Raise TypeError
          end
      | None, _ => Raise TypeError
      end
  end.

Definition trade_off_keywords : list str :=
  [ txt "if you"; txt "in exchange"; txt "trade"; txt "volume";
    txt "order more"; txt "larger order"; txt "bulk"; txt "quantity";
    txt "conditional"; txt "deal"; txt "discount"; txt "lower price if";
    txt "faster delivery if" ].

(** The counting loop: one count per message, at its first keyword. *)
Fixpoint trade_off_count (user_messages : list str) : nat :=
  match user_messages with
  | [] => 0
  | message :: rest =>
      (if any_in trade_off_keywords (lower message) then 1 else 0)
      + trade_off_count rest
  end.

Definition Qnat (n : nat) : Q := inject_Z (Z.of_nat n).

Definition strategy_score (trade_off_count total_rounds : nat) : Q :=
  if Nat.eqb trade_off_count 0 then 30
  else if Nat.eqb trade_off_count 1 then 50
  else if Nat.leb 2 trade_off_count
          && Qle_bool (Qnat trade_off_count) (Qnat total_rounds * (5 # 10))
  then 75
  else 90.

Definition _score_trade_off_strategy (h : history) : Q :=
  let msgs := user_messages h in
  strategy_score (trade_off_count msgs) (length msgs).

Definition red_flags : list (list str) :=
  [ [ txt "stupid"; txt "ridiculous"; txt "unacceptable"; txt "outrageous";
      txt "idiot" ];
    [ txt "demand"; txt "must"; txt "have to"; txt "forced to" ];
    [ txt "lol"; txt "omg"; txt "ur"; txt "gonna" ];
    [ txt "no idea"; txt "don't know"; txt "clueless" ] ].

Definition positive_indicators : list (str * Z) :=
  [ (txt "please", 5); (txt "thank", 5); (txt "appreciate", 5);
    (txt "understand", 3); (txt "reasonable", 3); (txt "flexible", 5);
    (txt "partnership", 5); (txt "professional", 5) ].

(** The first loop: ten points off for every red-flag keyword a message
    contains. *)
Definition penalize (score : Z) (message : str) : Z :=
  let message_lower := lower message in
  fold_left
    (fun sc keywords =>
       fold_left
         (fun sc' keyword =>
            if contains keyword message_lower then sc' - 10 else sc')
         keywords sc)
    red_flags score.

(** The second loop: the capped bonus of every indicator a message
    contains. *)
Definition reward (score : Z) (message : str) : Z :=
  let message_lower := lower message in
  fold_left
    (fun sc ib =>
       if contains (fst ib) message_lower then Z.min 100 (sc + snd ib) else sc)
    positive_indicators score.

Definition _score_professionalism (h : history) : Q :=
  let msgs := user_messages h in
  let professionalism_score := fold_left penalize msgs 85 in
  let professionalism_score := fold_left reward msgs professionalism_score in
  inject_Z (Z.max 0 professionalism_score).

Definition confirmation_keywords : list str :=
  [ txt "confirm"; txt "agree"; txt "deal"; txt "accept"; txt "correct";
    txt "agreed" ].

Definition sum_nat (l : list nat) : nat := fold_right Nat.add 0%nat l.

Definition is_offer (msg : str) : bool :=
  contains (txt "$") msg || contains (txt "day") (lower msg).

Definition _score_process_management (h : history) : result Q :=
  let msgs := user_messages h in
  let process_score := 70 in
  let has_confirmations :=
    existsb (fun msg => any_in confirmation_keywords (lower msg)) msgs in
  let process_score :=
    if has_confirmations then process_score + 15 else process_score in
  match length msgs with
  | O => Raise ZeroDivisionError
  | S _ =>
      let avg_message_length :=
        (Qnat (sum_nat (map count_words msgs)) / Qnat (length msgs))%Q in
      let process_score :=
        if Qle_bool 10 avg_message_length && Qle_bool avg_message_length 40
        then process_score + 10
        else if negb (Qle_bool avg_message_length 100) then process_score - 10
        else if negb (Qle_bool 5 avg_message_length) then process_score - 5
        else process_score in
      let offer_count := length (filter is_offer msgs) in
      let process_score :=
        if Qle_bool (Qnat (length msgs) * (7 # 10)) (Qnat offer_count)
        then process_score + 10 else process_score in
      Ok (inject_Z (Z.min 100 (Z.max 0 process_score)))
  end.

(** [\$?(\d+(?:\.\d{2})?)] *)
Definition OFFER_RE : re :=
  Seq (Opt (Lit "$"))
      (Grp (Seq (Plus digit) (Opt (Cat [ Lit "."; digit; digit ])))).

(** The order of [sorted] on strings: lexicographic on character codes. *)
Fixpoint str_leb (a b : str) : bool :=
  match a, b with
  | [], _ => true
  | _ :: _, [] => false
  | x :: a', y :: b' =>
      if (code x <? code y)%N then true
      else if (code y <? code x)%N then false
      else str_leb a' b'
  end.

Fixpoint insert_sorted (x : str) (l : list str) : list str :=
  match l with
  | [] => [x]
  | y :: l' => if str_leb x y then x :: l else y :: insert_sorted x l'
  end.

Definition sorted (l : list str) : list str := fold_right insert_sorted [] l.

Definition str_eq_dec : forall a b : str, {a = b} + {a <> b} :=
  list_eq_dec ascii_dec.

(** [len(set(tuple(sorted(o)) for o in offers))] *)
Definition unique_offers (offers : list (list str)) : nat :=
  length (nodup (list_eq_dec str_eq_dec) (map sorted offers)).

Definition strategy_keywords : list str :=
  [ txt "alternative"; txt "instead"; txt "different"; txt "volume";
    txt "terms"; txt "creative" ].

Definition _score_creativity_adaptability (h : history) : Q :=
  let msgs := user_messages h in
  if Nat.ltb (length msgs) 2 then 50
  else
    let offers :=
      filter (fun numbers => match numbers with [] => false | _ => true end)
             (map (re_findall OFFER_RE) msgs) in
    match length offers with
    | O => 30
    | S _ =>
        let unique_ratio := (Qnat (unique_offers offers) / Qnat (length offers))%Q in
        let adaptation_score :=
          if Qle_bool (8 # 10) unique_ratio then 90
          else if Qle_bool (6 # 10) unique_ratio then 75
          else if Qle_bool (4 # 10) unique_ratio then 55
          else 35 in
        let strategy_attempts :=
          length (filter (fun msg => any_in strategy_keywords (lower msg)) msgs) in
        let adaptation_score :=
          if Nat.leb 2 strategy_attempts
          then Z.min 100 (adaptation_score + 15) else adaptation_score in
        inject_Z adaptation_score
    end.

Definition _calculate_overall_score
           (deal_quality strategy professionalism process creativity : Q) : Q :=
  round1 (deal_quality * (33 # 100) + strategy * (28 # 100)
          + professionalism * (17 # 100) + process * (11 # 100)
          + creativity * (11 # 100)).

(** [GRADE_THRESHOLDS], sorted by threshold, highest first. *)
Definition GRADE_THRESHOLDS : list (string * Q) :=
  [ ("A"%string, 90%Q); ("B"%string, 80%Q); ("C"%string, 70%Q);
    ("D"%string, 60%Q); ("F"%string, 0%Q) ].

Fixpoint first_grade (thresholds : list (string * Q)) (score : Q) : string :=
  match thresholds with
  | [] => "F"%string
  | (grade, threshold) :: rest =>
      if Qle_bool threshold score then grade else first_grade rest score
  end.

Definition _score_to_grade (score : Q) : string :=
  first_grade GRADE_THRESHOLDS score.

Record evaluation : Type := mkEvaluation {
  overall_score : Q;
  overall_grade : string;
  deal_quality : Q;
  trade_off_strategy : Q;
  professionalism : Q;
  process_management : Q;
  creativity_adaptability : Q;
  negotiation_rounds : nat
}.

Definition evaluate (h : history) (deal_params : deal_params)
           (agreed_terms : option final_terms) : result evaluation :=
  deal_quality_score <- _score_deal_quality deal_params agreed_terms ;;
  let strategy_score := _score_trade_off_strategy h in
  let professionalism_score := _score_professionalism h in
  process_score <- _score_process_management h ;;
  let creativity_score := _score_creativity_adaptability h in
  let overall :=
    _calculate_overall_score deal_quality_score strategy_score
                             professionalism_score process_score
                             creativity_score in
  Ok (mkEvaluation overall (_score_to_grade overall) deal_quality_score
                   strategy_score professionalism_score process_score
                   creativity_score (length (user_messages h))).

(** [min(items, key=lambda x: x[1])]: the first item of the least key. *)
Fixpoint min_by_score (best : string * Q) (items : list (string * Q))
  : string * Q :=
  match items with
  | [] => best
  | item :: rest =>
      min_by_score (if Qlt_bool (snd item) (snd best) then item else best) rest
  end.

(** The [top_weakness] of [_generate_feedback], which selects the key
    recommendation. *)
Definition top_weakness
           (deal_quality strategy professionalism process creativity : Q)
  : string * Q :=
  min_by_score ("deal_quality"%string, deal_quality)
    [ ("strategy"%string, strategy);
      ("professionalism"%string, professionalism);
      ("process"%string, process);
      ("creativity"%string, creativity) ].

End Evaluator.

(* ------------------------------------------------------------------ *)
(** * backend/app/main.py: what the endpoints compute before they call the
    services *)

Module Main.

(** The keywords of [send_message]. *)
Definition agreement_keywords : list str :=
  [ txt "agree"; txt "deal"; txt "accept"; txt "agreed"; txt "confirmed" ].

(** [next_state] of [send_message]. *)
Definition next_state (user_input : str) : string :=
  let user_lower := lower user_input in
  if any_in agreement_keywords user_lower then "CLOSING" else "NEGOTIATING".

(** Truth values: a float is false when it is zero, an int likewise. *)
Definition truthy_float (f : pyfloat) : bool :=
  match f with
  | Fin q => negb (Qeq_bool q 0)
  | Inf => true
  end.

Definition truthy_int (n : Z) : bool := negb (n =? 0).

(** [x or default] *)
Definition float_or (x : option pyfloat) (default : pyfloat) : pyfloat :=
  match x with
  | Some f => if truthy_float f then f else default
  | None => default
  end.

Definition int_or (x : option Z) (default : Z) : Z :=
  match x with
  | Some n => if truthy_int n then n else default
  | None => default
  end.

(** The loop of [evaluate_deal] over [reversed(history)]; [found] holds the
    entries [price] and [delivery] of [agreed_terms] once they are set. *)
Fixpoint scan_agreed (reversed_history : history) (deal_params : deal_params)
         (found : option (pyfloat * Z)) : result (option (pyfloat * Z)) :=
  match reversed_history with
  | [] => Ok found
  | msg :: rest =>
      if is_role "assistant" msg then
        p <- Extraction.extract_price (Some (content msg)) ;;
        let price := float_or p (Fin (target (params_price deal_params))) in
        d <- Extraction.extract_delivery (Some (content msg)) ;;
        let delivery := int_or d (target (params_delivery deal_params)) in
        if truthy_float price && truthy_int delivery
        then Ok (Some (price, delivery))
        else scan_agreed rest deal_params (Some (price, delivery))
      else scan_agreed rest deal_params found
  end.

(** The [price] and [delivery] of the [agreed_terms] that [evaluate_deal]
    hands to the evaluator. *)
Definition agreed_price_and_delivery (history : history)
           (deal_params : deal_params) : result (pyfloat * Z) :=
  found <- scan_agreed (rev history) deal_params None ;;
  match found with
  | Some terms => Ok terms
  | None => Ok (Fin (target (params_price deal_params)),
                target (params_delivery deal_params))
  end.

End Main.

(* ------------------------------------------------------------------ *)
(** * backend/app.py: the scripted seller

    The arithmetic of this file truncates floats to integers, so a float is
    taken here as the binary64 number it is: [binary64 q] is the double
    nearest to the rational [q], ties to the even mantissa, [Inf] beyond the
    range.  Only the magnitude of an infinity is kept; every use below
    raises on either sign or says which sign it reads. *)

Definition pow2 (e : Z) : Q := (2 ^ e)%Q.

(** The integer part of the binary logarithm of a positive rational. *)
Definition ilog2 (q : Q) : Z :=
  let e0 := Z.log2 (Qnum q) - Z.log2 (Zpos (Qden q)) in
  if Qle_bool (pow2 e0) q then e0 else e0 - 1.

Definition binary64 (q : Q) : pyfloat :=
  if Qeq_bool q 0 then Fin 0
  else
    let a := Qabs q in
    let e := Z.max (ilog2 a) (-1022) in
    let ulp := pow2 (e - 52) in
    let m := round_half_even (a / ulp) in
    let r := (inject_Z m * ulp)%Q in
    if Qle_bool (pow2 1024) r then Inf
    else Fin (Qred (if Qle_bool 0 q then r else - r)).

(** [s.split()]: the maximal runs of characters that are not white space. *)
Fixpoint split_words_from (word_rev : str) (s : str) : list str :=
  match s with
  | [] => match word_rev with [] => [] | _ :: _ => [rev word_rev] end
  | c :: s' =>
      if is_space c then
        match word_rev with
        | [] => split_words_from [] s'
        | _ :: _ => rev word_rev :: split_words_from [] s'
        end
      else split_words_from (c :: word_rev) s'
  end.

Definition split_words (s : str) : list str := split_words_from [] s.

(** [s.isdigit()] on ASCII text. *)
Definition isdigit (s : str) : bool := nonempty s && forallb is_digit s.

Module Session.

(** A float literal of the source. *)
Definition literal (q : Q) : Q :=
  match binary64 q with Fin x => x | Inf => 0 end.

(** [int(n * f)] for an int [n] and a float literal [f]. *)
Definition int_of_product (n : Z) (f : Q) : result Z :=
  match binary64 (inject_Z n) with
  | Inf => Raise OverflowError
  | Fin x => int_of_float (binary64 (x * literal f))
  end.

(** [a / b] on ints: the nearest double of the quotient. *)
Definition true_div (a b : Z) : result pyfloat :=
  if b =? 0 then Raise ZeroDivisionError
  else
    match binary64 (inject_Z a / inject_Z b) with
    | Inf => Raise OverflowError
    | Fin x => Ok (Fin x)
    end.

(** [x * n] for a float [x] and a small int [n]. *)
Definition float_times (x : pyfloat) (n : Z) : pyfloat :=
  match x with
  | Fin q => binary64 (q * inject_Z n)
  | Inf => Inf
  end.

(** [round(x, 1)] on a float. *)
Definition round_float_1 (x : pyfloat) : pyfloat :=
  match x with
  | Fin q => binary64 (round1 q)
  | Inf => Inf
  end.

(** ** [DealParameters] *)

(** What [random] returns in [DealParameters.__init__], in the order of the
    calls. *)
Record parameter_draws : Type := mkParameterDraws {
  drawn_base_price : Z;          (* random.randint(50, 100) *)
  drawn_target_quantity : Z;     (* random.randint(500, 2000) *)
  drawn_delivery_days : Z;       (* random.randint(30, 90) *)
  drawn_quality_grade : string;  (* random.choice(['A', 'B', 'C']) *)
  drawn_warranty_months : Z      (* random.randint(6, 24) *)
}.

Definition draws_in_range (d : parameter_draws) : Prop :=
  50 <= drawn_base_price d <= 100 /\
  500 <= drawn_target_quantity d <= 2000 /\
  30 <= drawn_delivery_days d <= 90 /\
  In (drawn_quality_grade d) ["A"%string; "B"%string; "C"%string] /\
  6 <= drawn_warranty_months d <= 24.

(** [sum(ord(c) for c in student_id)] *)
Definition seed_of (student_id : str) : Z :=
  fold_left (fun acc c => acc + Z.of_N (code c)) student_id 0.

Record DealParameters : Type := mkDealParameters {
  base_price : Z;
  min_price : Z;
  target_quantity : Z;
  min_quantity : Z;
  delivery_days : Z;
  min_delivery : Z;
  quality_grade : string;
  warranty_months : Z
}.

(** [DealParameters(student_id)]; [rng] gives the draws that follow
    [random.seed(seed)]. *)
Definition new_DealParameters (rng : Z -> parameter_draws) (student_id : str)
  : result DealParameters :=
  let seed := seed_of student_id in
  let d := rng seed in
  let base_price := drawn_base_price d in
  min_price <- int_of_product base_price (7 # 10) ;;
  let target_quantity := drawn_target_quantity d in
  min_quantity <- int_of_product target_quantity (5 # 10) ;;
  let delivery_days := drawn_delivery_days d in
  min_delivery <- int_of_product delivery_days (6 # 10) ;;
  Ok (mkDealParameters base_price min_price target_quantity min_quantity
                       delivery_days min_delivery (drawn_quality_grade d)
                       (drawn_warranty_months d)).

(** ** [NegotiationSession] *)

(** Alex's replies are f-strings; a reply is kept as its template and the
    values the template shows. *)
Inductive reply : Type :=
| Greeting (grade : string) (price quantity delivery warranty : Z)
| NeedTerms
| Farewell
| BelowCost (proposed_price price : Z) (grade : string) (warranty : Z)
| ComeDown (price : Z)
| PriceWorks (proposed_price quantity delivery : Z)
| VolumeDiscount (proposed_qty price : Z)
| CanDoUnits (proposed_qty price : Z)
| AtLeastUnits (least : Z)
| RushDelivery (proposed_delivery surcharged_price : Z)
| CanAccommodate (proposed_delivery price : Z)
| WarrantyTerms (months : Z)
| GradeTested (grade : string)
| InStock (units : Z)
| WhatInformation
| Encouraging (which : nat) (price quantity : Z)
| DealClosed (quantity price delivery : Z).

(** A message of the session: its role and content; the time stamp is left
    out. *)
Inductive entry : Type :=
| FromAlex (content : reply)
| FromUser (content : str).

Record offer : Type := mkOffer {
  offer_price : Z;
  offer_quantity : Z;
  offer_delivery : Z
}.

Record session : Type := mkSession {
  deal_params : DealParameters;
  messages : list entry;
  turn_count : Z;
  status : string;
  current_offer : option offer;
  deal_closed : bool;
  alex_price : Z;
  alex_quantity : Z;
  alex_delivery : Z;
  concession_count : Z;
  max_concessions : Z
}.

Definition with_messages (s : session) (v : list entry) : session :=
  mkSession (deal_params s) v (turn_count s) (status s) (current_offer s)
            (deal_closed s) (alex_price s) (alex_quantity s) (alex_delivery s)
            (concession_count s) (max_concessions s).

Definition with_turn_count (s : session) (v : Z) : session :=
  mkSession (deal_params s) (messages s) v (status s) (current_offer s)
            (deal_closed s) (alex_price s) (alex_quantity s) (alex_delivery s)
            (concession_count s) (max_concessions s).

Definition with_status (s : session) (v : string) : session :=
  mkSession (deal_params s) (messages s) (turn_count s) v (current_offer s)
            (deal_closed s) (alex_price s) (alex_quantity s) (alex_delivery s)
            (concession_count s) (max_concessions s).

Definition with_current_offer (s : session) (v : option offer) : session :=
  mkSession (deal_params s) (messages s) (turn_count s) (status s) v
            (deal_closed s) (alex_price s) (alex_quantity s) (alex_delivery s)
            (concession_count s) (max_concessions s).

Definition with_deal_closed (s : session) (v : bool) : session :=
  mkSession (deal_params s) (messages s) (turn_count s) (status s)
            (current_offer s) v (alex_price s) (alex_quantity s)
            (alex_delivery s) (concession_count s) (max_concessions s).

Definition with_alex_price (s : session) (v : Z) : session :=
  mkSession (deal_params s) (messages s) (turn_count s) (status s)
            (current_offer s) (deal_closed s) v (alex_quantity s)
            (alex_delivery s) (concession_count s) (max_concessions s).

Definition with_alex_quantity (s : session) (v : Z) : session :=
  mkSession (deal_params s) (messages s) (turn_count s) (status s)
            (current_offer s) (deal_closed s) (alex_price s) v
            (alex_delivery s) (concession_count s) (max_concessions s).

Definition with_alex_delivery (s : session) (v : Z) : session :=
  mkSession (deal_params s) (messages s) (turn_count s) (status s)
            (current_offer s) (deal_closed s) (alex_price s) (alex_quantity s)
            v (concession_count s) (max_concessions s).

Definition with_concession_count (s : session) (v : Z) : session :=
  mkSession (deal_params s) (messages s) (turn_count s) (status s)
            (current_offer s) (deal_closed s) (alex_price s) (alex_quantity s)
            (alex_delivery s) v (max_concessions s).

Definition _add_alex_message (s : session) (content : reply) : session :=
  with_messages s (messages s ++ [FromAlex content]).

Definition _add_user_message (s : session) (content : str) : session :=
  with_messages s (messages s ++ [FromUser content]).

(** [NegotiationSession(session_id, student_id)], the parameters drawn. *)
Definition new_session (params : DealParameters) : session :=
  let s :=
    mkSession params [] 0 "active" None false
              (base_price params) (target_quantity params)
              (delivery_days params) 0 5 in
  _add_alex_message s
    (Greeting (quality_grade params) (alex_price s) (alex_quantity s)
              (alex_delivery s) (warranty_months params)).

(** [proposed_qty > self.alex_quantity * 1.5]: the int is converted to a
    float, which raises when it is out of range; the product may be an
    infinity of the sign of the quantity; the comparison of an int with a
    float is exact. *)
Definition exceeds_one_and_a_half (proposed_qty alex_quantity : Z)
  : result bool :=
  match binary64 (inject_Z alex_quantity) with
  | Inf => Raise OverflowError
  | Fin x =>
      match binary64 (x * literal (15 # 10)) with
      | Inf => Ok (alex_quantity <? 0)
      | Fin y => Ok (Qlt_bool y (inject_Z proposed_qty))
      end
  end.

(** Tactic 1 of [_generate_negotiation_response]; [None] where the source
    falls through to the next tactic. *)
Definition anchoring (s : session) (message_lower : str) (numbers : list Z)
  : option (reply * session) :=
  if contains (txt "price") message_lower || contains (txt "$") message_lower
  then
    match numbers with
    | proposed_price :: _ =>
        if proposed_price <? min_price (deal_params s) then
          Some (BelowCost proposed_price (alex_price s)
                          (quality_grade (deal_params s))
                          (warranty_months (deal_params s)), s)
        else if (proposed_price <? alex_price s)
                && (concession_count s <? max_concessions s) then
          let concession := Z.min 5 ((alex_price s - proposed_price) / 3) in
          let s := with_alex_price s (alex_price s - concession) in
          let s := with_concession_count s (concession_count s + 1) in
          Some (ComeDown (alex_price s), s)
        else
          let s :=
            with_current_offer s
              (Some (mkOffer (alex_price s) (alex_quantity s) (alex_delivery s))) in
          Some (PriceWorks proposed_price (alex_quantity s) (alex_delivery s), s)
    | [] => None
    end
  else None.

(** [max(numbers)] of a list that is not empty. *)
Definition maximum (first : Z) (others : list Z) : Z :=
  fold_left Z.max others first.

(** Tactic 2. *)
Definition bundling (s : session) (message_lower : str) (numbers : list Z)
  : option (result reply * session) :=
  if contains (txt "quantity") message_lower
     || contains (txt "units") message_lower
  then
    match numbers with
    | first :: others =>
        let proposed_qty := maximum first others in
        if min_quantity (deal_params s) <=? proposed_qty then
          if alex_quantity s <? proposed_qty then
            match exceeds_one_and_a_half proposed_qty (alex_quantity s) with
            | Ok much_more =>
                let discount := if much_more then 2 else 1 in
                let s :=
                  with_alex_price s
                    (Z.max (min_price (deal_params s)) (alex_price s - discount)) in
                let s := with_alex_quantity s proposed_qty in
                Some (Ok (VolumeDiscount proposed_qty (alex_price s)), s)
            | Raise e => Some (Raise e, s)
            end
          else
            let s := with_alex_quantity s proposed_qty in
            Some (Ok (CanDoUnits proposed_qty (alex_price s)), s)
        else Some (Ok (AtLeastUnits (min_quantity (deal_params s))), s)
    | [] => None
    end
  else None.

(** Tactic 3. *)
Definition time_pressure (s : session) (message_lower : str) (numbers : list Z)
  : option (reply * session) :=
  if contains (txt "delivery") message_lower
     || contains (txt "days") message_lower
     || contains (txt "time") message_lower
  then
    match numbers with
    | proposed_delivery :: _ =>
        if proposed_delivery <? min_delivery (deal_params s) then
          Some (RushDelivery proposed_delivery (alex_price s + 5), s)
        else
          let s := with_alex_delivery s proposed_delivery in
          Some (CanAccommodate proposed_delivery (alex_price s), s)
    | [] => None
    end
  else None.

(** Tactic 4. *)
Definition information (s : session) (message_lower : str) : option reply :=
  if contains (txt "?") message_lower then
    if contains (txt "warranty") message_lower then
      Some (WarrantyTerms (warranty_months (deal_params s)))
    else if contains (txt "quality") message_lower
            || contains (txt "grade") message_lower then
      Some (GradeTested (quality_grade (deal_params s)))
    else if contains (txt "stock") message_lower
            || contains (txt "available") message_lower then
      Some (InStock (target_quantity (deal_params s) * 2))
    else Some WhatInformation
  else None.

(** [_generate_negotiation_response]; [choice] is the index that
    [random.choice] draws among the four default replies. *)
Definition _generate_negotiation_response
           (s : session) (message_lower : str) (numbers : list Z) (choice : nat)
  : result reply * session :=
  match anchoring s message_lower numbers with
  | Some (response, s') => (Ok response, s')
  | None =>
      match bundling s message_lower numbers with
      | Some (response, s') => (response, s')
      | None =>
          match time_pressure s message_lower numbers with
          | Some (response, s') => (Ok response, s')
          | None =>
              match information s message_lower with
              | Some response => (Ok response, s)
              | None =>
                  (Ok (Encouraging choice (alex_price s) (alex_quantity s)), s)
              end
          end
      end
  end.

(** [_close_deal]: the reply is returned and not added to the messages. *)
Definition _close_deal (s : session) : reply * session :=
  let s := with_deal_closed s true in
  let s := with_status s "completed" in
  let final_price := alex_price s in
  let final_quantity := alex_quantity s in
  let final_delivery := alex_delivery s in
  (DealClosed final_quantity final_price final_delivery, s).

Definition acceptance_words : list str :=
  [ txt "accept"; txt "deal"; txt "agreed"; txt "yes, let's do it" ].

Definition walkaway_words : list str :=
  [ txt "no deal"; txt "walk away"; txt "never mind"; txt "forget it" ].

(** [[int(s) for s in user_message.split() if s.isdigit()]] *)
Definition numbers_of (user_message : str) : list Z :=
  map digits_val (filter isdigit (split_words user_message)).

(** [process_message]: the reply, or the exception that escapes, and the
    session as the call leaves it. *)
Definition process_message (s : session) (user_message : str) (choice : nat)
  : result reply * session :=
  let s := _add_user_message s user_message in
  let s := with_turn_count s (turn_count s + 1) in
  let message_lower := lower user_message in
  if any_in acceptance_words message_lower then
    match current_offer s with
    | Some _ => let '(response, s) := _close_deal s in (Ok response, s)
    | None => (Ok NeedTerms, _add_alex_message s NeedTerms)
    end
  else if any_in walkaway_words message_lower then
    let s := with_status s "failed" in
    (Ok Farewell, _add_alex_message s Farewell)
  else
    let numbers := numbers_of user_message in
    match _generate_negotiation_response s message_lower numbers choice with
    | (Ok response, s) => (Ok response, _add_alex_message s response)
    | (Raise e, s) => (Raise e, s)
    end.

(** ** [evaluate] *)

Record metrics : Type := mkMetrics {
  price_achievement : Z;
  efficiency : Z;
  relationship_building : Z;
  value_creation : Z;
  strategic_negotiation : Z
}.

(** The report of [evaluate]; [deal_details] copies fields of the session
    and is left out. *)
Inductive evaluation : Type :=
| NotCompleted
| Completed (overall_score : pyfloat) (scores : metrics).

Definition polite_words : list str :=
  [ txt "please"; txt "thank"; txt "appreciate" ].

Definition relationship_step (relationship_score : Z) (msg : entry) : Z :=
  match msg with
  | FromUser content =>
      if any_in polite_words (lower content)
      then Z.min 100 (relationship_score + 5)
      else relationship_score
  | FromAlex _ => relationship_score
  end.

(** [int((a / b) * 100)] *)
Definition percent_of (a b : Z) : result Z :=
  ratio <- true_div a b ;;
  int_of_float (float_times ratio 100).

Definition evaluate (s : session) : result evaluation :=
  if negb (deal_closed s) then Ok NotCompleted
  else
    let price_saved := base_price (deal_params s) - alex_price s in
    let max_possible_savings :=
      base_price (deal_params s) - min_price (deal_params s) in
    price_score <-
      (if 0 <? max_possible_savings
       then percent_of price_saved max_possible_savings else Ok 0) ;;
    let price_score := Z.max 0 (Z.min 100 price_score) in
    let efficiency_score := Z.max 0 (100 - turn_count s * 10) in
    let relationship_score := fold_left relationship_step (messages s) 70 in
    value_score <-
      percent_of (alex_quantity s) (target_quantity (deal_params s)) ;;
    let value_score := Z.max 0 (Z.min 100 value_score) in
    let strategic_score := Z.max 0 (100 - concession_count s * 15) in
    overall_score <-
      true_div (price_score + efficiency_score + relationship_score
                + value_score + strategic_score) 5 ;;
    Ok (Completed (round_float_1 overall_score)
                  (mkMetrics price_score efficiency_score relationship_score
                             value_score strategic_score)).

(** ** The endpoint [/api/chat], for a session that exists *)

Inductive chat_response : Type :=
| NotActive
| Answer (alex_response : reply) (status : string) (turn_count : Z)
         (deal_closed : bool) (evaluation : option evaluation).

(** [send_message]: [NotActive] is the HTTP error 400; an exception of
    [process_message] or of [evaluate] escapes. *)
Definition send_message (s : session) (message : str) (choice : nat)
  : result chat_response * session :=
  if negb (String.eqb (status s) "active") && negb (deal_closed s)
  then (Ok NotActive, s)
  else
    match process_message s message choice with
    | (Ok response, s') =>
        if deal_closed s' then
          match evaluate s' with
          | Ok report =>
              (Ok (Answer response (status s') (turn_count s') true
                          (Some report)), s')
          | Raise e => (Raise e, s')
          end
        else
          (Ok (Answer response (status s') (turn_count s') false None), s')
    | (Raise e, s') => (Raise e, s')
    end.

(** The session after a conversation: the messages in turn, each with the
    draw of its default reply; a call that raises leaves the session as it
    is then, and the conversation goes on. *)
Definition converse (s : session) (conversation : list (str * nat)) : session :=
  fold_left (fun s turn => snd (process_message s (fst turn) (snd turn)))
            conversation s.

End Session.

(* ------------------------------------------------------------------ *)
(** * Reference functions and scenarios used by the statements below *)

Definition seller (s : string) : message := mkMessage "assistant" (txt s) None.
Definition buyer (s : string) : message := mkMessage "user" (txt s) None.
Arguments seller s%_string.
Arguments buyer s%_string.

(** What a call may change in a message: nothing, or the cache of a seller
    message, set to the terms extracted from its content. *)
Definition frame (m m' : message) : Prop :=
  m' = m \/
  (is_role "assistant" m = true /\
   exists e, extract_terms (content m) = Ok e /\
             m' = mkMessage (role m) (content m) (Some e)).

(** The backward search of [src/app.py] without its writes. *)
Fixpoint nearest_proposal (h : history) (idx : nat)
  : result (option (terms * nat)) :=
  match idx with
  | O => Ok None
  | S j =>
      match nth_error h j with
      | None => nearest_proposal h j
      | Some msg =>
          if negb (is_role "assistant" msg) then nearest_proposal h j
          else
            match extract_terms (content msg) with
            | Raise e => Raise e
            | Ok extracts =>
                if Nat.leb 2 (count_present extracts)
                then Ok (Some (extracts, j))
                else nearest_proposal h j
            end
      end
  end.

(** The verdict a search result leads to. *)
Definition verdict_of_proposal (r : result (option (terms * nat)))
  : result verdict :=
  match r with
  | Raise e => Raise e
  | Ok (Some (proposal, _)) => Ok (verdict_of proposal)
  | Ok None => Ok (verdict_of no_terms)
  end.

(** "Incomplete, with price, delivery and volume all listed as missing". *)
Definition all_three_missing (r : result verdict) : Prop :=
  exists t, r = Ok (false, all_missing, t).

(** A bare acceptance after a greeting. *)
Definition bare_acceptance : history :=
  [ seller "Hello, what are your requirements?"; buyer "I agree" ].

(** An acceptance whose proposal lies two seller turns back. *)
Definition earlier_proposal : history :=
  [ seller "We can offer $50 per unit with delivery in 30 days.";
    buyer "Let me think about it.";
    seller "Take your time.";
    buyer "I accept." ].

(** An acceptance that names a price of zero and a delivery of zero days. *)
Definition zero_terms : history :=
  [ seller "Hello, what are your requirements?";
    buyer "I agree to $0 and 0 days" ].

(** A transcript without any acceptance. *)
Definition still_negotiating : history :=
  [ seller "Hello, what are your requirements?";
    buyer "Can you do $40 per unit?";
    seller "I can offer $48 per unit and 50 days." ].




Definition no_dollar (s : str) : bool :=
  forallb (fun c => negb (eqc "$"%char c)) s.

(** A run of the class [p] ends where [tail] begins. *)
Definition stops (p : ascii -> bool) (tail : str) : Prop :=
  match tail with
  | [] => True
  | y :: _ => p y = false
  end.

(** The character before the position reached after reading [xs]. *)
Definition prev_after (pv : option ascii) (xs : str) : option ascii :=
  fold_left (fun _ x => Some x) xs pv.

(** A volume in thousands whose number has 310 digits. *)
Definition huge_volume : str :=
  txt "1" ++ repeat "0"%char 309 ++ txt "k".

(** The generator's invariant: reservation < target < opening for price and
    for delivery, and a reservation price of at least half the opening. *)
Definition well_ordered (p : deal_params) : Prop :=
  (reservation (params_price p) < target (params_price p))%Q /\
  (target (params_price p) < opening (params_price p))%Q /\
  reservation (params_delivery p) < target (params_delivery p) /\
  target (params_delivery p) < opening (params_delivery p) /\
  ((5 # 10) * opening (params_price p) <= reservation (params_price p))%Q.

(** A generator that draws the middle of every range, whatever the seed. *)
Definition midpoint_rng (seed : option Z) : draws :=
  mkDraws (175 # 10) (20 # 100) (125 # 1000) 7 (20 # 100) (125 # 1000).

(** A score on the scale of the rubric. *)
Definition on_scale (q : Q) : Prop := (0 <= q <= 100)%Q.

(** The letter of a score by the thresholds A >= 90, B >= 80, C >= 70,
    D >= 60, else F. *)
Definition letter_of (score : Q) : string :=
  if Qle_bool 90 score then "A"
  else if Qle_bool 80 score then "B"
  else if Qle_bool 70 score then "C"
  else if Qle_bool 60 score then "D"
  else "F".

(** Every sub-score and the overall score on the scale, and the grade the
    letter of the overall score. *)
Definition bounded_and_graded (r : Evaluator.evaluation) : Prop :=
  on_scale (Evaluator.deal_quality r) /\
  on_scale (Evaluator.trade_off_strategy r) /\
  on_scale (Evaluator.professionalism r) /\
  on_scale (Evaluator.process_management r) /\
  on_scale (Evaluator.creativity_adaptability r) /\
  on_scale (Evaluator.overall_score r) /\
  Evaluator.overall_grade r = letter_of (Evaluator.overall_score r).

(** Deal parameters and agreed terms the evaluator can compute with. *)
Definition usable_params (p : deal_params) : Prop :=
  ~ (opening (params_price p) == 0)%Q /\ opening (params_delivery p) <> 0.

Definition usable_terms (a : option Evaluator.final_terms) : Prop :=
  match a with
  | None => True
  | Some t =>
      Evaluator.agreed_price t <> None /\ Evaluator.agreed_delivery t <> None
  end.

(** The sample of [evaluator.py]. *)
Definition sample_history : history :=
  [ seller "Good morning, I'm Alex from ChipSource. Our standard price is $52.50 per unit with 60-day delivery.";
    buyer "That's quite high. Can you reduce it to $40 per unit with 30-day delivery?";
    seller "I appreciate the interest, but $40 is below our range. I can offer $48 per unit with 50-day delivery if you commit to 15,000 units.";
    buyer "What if we did $45 per unit and 40 days if we order 20,000 units? That's a good volume commitment.";
    seller "That's a fair proposal! I can accept $44 per unit, 42-day delivery for 20,000 units. This volume qualifies you for our Tier 1 discount.";
    buyer "Perfect! So we have a deal: $44 per unit, 42 days, 20,000 units. I confirm this agreement." ].

Definition sample_params : deal_params :=
  mkParams (mkLevels (5250 # 100) 42%Q (3850 # 100)) (mkLevels 60 45 35) None.

Definition sample_agreed : Evaluator.final_terms :=
  Evaluator.mkFinal (Some 44%Q) (Some 42%Q) (Some 20000%Q).

(** A session in which the buyer has not written yet. *)
Definition greeting_only : history :=
  [ seller "Good morning. Thank you for your interest in the CS-1000 microprocessor." ].

(** Five buyer messages, three of them with a trade-off phrase. *)
Definition five_rounds : history :=
  [ seller "Hello, what are your requirements?";
    buyer "Could we talk about volume?";
    buyer "What about a bulk order?";
    buyer "Is there a discount?";
    buyer "I see.";
    buyer "Let me check with my manager." ].

(** C5 as the specification words it: 75 up to the ceiling of half the
    rounds. *)
Definition banded_with_ceiling (h : history) : Prop :=
  let count := Evaluator.trade_off_count (Evaluator.user_messages h) in
  let rounds := length (Evaluator.user_messages h) in
  (2 <= count)%nat ->
  (Z.of_nat count <= Qceiling (Evaluator.Qnat rounds * (5 # 10))) ->
  Evaluator._score_trade_off_strategy h = 75%Q.

(** Text without a digit. *)
Definition no_digit (s : str) : bool := forallb (fun c => negb (is_digit c)) s.


(** An acceptance that names a volume too large for a float. *)
Definition huge_acceptance : history :=
  [ seller "Hello, what are your requirements?";
    mkMessage "user" (txt "I accept " ++ huge_volume) None ].

(** Text without a line feed. *)
Definition single_line (s : str) : bool :=
  forallb (fun c => negb (eqc "010"%char c)) s.

(** The number of buyer messages among the messages of a session. *)
Definition user_turns (ms : list Session.entry) : nat :=
  length (filter (fun e => match e with
                           | Session.FromUser _ => true
                           | Session.FromAlex _ => false
                           end) ms).

(** What a session of the scripted seller keeps true. *)
Definition steady (s : Session.session) : Prop :=
  Session.min_price (Session.deal_params s) <= Session.alex_price s
  <= Session.base_price (Session.deal_params s) /\
  0 <= Session.concession_count s <= 5 /\
  Session.max_concessions s = 5 /\
  Session.turn_count s = Z.of_nat (user_turns (Session.messages s)) /\
  (Session.deal_closed s = true -> Session.current_offer s <> None).

(** The integers from [lo], [n] of them. *)
Definition Z_range (lo : Z) (n : nat) : list Z :=
  map (fun i => lo + Z.of_nat i) (seq 0 n).

(** [int(base_price * 0.7)] is the floor of seven tenths of the price, but
    for 90, where the product rounds below 63. *)
Definition floor_price_as_computed (base_price : Z) : bool :=
  match Session.int_of_product base_price (7 # 10) with
  | Ok k => k =? 7 * base_price / 10 - (if base_price =? 90 then 1 else 0)
  | Raise _ => false
  end.

Definition half_as_computed (quantity : Z) : bool :=
  match Session.int_of_product quantity (5 # 10) with
  | Ok k => k =? quantity / 2
  | Raise _ => false
  end.

Definition fastest_as_computed (days : Z) : bool :=
  match Session.int_of_product days (6 # 10) with
  | Ok k => k =? 6 * days / 10
  | Raise _ => false
  end.


(* ================================================================== *)
(** * Rounding *)

Lemma round_half_even_comp (x y : Q) :
  (x == y)%Q -> round_half_even x = round_half_even y.
Proof.
  intros E. unfold round_half_even.
  rewrite (Qfloor_comp x y E).
  assert ((x - inject_Z (Qfloor y) ?= 1 # 2) = (y - inject_Z (Qfloor y) ?= 1 # 2))%Q
    as -> by (apply Qcompare_comp; [rewrite E|]; reflexivity).
  reflexivity.
Qed.

Lemma round_half_even_Z (n : Z) : round_half_even (inject_Z n) = n.
Proof.
  unfold round_half_even. rewrite Qfloor_Z.
  assert ((inject_Z n - inject_Z n ?= 1 # 2)%Q = Lt) as ->; [|reflexivity].
  apply Qlt_alt. ring_simplify (inject_Z n - inject_Z n)%Q. reflexivity.
Qed.

(** The rounded value lies within one half of the number. *)
Lemma round_half_even_near (x : Q) :
  (x - (1 # 2) <= inject_Z (round_half_even x) <= x + (1 # 2))%Q.
Proof.
  unfold round_half_even.
  pose proof (Qfloor_le x) as Hlo. pose proof (Qlt_floor x) as Hhi.
  rewrite inject_Z_plus in Hhi. change (inject_Z 1) with 1%Q in Hhi.
  destruct (x - inject_Z (Qfloor x) ?= 1 # 2)%Q eqn:E.
  - apply Qeq_alt in E.
    destruct (Z.even (Qfloor x)); [|rewrite inject_Z_plus; change (inject_Z 1) with 1%Q];
      split; lra.
  - apply Qlt_alt in E. split; lra.
  - apply Qgt_alt in E. rewrite inject_Z_plus. change (inject_Z 1) with 1%Q.
    split; lra.
Qed.

Lemma round_half_even_floor (x : Q) :
  Qfloor x <= round_half_even x <= Qfloor x + 1.
Proof.
  unfold round_half_even.
  destruct (x - inject_Z (Qfloor x) ?= 1 # 2)%Q; [destruct (Z.even _)| |]; lia.
Qed.

(** Rounding does not cross an integer. *)
Lemma round_half_even_ge (x : Q) (n : Z) :
  (inject_Z n <= x)%Q -> n <= round_half_even x.
Proof.
  intros H. pose proof (round_half_even_floor x).
  assert (n <= Qfloor x); [|lia].
  rewrite <- (Qfloor_Z n). apply Qfloor_resp_le, H.
Qed.

Lemma round_half_even_le (x : Q) (n : Z) :
  (x <= inject_Z n)%Q -> round_half_even x <= n.
Proof.
  intros H.
  destruct (Z_lt_le_dec (Qfloor x) n) as [Hlt|Hge].
  - pose proof (round_half_even_floor x). lia.
  - assert (Qfloor x <= n) as Hle
        by (rewrite <- (Qfloor_Z n); apply Qfloor_resp_le, H).
    assert (Qfloor x = n) as Ef by lia.
    assert (x == inject_Z n)%Q as Ex.
    { apply Qle_antisym; [exact H|]. rewrite <- Ef. apply Qfloor_le. }
    rewrite (round_half_even_comp _ _ Ex), round_half_even_Z. lia.
Qed.

Lemma round2_near (x : Q) :
  (x - (1 # 200) <= round2 x <= x + (1 # 200))%Q.
Proof.
  unfold round2. pose proof (round_half_even_near (x * 100)) as H.
  set (r := round_half_even (x * 100)) in *.
  assert (r # 100 == inject_Z r * (1 # 100))%Q as ->
      by (unfold Qeq; simpl; ring).
  split; lra.
Qed.

Lemma round1_near (x : Q) :
  (x - (1 # 20) <= round1 x <= x + (1 # 20))%Q.
Proof.
  unfold round1. pose proof (round_half_even_near (x * 10)) as H.
  set (r := round_half_even (x * 10)) in *.
  assert (r # 10 == inject_Z r * (1 # 10))%Q as ->
      by (unfold Qeq; simpl; ring).
  split; lra.
Qed.

(** Rounding to a number of decimals keeps a value between two integers
    between them. *)
Lemma round2_between (x : Q) (a b : Z) :
  (inject_Z a <= x <= inject_Z b)%Q -> (inject_Z a <= round2 x <= inject_Z b)%Q.
Proof.
  intros [Ha Hb]. unfold round2.
  assert (a * 100 <= round_half_even (x * 100)) as H1.
  { apply round_half_even_ge. rewrite inject_Z_mult.
    change (inject_Z 100) with 100%Q. lra. }
  assert (round_half_even (x * 100) <= b * 100) as H2.
  { apply round_half_even_le. rewrite inject_Z_mult.
    change (inject_Z 100) with 100%Q. lra. }
  set (r := round_half_even (x * 100)) in *.
  unfold Qle, inject_Z. simpl. lia.
Qed.

Lemma round1_between (x : Q) (a b : Z) :
  (inject_Z a <= x <= inject_Z b)%Q -> (inject_Z a <= round1 x <= inject_Z b)%Q.
Proof.
  intros [Ha Hb]. unfold round1.
  assert (a * 10 <= round_half_even (x * 10)) as H1.
  { apply round_half_even_ge. rewrite inject_Z_mult.
    change (inject_Z 10) with 10%Q. lra. }
  assert (round_half_even (x * 10) <= b * 10) as H2.
  { apply round_half_even_le. rewrite inject_Z_mult.
    change (inject_Z 10) with 10%Q. lra. }
  set (r := round_half_even (x * 10)) in *.
  unfold Qle, inject_Z. simpl. lia.
Qed.
(* ================================================================== *)
(** * Properties of the agreement detector *)

Section ScanFacts.

Lemma nth_error_mid (pre : history) (p m : message) (post : history) :
  nth_error (pre ++ p :: m :: post) (S (length pre)) = Some m /\
  nth_error (pre ++ p :: m :: post) (length pre) = Some p.
Proof.
  split.
  - rewrite nth_error_app2 by lia.
    replace (S (length pre) - length pre)%nat with 1%nat by lia. reflexivity.
  - rewrite nth_error_app2 by lia.
    rewrite Nat.sub_diag. reflexivity.
Qed.

Lemma nth_error_post (pre : history) (p m : message) (post : history) (k : nat)
      (x : message) :
  nth_error (pre ++ p :: m :: post) (S (S (length pre + k))) = Some x ->
  In x post.
Proof.
  rewrite nth_error_app2 by lia.
  replace (S (S (length pre + k)) - length pre)%nat with (S (S k)) by lia.
  simpl. apply nth_error_In.
Qed.

Lemma quiet_In (h : history) (x : message) :
  existsb signals_agreement h = false -> In x h -> signals_agreement x = false.
Proof.
  intros Hq Hin.
  destruct (signals_agreement x) eqn:E; [|reflexivity].
  assert (existsb signals_agreement h = true) as Ht
      by (apply existsb_exists; exists x; auto).
  congruence.
Qed.

(** Without a signalling message among the scanned indices the loop of
    [agreement.py] runs to its end. *)
Lemma agreement_scan_quiet (h : history) (i : nat) :
  existsb signals_agreement h = false ->
  Agreement.scan h i = Ok no_agreement.
Proof.
  intros Hq. induction i as [|j IH]; cbn [Agreement.scan]; [reflexivity|].
  destruct (nth_error h (S j)) as [c|] eqn:Ec; [|exact IH].
  destruct (nth_error h j) as [q|]; [|exact IH].
  rewrite (quiet_In h c Hq (nth_error_In _ _ Ec)). exact IH.
Qed.

Lemma app_scan_quiet (h : history) (i : nat) :
  existsb signals_agreement h = false ->
  App.scan h i = (Ok no_agreement, h).
Proof.
  intros Hq. induction i as [|j IH]; cbn [App.scan]; [reflexivity|].
  destruct (nth_error h (S j)) as [c|] eqn:Ec; [|exact IH].
  destruct (nth_error h j) as [q|]; [|exact IH].
  rewrite (quiet_In h c Hq (nth_error_In _ _ Ec)). exact IH.
Qed.

Variables (pre : history) (p m : message) (post : history).
Hypothesis Hm : signals_agreement m = true.
Hypothesis Hpost : existsb signals_agreement post = false.

Let h := pre ++ p :: m :: post.

(** The iterations above the most recent signalling message fall through. *)
Lemma agreement_scan_hit (k : nat) :
  Agreement.scan h (S (length pre) + k) = Agreement.resolve p m.
Proof.
  induction k as [|k IH].
  - rewrite Nat.add_0_r. cbn [Agreement.scan].
    destruct (nth_error_mid pre p m post) as [E1 E2].
    fold h in E1, E2. rewrite E1, E2, Hm. reflexivity.
  - replace (S (length pre) + S k)%nat with (S (S (length pre) + k)) by lia.
    cbn [Agreement.scan].
    destruct (nth_error h (S (S (length pre) + k))) as [c|] eqn:Ec; [|exact IH].
    destruct (nth_error h (S (length pre) + k)) as [q|]; [|exact IH].
    assert (In c post) as Hin by (eapply nth_error_post; exact Ec).
    rewrite (quiet_In post c Hpost Hin). exact IH.
Qed.

Lemma app_scan_hit (k : nat) :
  App.scan h (S (length pre) + k) = App.resolve h (S (length pre)) p m.
Proof.
  induction k as [|k IH].
  - rewrite Nat.add_0_r. cbn [App.scan].
    destruct (nth_error_mid pre p m post) as [E1 E2].
    fold h in E1, E2. rewrite E1, E2, Hm. reflexivity.
  - replace (S (length pre) + S k)%nat with (S (S (length pre) + k)) by lia.
    cbn [App.scan].
    destruct (nth_error h (S (S (length pre) + k))) as [c|] eqn:Ec; [|exact IH].
    destruct (nth_error h (S (length pre) + k)) as [q|]; [|exact IH].
    assert (In c post) as Hin by (eapply nth_error_post; exact Ec).
    rewrite (quiet_In post c Hpost Hin). exact IH.
Qed.

Lemma length_split_mid :
  (length h - 1 = S (length pre) + length post)%nat.
Proof.
  unfold h. rewrite length_app. simpl. lia.
Qed.

Lemma agreement_validate_hit :
  Agreement.validate_agreement h = Agreement.resolve p m.
Proof.
  unfold Agreement.validate_agreement.
  rewrite length_split_mid. apply agreement_scan_hit.
Qed.

Lemma app_validate_hit :
  App.validate_agreement h = App.resolve h (S (length pre)) p m.
Proof.
  unfold App.validate_agreement.
  rewrite length_split_mid. apply app_scan_hit.
Qed.

End ScanFacts.

(** ** The writes of the backward search *)

Lemma frame_refl (m : message) : frame m m.
Proof. now left. Qed.

Lemma frame_role (m m' : message) (r : string) :
  frame m m' -> is_role r m' = is_role r m.
Proof. intros [->|(_ & e & _ & ->)]; reflexivity. Qed.

Lemma frame_content (m m' : message) : frame m m' -> content m' = content m.
Proof. intros [->|(_ & e & _ & ->)]; reflexivity. Qed.


Lemma frame_trans (a b c : message) : frame a b -> frame b c -> frame a c.
Proof.
  intros Hab Hbc.
  pose proof (frame_role a b "assistant" Hab) as Hr.
  pose proof (frame_content a b Hab) as Hc.
  destruct Hbc as [->|(Hrb & e & He & ->)]; [exact Hab|].
  right. split; [congruence|].
  exists e. split; [congruence|].
  destruct Hab as [->|(_ & e0 & _ & ->)]; reflexivity.
Qed.

Lemma frames_refl (h : history) : Forall2 frame h h.
Proof. induction h; constructor; auto using frame_refl. Qed.

Lemma frames_trans (a b c : history) :
  Forall2 frame a b -> Forall2 frame b c -> Forall2 frame a c.
Proof.
  intros Hab. revert c.
  induction Hab as [|x y a b Hxy Hab IH]; intros c Hbc; inversion Hbc; subst.
  - constructor.
  - constructor; eauto using frame_trans.
Qed.

Lemma frames_nth (h h' : history) (j : nat) :
  Forall2 frame h h' ->
  match nth_error h j with
  | Some m => exists m', nth_error h' j = Some m' /\ frame m m'
  | None => nth_error h' j = None
  end.
Proof.
  intros H. revert j.
  induction H as [|x y a b Hxy Hab IH]; intros [|j]; simpl; eauto.
  apply IH.
Qed.

Lemma set_cache_frames (h : history) (j : nat) (msg : message) (e : terms) :
  nth_error h j = Some msg ->
  is_role "assistant" msg = true ->
  extract_terms (content msg) = Ok e ->
  Forall2 frame h (App.set_cache h j e).
Proof.
  revert j. induction h as [|m h IH]; intros [|j] Hn Hr He; simpl in *;
    try discriminate.
  - injection Hn as ->. constructor; [|apply frames_refl].
    right. split; [exact Hr|]. exists e. split; [exact He|reflexivity].
  - constructor; [apply frame_refl | eapply IH; eauto].
Qed.

(** The search returns what its write-free version returns, whatever
    caches the transcript already carries, and only writes caches. *)
Lemma find_nearest_refines (idx : nat) :
  forall h0 h : history,
    Forall2 frame h0 h ->
    fst (App._find_nearest_proposal_before h idx) = nearest_proposal h0 idx /\
    Forall2 frame h0 (snd (App._find_nearest_proposal_before h idx)).
Proof.
  induction idx as [|j IH]; intros h0 h Hf; simpl.
  - split; [reflexivity | exact Hf].
  - pose proof (frames_nth h0 h j Hf) as Hn.
    destruct (nth_error h0 j) as [m0|] eqn:E0.
    + destruct Hn as (m & Em & Hfm). rewrite Em.
      rewrite (frame_role _ _ "assistant" Hfm).
      destruct (is_role "assistant" m0) eqn:Er; simpl; [|apply IH; exact Hf].
      assert (is_role "assistant" m = true) as Erm
          by (rewrite (frame_role _ _ "assistant" Hfm); exact Er).
      pose proof (frame_content _ _ Hfm) as Hc. rewrite Hc.
      destruct (extract_terms (content m0)) as [e|x] eqn:Ee; simpl; [|split; auto].
      assert (Forall2 frame h0 (App.set_cache h j e)) as Hf'
          by (eapply frames_trans; [exact Hf|];
              eapply set_cache_frames; [exact Em|exact Erm|congruence]).
      destruct (count_present e) as [|[|n]]; simpl;
        [apply IH; exact Hf' | apply IH; exact Hf' | split; auto].
    + rewrite Hn. apply IH; exact Hf.
Qed.



(** ** The fallback of [src/app.py] *)

Lemma app_resolve_fallback (h : history) (i : nat) (p m : message) (u : terms) :
  extract_terms (content m) = Ok u ->
  (count_present u < 2)%nat ->
  (is_role "assistant" p = true ->
   exists s, extract_terms (content p) = Ok s /\ (count_present s < 2)%nat) ->
  fst (App.resolve h i p m) = verdict_of_proposal (nearest_proposal h i).
Proof.
  intros Hu Hlt Hp. unfold App.resolve. rewrite Hu.
  destruct (Nat.leb_spec 2 (count_present u)) as [Hge|_]; [lia|].
  assert ((if is_role "assistant" p
           then seller <- extract_terms (content p) ;;
                Ok (if Nat.leb 2 (count_present seller) then seller else no_terms)
           else Ok no_terms) = Ok no_terms) as ->.
  { destruct (is_role "assistant" p); [|reflexivity].
    destruct (Hp eq_refl) as (s & Es & Hs). rewrite Es. unfold bind.
    destruct (Nat.leb_spec 2 (count_present s)); [lia|reflexivity]. }
  change (Nat.eqb (count_present no_terms) 0) with true. cbv iota.
  destruct (find_nearest_refines i h h (frames_refl h)) as [Hfst _].
  rewrite <- Hfst.
  destruct (App._find_nearest_proposal_before h i) as [[[[e k]|]|x] h'];
    reflexivity.
Qed.

Lemma nearest_proposal_found (h : history) (j : nat) (q : message) (e : terms) :
  nth_error h j = Some q ->
  is_role "assistant" q = true ->
  extract_terms (content q) = Ok e ->
  (2 <= count_present e)%nat ->
  forall d : nat,
    (forall k x, (j < k <= j + d)%nat -> nth_error h k = Some x ->
                 is_role "assistant" x = true ->
                 exists e', extract_terms (content x) = Ok e' /\
                            (count_present e' < 2)%nat) ->
    nearest_proposal h (S j + d) = Ok (Some (e, j)).
Proof.
  intros Hq Hr He Hc d. induction d as [|d IH]; intros Hbetween.
  - rewrite Nat.add_0_r. cbn [nearest_proposal]. rewrite Hq, Hr. cbn [negb].
    rewrite He. destruct (Nat.leb_spec 2 (count_present e)); [reflexivity|lia].
  - replace (S j + S d)%nat with (S (S j + d)) by lia.
    cbn [nearest_proposal].
    assert (nearest_proposal h (S j + d) = Ok (Some (e, j))) as IH'.
    { apply IH. intros k x Hk. apply Hbetween. lia. }
    destruct (nth_error h (S j + d)) as [x|] eqn:Ex; [|exact IH'].
    destruct (is_role "assistant" x) eqn:Erx; cbn [negb]; [|exact IH'].
    destruct (Hbetween (S j + d)%nat x ltac:(lia) Ex Erx) as (e' & Ee' & Hc').
    rewrite Ee'. destruct (Nat.leb_spec 2 (count_present e')); [lia|exact IH'].
Qed.

(** X9: With fewer than two terms in the accepting message and in a preceding
    seller message, [src/app.py] takes the terms of the nearest earlier
    seller message that carries two. *)
Lemma app_fallback_nearest (pre : history) (p m : message) (post : history)
      (u e : terms) (j d : nat) (q : message) :
  let h := pre ++ p :: m :: post in
  signals_agreement m = true ->
  existsb signals_agreement post = false ->
  extract_terms (content m) = Ok u -> (count_present u < 2)%nat ->
  (is_role "assistant" p = true ->
   exists s, extract_terms (content p) = Ok s /\ (count_present s < 2)%nat) ->
  S (length pre) = (S j + d)%nat ->
  nth_error h j = Some q -> is_role "assistant" q = true ->
  extract_terms (content q) = Ok e -> (2 <= count_present e)%nat ->
  (forall k x, (j < k <= j + d)%nat -> nth_error h k = Some x ->
               is_role "assistant" x = true ->
               exists e', extract_terms (content x) = Ok e' /\
                          (count_present e' < 2)%nat) ->
  fst (App.validate_agreement h) = Ok (verdict_of e).
Proof.
  intros h Hm Hpost Hu Hlt Hp Hidx Hq Hr He Hc Hbetween.
  subst h. rewrite (app_validate_hit pre p m post Hm Hpost).
  rewrite (app_resolve_fallback _ _ p m u Hu Hlt Hp).
  rewrite Hidx.
  rewrite (nearest_proposal_found _ j q e Hq Hr He Hc d Hbetween).
  reflexivity.
Qed.

(* ------------------------------------------------------------------ *)
(** ** The claims on the agreement detector *)

(** C3, as stated, fails: a buyer message that carries an agreement keyword
    does not prevent the verdict "incomplete, all three missing".  After a
    greeting, a bare "I agree" has no terms to resolve, in either version
    of the detector. *)
Lemma signal_without_terms_is_all_missing :
  ~ (all_three_missing (Agreement.validate_agreement bare_acceptance) <->
     existsb signals_agreement bare_acceptance = false) /\
  ~ (all_three_missing (fst (App.validate_agreement bare_acceptance)) <->
     existsb signals_agreement bare_acceptance = false).
Proof.
  split; intros [Hto _];
    (assert (existsb signals_agreement bare_acceptance = false) as Habs
        by (apply Hto; eexists; vm_compute; reflexivity));
    vm_compute in Habs; discriminate.
Qed.

(** C3, amended: both versions of the detector resolve the terms at the
    most recent buyer message that carries an agreement keyword and has a
    predecessor, whatever follows it, and a transcript in which no buyer
    message carries a keyword is incomplete with all three terms missing
    (and is left as it was). *)
Theorem detector_resolves_at_most_recent_signal
        (pre : history) (p m : message) (post quiet : history) :
  signals_agreement m = true ->
  existsb signals_agreement post = false ->
  existsb signals_agreement quiet = false ->
  Agreement.validate_agreement (pre ++ p :: m :: post) = Agreement.resolve p m /\
  App.validate_agreement (pre ++ p :: m :: post)
    = App.resolve (pre ++ p :: m :: post) (S (length pre)) p m /\
  Agreement.validate_agreement quiet = Ok no_agreement /\
  App.validate_agreement quiet = (Ok no_agreement, quiet).
Proof.
  intros Hm Hpost Hquiet. repeat split.
  - apply agreement_validate_hit; assumption.
  - apply app_validate_hit; assumption.
  - apply agreement_scan_quiet; assumption.
  - apply app_scan_quiet; assumption.
Qed.

Lemma detector_resolves_at_most_recent_signal_witness :
  Agreement.validate_agreement
    ([seller "We can offer $50 per unit with delivery in 30 days."]
       ++ seller "Shall we close?" :: buyer "I accept." :: [seller "Thank you."])
    = Agreement.resolve (seller "Shall we close?") (buyer "I accept.") /\
  App.validate_agreement
    ([seller "We can offer $50 per unit with delivery in 30 days."]
       ++ seller "Shall we close?" :: buyer "I accept." :: [seller "Thank you."])
    = App.resolve
        ([seller "We can offer $50 per unit with delivery in 30 days."]
           ++ seller "Shall we close?" :: buyer "I accept." :: [seller "Thank you."])
        2 (seller "Shall we close?") (buyer "I accept.") /\
  Agreement.validate_agreement still_negotiating = Ok no_agreement /\
  App.validate_agreement still_negotiating = (Ok no_agreement, still_negotiating).
Proof.
  apply (detector_resolves_at_most_recent_signal
           [seller "We can offer $50 per unit with delivery in 30 days."]
           (seller "Shall we close?") (buyer "I accept.")
           [seller "Thank you."] still_negotiating);
    vm_compute; reflexivity.
Defined.

(** C4: on [earlier_proposal] the accepting message and the seller message
    before it carry no terms; [src/app.py] goes back to the proposal of the
    first seller message, [agreement.py] has no such search and reports all
    three terms missing. *)
Theorem backend_detector_lacks_fallback :
  Agreement.validate_agreement earlier_proposal = Ok no_agreement /\
  fst (App.validate_agreement earlier_proposal)
    = Ok (false, ["volume"%string], mkTerms (Some (Fin 50)) (Some 30) None).
Proof. split; vm_compute; reflexivity. Qed.





(* ================================================================== *)
(** * Properties of the term extractor *)

(** ** Characters and digits *)








(** ** Greedy repetition of a character class *)

Section MatcherFacts.
Context {R : Type}.



Lemma rmatch_seq (a b : re) (c : cursor) (k : cursor -> option R) :
  rmatch (Seq a b) c k = rmatch a c (fun c' => rmatch b c' k).
Proof. reflexivity. Qed.

Lemma rmatch_chr_hit (p : ascii -> bool) (pv : option ascii) (x : ascii)
      (s : str) (g : option str) (k : cursor -> option R) :
  p x = true ->
  rmatch (Chr p) (mkCursor pv (x :: s) g) k = k (mkCursor (Some x) s g).
Proof. intros H. cbn [rmatch rest grp1]. rewrite H. reflexivity. Qed.

Lemma rmatch_chr_miss (p : ascii -> bool) (pv : option ascii) (x : ascii)
      (s : str) (g : option str) (k : cursor -> option R) :
  p x = false ->
  rmatch (Chr p) (mkCursor pv (x :: s) g) k = None.
Proof. intros H. cbn [rmatch rest grp1]. rewrite H. reflexivity. Qed.

Lemma rmatch_grp (a : re) (c : cursor) (k : cursor -> option R) :
  rmatch (Grp a) c k
  = rmatch a c (fun c' =>
      k (mkCursor (prev c') (rest c') (Some (consumed c c')))).
Proof. reflexivity. Qed.

Lemma rmatch_alt_first (a b : re) (c : cursor) (k : cursor -> option R) (v : R) :
  rmatch a c k = Some v -> rmatch (Alt a b) c k = Some v.
Proof. intros H. cbn [rmatch]. rewrite H. reflexivity. Qed.

End MatcherFacts.

Lemma firstn_consumed (a b : str) :
  firstn (length (a ++ b) - length b) (a ++ b) = a.
Proof.
  rewrite length_app.
  replace (length a + length b - length b)%nat with (length a) by lia.
  rewrite firstn_app, Nat.sub_diag, firstn_all. simpl. apply app_nil_r.
Qed.

(** ** The price pattern *)

Import Extraction.


Lemma match_price_miss (pv : option ascii) (x : ascii) (s : str) :
  eqc "$"%char x = false ->
  match_here PRICE_RE (mkCursor pv (x :: s) None) = None.
Proof.
  intros Hx. unfold match_here, PRICE_RE, Cat, Lit. cbn [prev rest].
  rewrite rmatch_seq. apply rmatch_chr_miss. exact Hx.
Qed.

(** The search passes over prose that has no dollar sign. *)
Lemma search_price_skip (prefix : str) :
  forall (skipped : str) (pv : option ascii) (s : str),
    no_dollar prefix = true ->
    search_from PRICE_RE skipped pv (prefix ++ s)
    = search_from PRICE_RE (rev prefix ++ skipped) (prev_after pv prefix) s.
Proof.
  induction prefix as [|x prefix IH]; intros skipped pv s Hno; [reflexivity|].
  simpl in Hno. apply andb_true_iff in Hno as [Hx Hno].
  apply negb_true_iff in Hx.
  cbn [app search_from]. rewrite (match_price_miss pv x _ Hx).
  rewrite IH by exact Hno. simpl. rewrite <- app_assoc. reflexivity.
Qed.


(** ** Reading the captured number *)

Lemma take_drop_run (p : ascii -> bool) (xs tail : str) :
  forallb p xs = true -> stops p tail ->
  take_while p (xs ++ tail) = xs /\ drop_while p (xs ++ tail) = tail.
Proof.
  intros Hall Hstop. induction xs as [|x xs IH]; simpl in *.
  - destruct tail as [|y tail]; simpl; [auto|]. simpl in Hstop.
    rewrite Hstop. auto.
  - apply andb_true_iff in Hall as [Hx Hall]. rewrite Hx.
    destruct (IH Hall) as [-> ->]. auto.
Qed.

Lemma digit_not_comma (c : ascii) : is_digit c = true -> eqc c ","%char = false.
Proof.
  intros H. unfold eqc.
  destruct (Ascii.eqb_spec c ","%char) as [->|]; [discriminate H|reflexivity].
Qed.

Lemma remove_commas_digits (s : str) :
  forallb is_digit s = true -> remove_commas s = s.
Proof.
  induction s as [|c s IH]; simpl; intros H; [reflexivity|].
  apply andb_true_iff in H as [Hc H].
  rewrite (digit_not_comma c Hc). simpl. now rewrite IH.
Qed.







(** ** Formatting a price in whole cents *)



Lemma to_float_finite (q : Q) :
  (q < inject_Z DBL_OVERFLOW)%Q -> to_float q = Fin (Qred q).
Proof.
  intros H. unfold to_float.
  destruct (Qle_bool (inject_Z DBL_OVERFLOW) q) eqn:E; [|reflexivity].
  apply Qle_bool_iff in E. exfalso. apply (Qlt_not_le _ _ H E).
Qed.

(** [float(s)] raises nothing but [ValueError]. *)
Lemma float_of_str_error (s : str) (e : exn) :
  float_of_str s = Raise e -> e = ValueError.
Proof.
  unfold float_of_str.
  destruct (drop_while is_digit s) as [|c fp].
  - destruct (nonempty (take_while is_digit s)); congruence.
  - destruct (_ && _ && _); congruence.
Qed.

(** X5: [extract_price] never raises: the [ValueError] of [float] is caught and
    no other exception can occur. *)
Lemma extract_price_total (text : option str) :
  exists r, extract_price text = Ok r.
Proof.
  unfold extract_price. destruct text as [[|c t]|]; eauto.
  destruct (re_search PRICE_RE (c :: t)) as [g|]; eauto.
  destruct (float_of_str _) as [f|e] eqn:E; eauto.
  rewrite (float_of_str_error _ _ E). eauto.
Qed.

(* ------------------------------------------------------------------ *)
(** ** The claims on the extractor *)




(** C7: the three extractors answer "absent" on the inputs named by the
    claim, but [extract_volume] raises on a number too large for a float:
    [float] gives infinity, [int] raises [OverflowError], and the handler
    catches [ValueError] only. *)
Theorem extract_volume_raises_on_overflow :
  extract_price (Some (txt "no numbers here")) = Ok None /\
  extract_delivery (Some (txt "")) = Ok None /\
  extract_volume None = Ok None /\
  extract_volume (Some huge_volume) = Raise OverflowError.
Proof. split; [|split; [|split]]; vm_compute; reflexivity. Qed.

(* ================================================================== *)
(** * Properties of the parameter generator *)

Lemma Qle_bool_false (a b : Q) : Qle_bool a b = false -> (b < a)%Q.
Proof.
  intros H. apply Qnot_le_lt. intros Hle.
  apply Qle_bool_iff in Hle. congruence.
Qed.

Lemma Qmax_cases (a b : Q) :
  ((a <= b)%Q /\ Qmax a b = b) \/ ((b < a)%Q /\ Qmax a b = a).
Proof.
  unfold Qmax. destruct (Qle_bool a b) eqn:E.
  - left. split; [now apply Qle_bool_iff | reflexivity].
  - right. split; [now apply Qle_bool_false | reflexivity].
Qed.

(** A reduction by a fraction between [lo] and [hi] of a positive amount. *)
Lemma reduction_bounds (x r lo hi : Q) :
  (0 <= x)%Q -> within lo hi r ->
  (x * (1 - hi) <= x * (1 - r) <= x * (1 - lo))%Q.
Proof.
  intros Hx [Hlo Hhi]. split; nra.
Qed.

Section PriceLevels.

Variable d : draws.
Hypothesis Hrange : in_range d.

Let opening_price := round2 (u_price d * 10).
Let target0 := round2 (opening_price * (1 - price_reduction_1 d)).

Lemma opening_price_range : (50 <= opening_price <= 300)%Q.
Proof.
  destruct Hrange as ((Hlo & Hhi) & _).
  apply (round2_between _ 50 300).
  change (inject_Z 50) with 50%Q. change (inject_Z 300) with 300%Q. lra.
Qed.

Lemma target0_range :
  (opening_price * (75 # 100) - (1 # 200) <= target0
   <= opening_price * (85 # 100) + (1 # 200))%Q.
Proof.
  destruct Hrange as (_ & Hr1 & _).
  pose proof opening_price_range as Ho.
  pose proof (reduction_bounds opening_price _ _ _ ltac:(lra) Hr1) as Hp.
  pose proof (round2_near (opening_price * (1 - price_reduction_1 d))) as Hn.
  fold target0 in Hn.
  split; lra.
Qed.

(** The first repair of the price never fires. *)
Lemma target0_below_gap :
  Qle_bool (opening_price - 5) target0 = false.
Proof.
  destruct (Qle_bool (opening_price - 5) target0) eqn:E; [|reflexivity].
  apply Qle_bool_iff in E.
  pose proof opening_price_range. pose proof target0_range. lra.
Qed.

Let reservation0 := round2 (target0 * (1 - price_reduction_2 d)).

Lemma reservation0_range :
  (target0 * (85 # 100) - (1 # 200) <= reservation0
   <= target0 * (90 # 100) + (1 # 200))%Q.
Proof.
  destruct Hrange as (_ & _ & Hr2 & _).
  pose proof opening_price_range as Ho. pose proof target0_range as Ht.
  pose proof (reduction_bounds target0 _ _ _ ltac:(lra) Hr2) as Hp.
  pose proof (round2_near (target0 * (1 - price_reduction_2 d))) as Hn.
  fold reservation0 in Hn.
  split; lra.
Qed.

(** The price levels of [deal_generator.py]. *)
Lemma backend_price_levels (rng : option Z -> draws) (seed : option Z) :
  rng seed = d ->
  let p := params_price (DealGenerator.generate_deal_parameters rng seed) in
  (reservation p < target p)%Q /\ (target p < opening p)%Q /\
  (opening p * (1 # 2) <= reservation p)%Q.
Proof.
  intros Hd. unfold DealGenerator.generate_deal_parameters. rewrite Hd.
  cbn [params_price opening target reservation].
  unfold DealGenerator.MIN_PRICE_DIFF, DealGenerator.RESERVATION_FLOOR.
  fold opening_price. fold target0. rewrite target0_below_gap.
  fold reservation0.
  pose proof opening_price_range as Ho. pose proof target0_range as Ht.
  pose proof reservation0_range as Hr.
  pose proof (round2_near (opening_price * (50 # 100))) as Hm.
  set (min_reservation := round2 (opening_price * (50 # 100))) in *.
  destruct (Qle_bool (target0 - 5) reservation0) eqn:E.
  - destruct (Qmax_cases (target0 - 5) min_reservation) as [[Hc ->]|[Hc ->]];
      repeat split; lra.
  - apply Qle_bool_false in E.
    destruct (Qmax_cases reservation0 min_reservation) as [[Hc ->]|[Hc ->]];
      repeat split; lra.
Qed.

(** The price levels of [src/app.py]. *)
Lemma app_price_levels (rng : option Z -> draws) (seed : option Z) :
  rng seed = d ->
  let p := params_price (App.generate_deal_parameters rng seed) in
  (reservation p < target p)%Q /\ (target p < opening p)%Q /\
  (opening p * (1 # 2) <= reservation p)%Q.
Proof.
  intros Hd. unfold App.generate_deal_parameters. rewrite Hd.
  cbn [params_price opening target reservation].
  unfold App.MIN_PRICE_DIFF, App.RESERVATION_FLOOR.
  fold opening_price. fold target0. rewrite target0_below_gap.
  fold reservation0.
  pose proof opening_price_range as Ho. pose proof target0_range as Ht.
  pose proof reservation0_range as Hr.
  pose proof (round2_near (opening_price * (50 # 100))) as Hm.
  set (min_reservation := round2 (opening_price * (50 # 100))) in *.
  destruct (Qle_bool (target0 - 5) reservation0) eqn:E.
  - pose proof (round2_near (target0 - Qmax 5 (target0 * (10 # 100)))) as Hn.
    set (repaired := round2 (target0 - Qmax 5 (target0 * (10 # 100)))) in *.
    destruct (Qmax_cases 5 (target0 * (10 # 100))) as [[Hq Eq]|[Hq Eq]];
      rewrite Eq in Hn;
      destruct (Qmax_cases repaired min_reservation) as [[Hc ->]|[Hc ->]];
      repeat split; lra.
  - apply Qle_bool_false in E.
    destruct (Qmax_cases reservation0 min_reservation) as [[Hc ->]|[Hc ->]];
      repeat split; lra.
Qed.

End PriceLevels.

Section DeliveryLevels.

Variable d : draws.
Hypothesis Hrange : in_range d.

Let opening_delivery := round_half_even (u_delivery d * 10).
Let target0 :=
  round_half_even (inject_Z opening_delivery * (1 - delivery_reduction_1 d)).

Lemma opening_delivery_range : 40 <= opening_delivery <= 100.
Proof.
  destruct Hrange as (_ & _ & _ & (Hlo & Hhi) & _).
  split.
  - apply round_half_even_ge. change (inject_Z 40) with 40%Q. lra.
  - apply round_half_even_le. change (inject_Z 100) with 100%Q. lra.
Qed.

Lemma target0_delivery_lower : 30 <= target0.
Proof.
  destruct Hrange as (_ & _ & _ & _ & (Hlo & Hhi) & _).
  pose proof opening_delivery_range as [Ho _].
  apply round_half_even_ge. change (inject_Z 30) with 30%Q.
  assert (40 <= inject_Z opening_delivery)%Q as Hq
      by (change 40%Q with (inject_Z 40); now rewrite <- Zle_Qle).
  nra.
Qed.

Lemma backend_delivery_levels (rng : option Z -> draws) (seed : option Z) :
  rng seed = d ->
  let p := params_delivery (DealGenerator.generate_deal_parameters rng seed) in
  reservation p < target p /\ target p < opening p.
Proof.
  intros Hd. unfold DealGenerator.generate_deal_parameters. rewrite Hd.
  cbn [params_delivery opening target reservation].
  unfold DealGenerator.MIN_DELIVERY_DIFF.
  fold opening_delivery. fold target0.
  destruct (Z.leb_spec (opening_delivery - 3) target0);
    match goal with |- context [?a <=? round_half_even ?x] =>
      destruct (Z.leb_spec a (round_half_even x)) end; lia.
Qed.

Lemma app_delivery_levels (rng : option Z -> draws) (seed : option Z) :
  rng seed = d ->
  let p := params_delivery (App.generate_deal_parameters rng seed) in
  reservation p < target p /\ target p < opening p.
Proof.
  intros Hd. unfold App.generate_deal_parameters. rewrite Hd.
  cbn [params_delivery opening target reservation].
  unfold App.MIN_DELIVERY_DIFF.
  fold opening_delivery. fold target0.
  pose proof opening_delivery_range as Ho.
  pose proof target0_delivery_lower as Ht.
  destruct (Z.leb_spec (opening_delivery - 3) target0);
    match goal with |- context [?a <=? round_half_even ?x] =>
      destruct (Z.leb_spec a (round_half_even x)) end; lia.
Qed.

End DeliveryLevels.

(* ------------------------------------------------------------------ *)
(** ** The claim on the generator *)

(** C2: whatever the seed, when the six draws lie in the ranges
    [random.uniform] is called with, both generators (that of
    [deal_generator.py] and that of [src/app.py]) return levels with
    reservation < target < opening for price and for delivery, and a
    reservation price of at least half the opening price. *)
Theorem generated_levels_well_ordered (rng : option Z -> draws) (seed : option Z) :
  in_range (rng seed) ->
  well_ordered (DealGenerator.generate_deal_parameters rng seed) /\
  well_ordered (App.generate_deal_parameters rng seed).
Proof.
  intros Hrange.
  destruct (backend_price_levels (rng seed) Hrange rng seed eq_refl) as (B1 & B2 & B3).
  destruct (backend_delivery_levels (rng seed) rng seed eq_refl) as (B4 & B5).
  destruct (app_price_levels (rng seed) Hrange rng seed eq_refl) as (A1 & A2 & A3).
  destruct (app_delivery_levels (rng seed) Hrange rng seed eq_refl) as (A4 & A5).
  unfold well_ordered. repeat split; try assumption; lra.
Qed.

Lemma generated_levels_well_ordered_witness :
  well_ordered (DealGenerator.generate_deal_parameters midpoint_rng (Some 42)) /\
  well_ordered (App.generate_deal_parameters midpoint_rng (Some 42)).
Proof.
  apply (generated_levels_well_ordered midpoint_rng (Some 42)).
  unfold in_range, within, midpoint_rng, Qle; simpl. lia.
Defined.

(* ================================================================== *)
(** * Properties of the evaluator *)

Import Evaluator.

(** ** Trade-off strategy *)

(** [count <= rounds * 0.5] compares twice the count with the rounds. *)
Lemma half_rounds (count rounds : nat) :
  Qle_bool (Qnat count) (Qnat rounds * (5 # 10)) = Nat.leb (2 * count) rounds.
Proof.
  unfold Qle_bool, Qnat. cbn [Qnum Qden inject_Z Qmult].
  destruct (Nat.leb_spec (2 * count) rounds);
    [apply Z.leb_le | apply Z.leb_gt]; lia.
Qed.

(** C5, as stated, fails: with five buyer messages of which three carry a
    trade-off phrase the count does not exceed the ceiling of half the
    rounds, yet the score is 90. *)
Lemma three_of_five_scores_ninety :
  ~ banded_with_ceiling five_rounds.
Proof.
  unfold banded_with_ceiling. intros H.
  assert (_score_trade_off_strategy five_rounds = 75%Q) as E.
  { apply H; vm_compute; [lia | discriminate]. }
  vm_compute in E. discriminate E.
Qed.

(** C5, amended: the score is 30 for no trade-off message, 50 for one, 75
    for a count from 2 up to half the rounds (twice the count at most the
    rounds), and 90 for every count above that. *)
Theorem trade_off_score_bands (h : history) :
  let count := trade_off_count (user_messages h) in
  let rounds := length (user_messages h) in
  _score_trade_off_strategy h
  = if Nat.eqb count 0 then 30%Q
    else if Nat.eqb count 1 then 50%Q
    else if Nat.leb (2 * count) rounds then 75%Q
    else 90%Q.
Proof.
  intros count rounds. unfold _score_trade_off_strategy, strategy_score.
  fold count. fold rounds. rewrite half_rounds.
  destruct count as [|[|n]]; reflexivity.
Qed.

(** ** The sub-scores stay on the scale *)

Lemma on_scale_Z (z : Z) : 0 <= z <= 100 -> on_scale (inject_Z z).
Proof.
  intros [H0 H1]. unfold on_scale.
  change 0%Q with (inject_Z 0). change 100%Q with (inject_Z 100).
  rewrite <- !Zle_Qle. lia.
Qed.

Lemma component_range (final target pct : Q) :
  (30 <= component final target pct <= 95)%Q.
Proof.
  unfold component.
  repeat match goal with |- context [if ?b then _ else _] => destruct b end;
    split; lra.
Qed.

Lemma deal_quality_on_scale (p : deal_params) (a : option final_terms) (q : Q) :
  _score_deal_quality p a = Ok q -> on_scale q.
Proof.
  unfold _score_deal_quality. destruct a as [t|].
  - destruct (reduction_pct _ (agreed_price t)) as [pp|]; [|discriminate].
    cbn [bind].
    destruct (agreed_price t) as [fp|]; [|discriminate].
    destruct (reduction_pct _ (agreed_delivery t)) as [dp|]; [|discriminate].
    cbn [bind].
    destruct (agreed_delivery t) as [fd|]; [|discriminate].
    intros E. injection E as <-.
    match goal with |- on_scale (round1 (?x * _ + ?y * _)) =>
      pose proof (component_range fp (target (params_price p)) pp) as Hx;
      pose proof (component_range fd (inject_Z (target (params_delivery p))) dp) as Hy
    end.
    apply (round1_between _ 0 100).
    change (inject_Z 0) with 0%Q. change (inject_Z 100) with 100%Q.
    split; lra.
  - intros E. injection E as <-. unfold on_scale. split; lra.
Qed.

Lemma Qeq_bool_false (x y : Q) : ~ (x == y)%Q -> Qeq_bool x y = false.
Proof.
  intros H. destruct (Qeq_bool x y) eqn:E; [|reflexivity].
  apply Qeq_bool_iff in E. contradiction.
Qed.

Lemma deal_quality_returns (p : deal_params) (a : option final_terms) :
  usable_params p -> usable_terms a -> exists q, _score_deal_quality p a = Ok q.
Proof.
  intros [Hp Hd] Ha. unfold _score_deal_quality. destruct a as [t|]; [|eauto].
  destruct Ha as [Hap Had].
  destruct (agreed_price t) as [fp|]; [|contradiction].
  destruct (agreed_delivery t) as [fd|]; [|contradiction].
  unfold reduction_pct.
  rewrite (Qeq_bool_false _ 0 Hp).
  rewrite (Qeq_bool_false (inject_Z (opening (params_delivery p))) 0)
    by (unfold Qeq; simpl; lia).
  cbn [bind]. eauto.
Qed.

Lemma strategy_on_scale (h : history) : on_scale (_score_trade_off_strategy h).
Proof.
  unfold _score_trade_off_strategy, strategy_score, on_scale.
  repeat match goal with |- context [if ?b then _ else _] => destruct b end;
    split; lra.
Qed.

(** Penalties only lower the score. *)
Lemma penalize_le (score : Z) (message : str) : penalize score message <= score.
Proof.
  unfold penalize. generalize (lower message) as ml. intros ml.
  generalize red_flags as flags. intros flags. revert score.
  induction flags as [|keywords flags IH]; intros score; simpl; [lia|].
  etransitivity; [apply IH|].
  clear IH. revert score.
  induction keywords as [|k keywords IH]; intros score; simpl; [lia|].
  etransitivity; [apply IH|]. destruct (contains k ml); lia.
Qed.

Lemma penalties_le (msgs : list str) (score : Z) :
  fold_left penalize msgs score <= score.
Proof.
  revert score. induction msgs as [|m msgs IH]; intros score; simpl; [lia|].
  etransitivity; [apply IH|]. apply penalize_le.
Qed.

(** Bonuses are capped at 100. *)
Lemma reward_le (score : Z) (message : str) :
  score <= 100 -> reward score message <= 100.
Proof.
  unfold reward. generalize (lower message) as ml. intros ml.
  generalize positive_indicators as inds. intros inds. revert score.
  induction inds as [|ib inds IH]; intros score Hs; simpl; [exact Hs|].
  apply IH. destruct (contains (fst ib) ml); lia.
Qed.

Lemma rewards_le (msgs : list str) (score : Z) :
  score <= 100 -> fold_left reward msgs score <= 100.
Proof.
  revert score. induction msgs as [|m msgs IH]; intros score Hs; simpl; [exact Hs|].
  apply IH, reward_le, Hs.
Qed.

Lemma professionalism_on_scale (h : history) : on_scale (_score_professionalism h).
Proof.
  unfold _score_professionalism. apply on_scale_Z.
  pose proof (penalties_le (user_messages h) 85) as Hp.
  assert (fold_left penalize (user_messages h) 85 <= 100) as Hc by lia.
  pose proof (rewards_le (user_messages h) _ Hc).
  lia.
Qed.

Lemma process_on_scale (h : history) (q : Q) :
  _score_process_management h = Ok q -> on_scale q.
Proof.
  unfold _score_process_management.
  destruct (length (user_messages h)); [discriminate|].
  intros E. injection E as <-. apply on_scale_Z. lia.
Qed.

Lemma process_returns (h : history) :
  user_messages h <> [] -> exists q, _score_process_management h = Ok q.
Proof.
  intros Hne. unfold _score_process_management.
  destruct (user_messages h) as [|m msgs]; [contradiction|].
  cbn [length]. eauto.
Qed.

Lemma creativity_on_scale (h : history) :
  on_scale (_score_creativity_adaptability h).
Proof.
  unfold _score_creativity_adaptability.
  destruct (Nat.ltb _ 2); [unfold on_scale; split; lra|].
  destruct (length (filter _ _)); [unfold on_scale; split; lra|].
  apply on_scale_Z.
  repeat match goal with |- context [if ?b then _ else _] => destruct b end; lia.
Qed.

Lemma overall_on_scale (dq st pr pm cr : Q) :
  on_scale dq -> on_scale st -> on_scale pr -> on_scale pm -> on_scale cr ->
  on_scale (_calculate_overall_score dq st pr pm cr).
Proof.
  unfold on_scale, _calculate_overall_score. intros.
  apply (round1_between _ 0 100).
  change (inject_Z 0) with 0%Q. change (inject_Z 100) with 100%Q.
  split; lra.
Qed.

Lemma score_to_grade_letter (score : Q) : _score_to_grade score = letter_of score.
Proof.
  unfold _score_to_grade, letter_of, GRADE_THRESHOLDS, first_grade.
  repeat match goal with |- context [if ?b then _ else _] => destruct b end;
    reflexivity.
Qed.

(** With at least one buyer message the evaluation returns, bounded and
    graded by the thresholds. *)
Lemma evaluate_bounded (h : history) (p : deal_params) (a : option final_terms) :
  user_messages h <> [] -> usable_params p -> usable_terms a ->
  exists r, evaluate h p a = Ok r /\ bounded_and_graded r.
Proof.
  intros Hh Hp Ha.
  destruct (deal_quality_returns p a Hp Ha) as [dq Edq].
  destruct (process_returns h Hh) as [pm Epm].
  unfold evaluate. rewrite Edq, Epm. cbn [bind].
  eexists; split; [reflexivity|].
  pose proof (deal_quality_on_scale _ _ _ Edq).
  pose proof (process_on_scale _ _ Epm).
  pose proof (strategy_on_scale h). pose proof (professionalism_on_scale h).
  pose proof (creativity_on_scale h).
  unfold bounded_and_graded.
  cbn [deal_quality trade_off_strategy professionalism process_management
       creativity_adaptability overall_score overall_grade].
  repeat split; try (apply overall_on_scale; assumption);
    try match goal with H : on_scale ?x |- _ => apply H end.
  apply score_to_grade_letter.
Qed.

(** Without a buyer message the evaluation raises. *)
Lemma evaluate_without_buyer_raises (h : history) (p : deal_params)
      (a : option final_terms) :
  user_messages h = [] -> exists e, evaluate h p a = Raise e.
Proof.
  intros Hh. unfold evaluate.
  destruct (_score_deal_quality p a) as [dq|e]; cbn [bind]; [|eauto].
  unfold _score_process_management. rewrite Hh. cbn [length bind]. eauto.
Qed.

(* ------------------------------------------------------------------ *)
(** ** The claim on the evaluator *)

(** C1: on a transcript without buyer messages [evaluate] returns nothing:
    the mean message length of [_score_process_management] divides by the
    number of buyer messages and raises [ZeroDivisionError], with agreed
    terms or without.  With empty agreed terms and a buyer message the
    Deal Quality score is 0 and the report is bounded. *)
Theorem evaluate_raises_without_buyer_messages :
  evaluate greeting_only sample_params (Some sample_agreed)
    = Raise ZeroDivisionError /\
  evaluate [] sample_params None = Raise ZeroDivisionError /\
  _score_deal_quality sample_params None = Ok 0%Q /\
  exists r, evaluate sample_history sample_params None = Ok r /\
            bounded_and_graded r.
Proof.
  split; [vm_compute; reflexivity|].
  split; [vm_compute; reflexivity|].
  split; [reflexivity|].
  apply evaluate_bounded.
  - discriminate.
  - split; [discriminate | discriminate].
  - exact I.
Qed.

(* ================================================================== *)
(** * Properties of the response post-processor *)


Example protection_at_work :
  App.enforce_concise_response
    (txt "Mr. Smith paid $15.50 today. It was fine! Was it? Yes. No.") 3
  = txt "Mr. Smith paid $15.50 today. It was fine! Was it?".
Proof. vm_compute. reflexivity. Qed.

(* ------------------------------------------------------------------ *)
(** ** The claim on the post-processor *)


(* ================================================================== *)
(** * Further properties of the term extractor *)

(** ** Text that cannot match *)

Lemma search_price_nothing (skipped : str) (pv : option ascii) :
  search_from PRICE_RE skipped pv [] = None.
Proof. reflexivity. Qed.

(** X1: An unmarked number is never taken for a price: without a dollar sign
    [extract_price] answers "absent". *)
Theorem extract_price_needs_dollar (text : str) :
  no_dollar text = true -> extract_price (Some text) = Ok None.
Proof.
  intros Hno. unfold extract_price.
  destruct text as [|c t]; [reflexivity|].
  unfold re_search.
  rewrite <- (app_nil_r (c :: t)).
  rewrite (search_price_skip (c :: t) [] None [] Hno).
  rewrite search_price_nothing. reflexivity.
Qed.

Lemma extract_price_needs_dollar_witness :
  extract_price (Some (txt "we can pay 45 per unit in 30 days")) = Ok None.
Proof.
  apply (extract_price_needs_dollar (txt "we can pay 45 per unit in 30 days")).
  reflexivity.
Defined.

Lemma lower_char_digit (c : ascii) : is_digit (lower_char c) = is_digit c.
Proof. destruct c as [[] [] [] [] [] [] [] []]; reflexivity. Qed.


Lemma lower_no_digit (s : str) : no_digit (lower s) = no_digit s.
Proof.
  induction s as [|c s IH]; [reflexivity|].
  cbn [lower map no_digit forallb]. rewrite lower_char_digit.
  f_equal. exact IH.
Qed.

(** A pattern that has to read a digit first finds nothing in text without
    digits. *)
Section DigitFirst.

Variable r : re.
Hypothesis Hempty : forall pv, match_here r (mkCursor pv [] None) = None.
Hypothesis Hhead :
  forall pv x s, is_digit x = false -> match_here r (mkCursor pv (x :: s) None) = None.

Lemma search_needs_digit (s : str) :
  forall skipped pv,
    no_digit s = true -> search_from r skipped pv s = None.
Proof.
  induction s as [|x s IH]; intros skipped pv Hno.
  - cbn [search_from]. now rewrite Hempty.
  - cbn [no_digit forallb] in Hno. apply andb_true_iff in Hno as [Hx Hs].
    apply negb_true_iff in Hx.
    cbn [search_from]. rewrite (Hhead pv x s Hx). apply IH, Hs.
Qed.

Lemma re_search_needs_digit (s : str) :
  no_digit s = true -> re_search r s = None.
Proof.
  intros Hno. unfold re_search. now rewrite search_needs_digit.
Qed.

End DigitFirst.

Ltac digit_first :=
  intros; unfold match_here; cbn [prev rest];
  cbv [DELIVERY_RE THOUSAND_RE UNITS_RE BARE_RE NUMBER GROUPED Cat Plus Opt
       digit space];
  cbn [rmatch rest];
  repeat match goal with H : is_digit _ = false |- _ => rewrite H end;
  reflexivity.

Lemma delivery_digit_first :
  (forall pv, match_here DELIVERY_RE (mkCursor pv [] None) = None) /\
  (forall pv x s, is_digit x = false ->
                  match_here DELIVERY_RE (mkCursor pv (x :: s) None) = None).
Proof. split; digit_first. Qed.

Lemma thousand_digit_first :
  (forall pv, match_here THOUSAND_RE (mkCursor pv [] None) = None) /\
  (forall pv x s, is_digit x = false ->
                  match_here THOUSAND_RE (mkCursor pv (x :: s) None) = None).
Proof. split; digit_first. Qed.

Lemma units_digit_first :
  (forall pv, match_here UNITS_RE (mkCursor pv [] None) = None) /\
  (forall pv x s, is_digit x = false ->
                  match_here UNITS_RE (mkCursor pv (x :: s) None) = None).
Proof. split; digit_first. Qed.

Lemma bare_digit_first :
  (forall pv, match_here BARE_RE (mkCursor pv [] None) = None) /\
  (forall pv x s, is_digit x = false ->
                  match_here BARE_RE (mkCursor pv (x :: s) None) = None).
Proof. split; digit_first. Qed.

(** X2: Without a digit in the text there is no delivery time and no volume,
    whatever keywords the text carries, and nothing is raised. *)
Theorem no_digit_no_delivery_no_volume (text : str) :
  no_digit text = true ->
  extract_delivery (Some text) = Ok None /\ extract_volume (Some text) = Ok None.
Proof.
  intros Hno.
  assert (no_digit (lower text) = true) as Hl by (now rewrite lower_no_digit).
  destruct delivery_digit_first as [D1 D2].
  destruct thousand_digit_first as [T1 T2].
  destruct units_digit_first as [U1 U2].
  destruct bare_digit_first as [B1 B2].
  unfold extract_delivery, extract_volume.
  destruct text as [|c t]; [split; reflexivity|].
  rewrite (re_search_needs_digit _ D1 D2 _ Hl).
  rewrite (re_search_needs_digit _ T1 T2 _ Hl).
  rewrite (re_search_needs_digit _ U1 U2 _ Hl).
  rewrite (re_search_needs_digit _ B1 B2 _ Hl).
  split; [reflexivity|]. destruct (any_in _ _); reflexivity.
Qed.

Lemma no_digit_no_delivery_no_volume_witness :
  extract_delivery (Some (txt "a large order of units within days")) = Ok None /\
  extract_volume (Some (txt "a large order of units within days")) = Ok None.
Proof.
  apply (no_digit_no_delivery_no_volume (txt "a large order of units within days")).
  reflexivity.
Defined.

(** ** Reading back a delivery time *)

Lemma lower_char_of_digit (c : ascii) : is_digit c = true -> lower_char c = c.
Proof.
  destruct c as [[] [] [] [] [] [] [] []]; intros H;
    try reflexivity; discriminate H.
Qed.



Lemma lower_app (a b : str) : lower (a ++ b) = lower a ++ lower b.
Proof. apply map_app. Qed.



Lemma starts_with_exact (p s : str) :
  starts_with p s = true -> exists s', s = p ++ s'.
Proof.
  revert s. induction p as [|a p IH]; intros s H; [now exists s|].
  destruct s as [|b s]; [discriminate H|].
  cbn [starts_with] in H. apply andb_true_iff in H as [Hab H].
  apply Ascii.eqb_eq in Hab. subst b.
  destruct (IH s H) as [s' ->]. now exists s'.
Qed.




(** ** Where a match cannot get through *)

(** The matcher hands its continuation only positions further on in the
    input: when the continuation refuses every position of a class of
    inputs that is closed under dropping the first character, so does the
    match. *)
Section Unmatched.
Context {R : Type}.
Variable P : str -> Prop.
Hypothesis P_tail : forall x s, P (x :: s) -> P s.

Lemma star_loop_unmatched (body : cursor -> (cursor -> option R) -> option R)
      (k : cursor -> option R) :
  (forall c k', P (rest c) -> (forall c', P (rest c') -> k' c' = None) ->
                body c k' = None) ->
  (forall c', P (rest c') -> k c' = None) ->
  forall fuel c, P (rest c) -> star_loop body k fuel c = None.
Proof.
  intros Hbody Hk. induction fuel as [|fuel IH]; intros c Hc.
  - cbn [star_loop]. apply Hk, Hc.
  - cbn [star_loop]. rewrite Hbody.
    + apply Hk, Hc.
    + exact Hc.
    + intros c' Hc'. destruct (Nat.ltb _ _); [apply IH, Hc'|reflexivity].
Qed.

Lemma rmatch_unmatched (r : re) :
  forall (c : cursor) (k : cursor -> option R),
    P (rest c) -> (forall c', P (rest c') -> k c' = None) ->
    rmatch r c k = None.
Proof.
  induction r as [|p|a IHa b IHb|a IHa b IHb|a IHa|a IHa| |p];
    intros c k Hc Hk; cbn [rmatch].
  - apply Hk, Hc.
  - destruct (rest c) as [|x s] eqn:E; [reflexivity|].
    destruct (p x); [|reflexivity].
    apply Hk. cbn [rest]. apply (P_tail x). exact Hc.
  - apply IHa; [exact Hc|]. intros c' Hc'. apply IHb; assumption.
  - rewrite IHa by assumption. apply IHb; assumption.
  - apply star_loop_unmatched; assumption.
  - apply IHa; [exact Hc|]. intros c' Hc'. apply Hk. exact Hc'.
  - destruct (xorb _ _); [apply Hk, Hc|reflexivity].
  - destruct (prev c) as [x|]; [|reflexivity].
    destruct (p x); [apply Hk, Hc|reflexivity].
Qed.

End Unmatched.

Lemma no_digit_tail (x : ascii) (s : str) :
  no_digit (x :: s) = true -> no_digit s = true.
Proof.
  cbn [no_digit forallb]. intros H. now apply andb_true_iff in H as [_ H].
Qed.

(** The price pattern needs a digit after the dollar sign. *)
Lemma match_price_needs_digit (pv : option ascii) (s : str) :
  no_digit s = true -> match_here PRICE_RE (mkCursor pv s None) = None.
Proof.
  intros Hs. unfold match_here, PRICE_RE. cbn [Cat prev rest].
  rewrite rmatch_seq.
  apply (rmatch_unmatched (fun s => no_digit s = true) no_digit_tail);
    [exact Hs|].
  intros c1 Hc1. rewrite rmatch_seq.
  apply (rmatch_unmatched (fun s => no_digit s = true) no_digit_tail);
    [exact Hc1|].
  intros c2 Hc2. rewrite rmatch_grp, rmatch_seq. unfold digit.
  destruct c2 as [pv2 [|x s2] g2]; [reflexivity|].
  cbn [rest no_digit forallb] in Hc2. apply andb_true_iff in Hc2 as [Hx _].
  apply negb_true_iff in Hx. now apply rmatch_chr_miss.
Qed.

Lemma search_price_needs_digit (s : str) :
  forall skipped pv,
    no_digit s = true -> search_from PRICE_RE skipped pv s = None.
Proof.
  induction s as [|x s IH]; intros skipped pv Hno.
  - reflexivity.
  - cbn [search_from]. rewrite (match_price_needs_digit pv (x :: s) Hno).
    apply IH. exact (no_digit_tail x s Hno).
Qed.

Lemma extract_price_without_digit (text : str) :
  no_digit text = true -> extract_price (Some text) = Ok None.
Proof.
  intros Hno. unfold extract_price.
  destruct text as [|c t]; [reflexivity|].
  unfold re_search. now rewrite search_price_needs_digit.
Qed.

Lemma extract_delivery_without_digit (text : str) :
  no_digit text = true -> extract_delivery (Some text) = Ok None.
Proof.
  intros Hno.
  assert (no_digit (lower text) = true) as Hl by (now rewrite lower_no_digit).
  destruct delivery_digit_first as [D1 D2].
  unfold extract_delivery.
  destruct text as [|c t]; [reflexivity|].
  now rewrite (re_search_needs_digit _ D1 D2 _ Hl).
Qed.

(** ** The fallback of the volume *)

Section SkipProse.

Variable r : re.
Hypothesis Hhead :
  forall pv x s, is_digit x = false -> match_here r (mkCursor pv (x :: s) None) = None.

Lemma search_skips_prose (prefix : str) :
  forall (skipped : str) (pv : option ascii) (s : str),
    no_digit prefix = true ->
    search_from r skipped pv (prefix ++ s)
    = search_from r (rev prefix ++ skipped) (prev_after pv prefix) s.
Proof.
  induction prefix as [|x prefix IH]; intros skipped pv s Hno; [reflexivity|].
  cbn [no_digit forallb] in Hno. apply andb_true_iff in Hno as [Hx Hno].
  apply negb_true_iff in Hx.
  cbn [app search_from]. rewrite (Hhead pv x _ Hx).
  rewrite IH by exact Hno. simpl. rewrite <- app_assoc. reflexivity.
Qed.

End SkipProse.

Lemma digit_is_no_comma (c : ascii) : is_digit c = true -> eqc ","%char c = false.
Proof.
  intros H. unfold eqc.
  destruct (Ascii.eqb_spec ","%char c) as [<-|]; [discriminate H|reflexivity].
Qed.

(** At a run of four digits or more the bare pattern takes its first
    alternative, one to three digits, and stops after the third. *)
Lemma match_bare_three (pv : option ascii) (d1 d2 d3 d4 : ascii) (more : str) :
  is_digit d1 = true -> is_digit d2 = true -> is_digit d3 = true ->
  is_digit d4 = true ->
  match_here BARE_RE (mkCursor pv (d1 :: d2 :: d3 :: d4 :: more) None)
  = Some (mkCursor (Some d3) (d4 :: more) (Some [d1; d2; d3])).
Proof.
  intros H1 H2 H3 H4.
  unfold match_here, BARE_RE, GROUPED, Cat, Opt, Plus, Lit, digit.
  cbn [prev rest].
  rewrite rmatch_grp. apply rmatch_alt_first.
  rewrite rmatch_seq, rmatch_seq, rmatch_chr_hit by exact H1.
  apply rmatch_alt_first.
  rewrite rmatch_seq, rmatch_chr_hit by exact H2.
  apply rmatch_alt_first.
  rewrite rmatch_chr_hit by exact H3.
  cbn [rmatch rest length star_loop grp1].
  rewrite (digit_is_no_comma d4 H4).
  cbn [prev rest]. unfold consumed. cbn [rest].
  change (d1 :: d2 :: d3 :: d4 :: more) with ([d1; d2; d3] ++ d4 :: more).
  now rewrite firstn_consumed.
Qed.

Lemma digit_val_range (c : ascii) : is_digit c = true -> 0 <= digit_val c <= 9.
Proof.
  unfold is_digit, digit_val. generalize (code c) as n. intros n H.
  apply andb_true_iff in H as [Hlo Hhi].
  apply N.leb_le in Hlo. apply N.leb_le in Hhi. lia.
Qed.

(** [int(float(s))] of a short string of digits is its value. *)
Lemma int_float_or_none_digits (ds : str) :
  ds <> [] -> forallb is_digit ds = true ->
  0 <= digits_val ds < DBL_OVERFLOW ->
  int_float_or_none (remove_commas ds) 1 = Ok (Some (digits_val ds)).
Proof.
  intros Hne Hall [Hlo Hhi]. unfold int_float_or_none.
  rewrite (remove_commas_digits ds Hall). unfold float_of_str.
  destruct (take_drop_run is_digit ds [] Hall I) as [Et Ed].
  rewrite app_nil_r in Et, Ed. rewrite Et, Ed.
  assert (nonempty ds = true) as -> by (destruct ds; [contradiction|reflexivity]).
  set (v := digits_val ds) in *.
  assert (inject_Z v < inject_Z DBL_OVERFLOW)%Q as Hq by (now rewrite <- Zlt_Qlt).
  rewrite (to_float_finite _ Hq). cbn [fmul].
  assert (Qred (inject_Z v) * 1 == inject_Z v)%Q as E1
      by (rewrite Qred_correct; ring).
  rewrite to_float_finite by (rewrite E1; exact Hq).
  cbn [int_of_float].
  assert (Qred (Qred (inject_Z v) * 1) == inject_Z v)%Q as E2
      by (rewrite Qred_correct; exact E1).
  assert (Qle_bool 0 (Qred (Qred (inject_Z v) * 1)) = true) as ->.
  { apply Qle_bool_iff. rewrite E2. change 0%Q with (inject_Z 0).
    now rewrite <- Zle_Qle. }
  rewrite (Qfloor_comp _ _ E2), Qfloor_Z. reflexivity.
Qed.

(** X4: In the fallback of [extract_volume], a number of four digits or more
    written without commas is cut after its third digit: when neither the
    thousands pattern nor the units pattern matches and the text carries a
    volume keyword, the volume is the number formed by the first three
    digits of the first number in the text. *)
Theorem extract_volume_fallback_cuts_after_three_digits
        (prefix : str) (d1 d2 d3 d4 : ascii) (more : str) :
  let text := prefix ++ d1 :: d2 :: d3 :: d4 :: more in
  no_digit prefix = true ->
  is_digit d1 = true -> is_digit d2 = true -> is_digit d3 = true ->
  is_digit d4 = true ->
  re_search THOUSAND_RE (lower text) = None ->
  re_search UNITS_RE (lower text) = None ->
  any_in volume_keywords (lower text) = true ->
  extract_volume (Some text) = Ok (Some (digits_val [d1; d2; d3])).
Proof.
  intros text Hp H1 H2 H3 H4 Hthousand Hunits Hkeyword.
  unfold extract_volume.
  assert (exists c t, text = c :: t) as (c & t & Et).
  { unfold text. destruct prefix; cbn [app]; eauto. }
  rewrite Et. rewrite <- Et.
  rewrite Hthousand, Hunits, Hkeyword.
  assert (re_search BARE_RE (lower text) = Some [d1; d2; d3]) as ->.
  { unfold text. rewrite lower_app. cbn [lower map].
    rewrite !lower_char_of_digit by assumption.
    destruct bare_digit_first as [_ Hhead].
    unfold re_search.
    rewrite (search_skips_prose BARE_RE Hhead)
      by (now rewrite lower_no_digit).
    cbn [search_from]. rewrite match_bare_three by assumption.
    reflexivity. }
  apply int_float_or_none_digits.
  - discriminate.
  - cbn [forallb]. now rewrite H1, H2, H3.
  - pose proof (digit_val_range d1 H1). pose proof (digit_val_range d2 H2).
    pose proof (digit_val_range d3 H3).
    assert (digits_val [d1; d2; d3]
            = 100 * digit_val d1 + 10 * digit_val d2 + digit_val d3) as ->
        by (unfold digits_val; cbn [fold_left]; lia).
    split; [lia|].
    apply (Z.le_lt_trans _ 999); [lia|reflexivity].
Qed.

Lemma extract_volume_fallback_cuts_after_three_digits_witness :
  extract_volume (Some (txt "I would like to order 15000 of them"))
  = Ok (Some 150).
Proof.
  apply (extract_volume_fallback_cuts_after_three_digits
           (txt "I would like to order ") "1" "5" "0" "0" (txt "0 of them"));
    reflexivity.
Defined.

(* ================================================================== *)
(** * Further properties of the agreement detector *)

(** ** What a verdict looks like *)

Lemma no_agreement_verdict : no_agreement = verdict_of no_terms.
Proof. reflexivity. Qed.

Lemma agreement_resolve_verdict (p m : message) (v : verdict) :
  Agreement.resolve p m = Ok v -> exists t, v = verdict_of t.
Proof.
  unfold Agreement.resolve.
  destruct (extract_terms (content m)) as [u|]; [|discriminate]. cbn [bind].
  destruct (Nat.leb 2 (count_present u)); [intros [= <-]; eauto|].
  destruct (is_role "assistant" p); [|intros [= <-]; eauto].
  destruct (extract_terms (content p)) as [s|]; [|discriminate]. cbn [bind].
  destruct (Nat.leb 2 (count_present s)); intros [= <-]; eauto.
Qed.

Lemma app_resolve_verdict (h : history) (i : nat) (p m : message) (v : verdict) :
  fst (App.resolve h i p m) = Ok v -> exists t, v = verdict_of t.
Proof.
  unfold App.resolve.
  destruct (extract_terms (content m)) as [u|]; [|discriminate].
  destruct (Nat.leb 2 (count_present u)); [intros [= <-]; eauto|].
  match goal with |- context [match ?fp with Ok _ => _ | Raise _ => _ end] =>
    destruct fp as [agreed|] end; [|discriminate].
  destruct (Nat.eqb (count_present agreed) 0); [|intros [= <-]; eauto].
  destruct (App._find_nearest_proposal_before h i) as [[[[e k]|]|x] h'];
    cbn [fst]; try discriminate; intros [= <-]; eauto.
Qed.

Lemma agreement_scan_verdict (h : history) (i : nat) (v : verdict) :
  Agreement.scan h i = Ok v -> exists t, v = verdict_of t.
Proof.
  induction i as [|j IH]; cbn [Agreement.scan].
  - intros [= <-]. exists no_terms. reflexivity.
  - destruct (nth_error h (S j)) as [c|]; [|exact IH].
    destruct (nth_error h j) as [q|]; [|exact IH].
    destruct (signals_agreement c); [apply agreement_resolve_verdict | exact IH].
Qed.

Lemma app_scan_verdict (h : history) (i : nat) (v : verdict) :
  fst (App.scan h i) = Ok v -> exists t, v = verdict_of t.
Proof.
  induction i as [|j IH]; cbn [App.scan].
  - intros [= <-]. exists no_terms. reflexivity.
  - destruct (nth_error h (S j)) as [c|]; [|exact IH].
    destruct (nth_error h j) as [q|]; [|exact IH].
    destruct (signals_agreement c); [apply app_resolve_verdict | exact IH].
Qed.

Lemma verdict_of_shape (t : terms) (valid : bool) (missing : list string)
      (t' : terms) :
  verdict_of t = (valid, missing, t') ->
  t' = t /\ missing = missing_of t /\
  (valid = true <-> missing = []) /\
  (valid = true <->
   present (price t) && present (delivery t) && present (volume t) = true).
Proof.
  unfold verdict_of. intros [= <- <- <-].
  split; [reflexivity|]. split; [reflexivity|].
  unfold missing_of.
  destruct (present (price t)), (present (delivery t)), (present (volume t));
    simpl; repeat split; intros; try reflexivity; discriminate.
Qed.

(** X6: In both versions, whenever a verdict is returned, the list of missing
    terms names exactly the absent terms, and the agreement is valid
    exactly when nothing is missing, that is when price, delivery and
    volume are all present. *)
Theorem verdict_is_consistent (h : history) (valid : bool)
        (missing : list string) (t : terms) :
  Agreement.validate_agreement h = Ok (valid, missing, t) \/
  fst (App.validate_agreement h) = Ok (valid, missing, t) ->
  missing = missing_of t /\
  (valid = true <-> missing = []) /\
  (valid = true <->
   present (price t) && present (delivery t) && present (volume t) = true).
Proof.
  intros [H|H].
  - destruct (agreement_scan_verdict _ _ _ H) as [t0 E].
    symmetry in E. destruct (verdict_of_shape _ _ _ _ E) as (-> & Hm & Hv).
    split; [exact Hm | exact Hv].
  - destruct (app_scan_verdict _ _ _ H) as [t0 E].
    symmetry in E. destruct (verdict_of_shape _ _ _ _ E) as (-> & Hm & Hv).
    split; [exact Hm | exact Hv].
Qed.

Lemma verdict_is_consistent_witness :
  ["volume"%string] = missing_of (mkTerms (Some (Fin 50)) (Some 30) None) /\
  (false = true <-> ["volume"%string] = []) /\
  (false = true <->
   present (price (mkTerms (Some (Fin 50)) (Some 30) None))
   && present (delivery (mkTerms (Some (Fin 50)) (Some 30) None))
   && present (volume (mkTerms (Some (Fin 50)) (Some 30) None)) = true).
Proof.
  apply (verdict_is_consistent earlier_proposal).
  right. vm_compute. reflexivity.
Defined.

(** ** The first message *)

Lemma agreement_scan_tail_quiet (m : message) (rest : history) (i : nat) :
  existsb signals_agreement rest = false ->
  Agreement.scan (m :: rest) i = Ok no_agreement.
Proof.
  intros Hq. induction i as [|j IH]; cbn [Agreement.scan]; [reflexivity|].
  destruct (nth_error (m :: rest) (S j)) as [c|] eqn:Ec; [|exact IH].
  destruct (nth_error (m :: rest) j) as [q|]; [|exact IH].
  cbn [nth_error] in Ec.
  rewrite (quiet_In rest c Hq (nth_error_In _ _ Ec)). exact IH.
Qed.

Lemma app_scan_tail_quiet (m : message) (rest : history) (i : nat) :
  existsb signals_agreement rest = false ->
  App.scan (m :: rest) i = (Ok no_agreement, m :: rest).
Proof.
  intros Hq. induction i as [|j IH]; cbn [App.scan]; [reflexivity|].
  destruct (nth_error (m :: rest) (S j)) as [c|] eqn:Ec; [|exact IH].
  destruct (nth_error (m :: rest) j) as [q|]; [|exact IH].
  cbn [nth_error] in Ec.
  rewrite (quiet_In rest c Hq (nth_error_In _ _ Ec)). exact IH.
Qed.

(** X7: The first message of a transcript is never read as an acceptance: when
    no later message signals agreement, both versions report no agreement,
    whatever the first message says, and leave the transcript alone. *)
Theorem first_message_is_never_an_acceptance (m : message) (rest : history) :
  existsb signals_agreement rest = false ->
  Agreement.validate_agreement (m :: rest) = Ok no_agreement /\
  App.validate_agreement (m :: rest) = (Ok no_agreement, m :: rest).
Proof.
  intros Hq. split.
  - apply agreement_scan_tail_quiet, Hq.
  - apply app_scan_tail_quiet, Hq.
Qed.

Lemma first_message_is_never_an_acceptance_witness :
  Agreement.validate_agreement
    [buyer "I agree to $45 per unit, 40 days, 20000 units"] = Ok no_agreement /\
  App.validate_agreement
    [buyer "I agree to $45 per unit, 40 days, 20000 units"]
  = (Ok no_agreement, [buyer "I agree to $45 per unit, 40 days, 20000 units"]).
Proof.
  apply (first_message_is_never_an_acceptance
           (buyer "I agree to $45 per unit, 40 days, 20000 units") []).
  reflexivity.
Defined.

(** ** The two versions side by side *)

Lemma resolve_versions_agree (h : history) (i : nat) (p m : message) :
  match Agreement.resolve p m with
  | Raise e => App.resolve h i p m = (Raise e, h)
  | Ok v => count_present (snd v) <> 0%nat -> App.resolve h i p m = (Ok v, h)
  end.
Proof.
  unfold Agreement.resolve, App.resolve.
  destruct (extract_terms (content m)) as [u|e]; [|reflexivity]. cbn [bind].
  destruct (Nat.leb 2 (count_present u)); [reflexivity|].
  destruct (is_role "assistant" p).
  - destruct (extract_terms (content p)) as [s|e]; [|reflexivity]. cbn [bind].
    destruct (Nat.leb_spec 2 (count_present s)) as [Hs|Hs].
    + intros _. destruct (Nat.eqb_spec (count_present s) 0); [lia|reflexivity].
    + intros Hc. exfalso. apply Hc. reflexivity.
  - intros Hc. exfalso. apply Hc. reflexivity.
Qed.

Lemma scan_versions_agree (h : history) (i : nat) :
  match Agreement.scan h i with
  | Raise e => App.scan h i = (Raise e, h)
  | Ok v => count_present (snd v) <> 0%nat -> App.scan h i = (Ok v, h)
  end.
Proof.
  induction i as [|j IH]; cbn [Agreement.scan App.scan].
  - intros Hc. exfalso. apply Hc. reflexivity.
  - destruct (nth_error h (S j)) as [c|]; [|exact IH].
    destruct (nth_error h j) as [q|]; [|exact IH].
    destruct (signals_agreement c); [apply resolve_versions_agree | exact IH].
Qed.

(** X8: The detector of [src/app.py] differs from that of [agreement.py] only
    where the latter finds no term at all: whenever [agreement.py] returns
    a verdict with at least one term, [src/app.py] returns the same verdict
    and writes nothing; and whenever [agreement.py] raises, [src/app.py]
    raises the same exception and has written no cache by then. *)
Theorem versions_agree_where_terms_are_found
        (h : history) (v : verdict) (e : exn) :
  (Agreement.validate_agreement h = Ok v ->
   count_present (snd v) <> 0%nat ->
   App.validate_agreement h = (Ok v, h)) /\
  (Agreement.validate_agreement h = Raise e ->
   App.validate_agreement h = (Raise e, h)).
Proof.
  pose proof (scan_versions_agree h (length h - 1)) as H.
  unfold Agreement.validate_agreement. split.
  - intros Hv Hc. rewrite Hv in H. exact (H Hc).
  - intros Hv. rewrite Hv in H. exact H.
Qed.

Lemma versions_agree_where_terms_are_found_witness :
  App.validate_agreement zero_terms
  = (Ok (false, ["volume"%string], mkTerms (Some (Fin 0)) (Some 0) None),
     zero_terms) /\
  App.validate_agreement huge_acceptance = (Raise OverflowError, huge_acceptance).
Proof.
  split.
  - apply (proj1 (versions_agree_where_terms_are_found
                    zero_terms _ OverflowError)).
    + vm_compute. reflexivity.
    + discriminate.
  - apply (proj2 (versions_agree_where_terms_are_found
                    huge_acceptance no_agreement OverflowError)).
    vm_compute. reflexivity.
Defined.

Lemma app_fallback_nearest_witness :
  fst (App.validate_agreement earlier_proposal)
  = Ok (verdict_of (mkTerms (Some (Fin 50)) (Some 30) None)).
Proof.
  apply (app_fallback_nearest
           [ seller "We can offer $50 per unit with delivery in 30 days.";
             buyer "Let me think about it." ]
           (seller "Take your time.") (buyer "I accept.") []
           no_terms (mkTerms (Some (Fin 50)) (Some 30) None) 0 2
           (seller "We can offer $50 per unit with delivery in 30 days.")).
  - reflexivity.
  - reflexivity.
  - vm_compute. reflexivity.
  - vm_compute. lia.
  - intros _. exists no_terms. split; [vm_compute; reflexivity | vm_compute; lia].
  - reflexivity.
  - reflexivity.
  - reflexivity.
  - vm_compute. reflexivity.
  - vm_compute. lia.
  - intros k x Hk. destruct k as [|[|[|k]]]; try lia; cbn [nth_error app].
    + intros [= <-]. discriminate.
    + intros [= <-] _. exists no_terms.
      split; [vm_compute; reflexivity | vm_compute; lia].
Defined.

(* ================================================================== *)
(** * The conversation state and the detector *)

Lemma any_in_mono (small large : list str) (s : str) :
  incl small large -> any_in small s = true -> any_in large s = true.
Proof.
  intros Hincl H. unfold any_in in *.
  apply existsb_exists in H as (k & Hk & Hc).
  apply existsb_exists. exists k. split; [apply Hincl, Hk | exact Hc].
Qed.

Lemma app_closing_keywords_known : incl App.closing_keywords agreement_keywords.
Proof.
  intros k Hk. unfold App.closing_keywords in Hk. unfold agreement_keywords.
  cbn [In] in Hk.
  repeat (destruct Hk as [<- | Hk]; [cbn [In]; tauto|]).
  contradiction.
Qed.

Lemma main_closing_keywords_known : incl Main.agreement_keywords agreement_keywords.
Proof.
  intros k Hk. unfold Main.agreement_keywords in Hk. unfold agreement_keywords.
  cbn [In] in Hk.
  repeat (destruct Hk as [<- | Hk]; [cbn [In]; tauto|]).
  contradiction.
Qed.

(** X10: Every buyer input that moves the conversation to CLOSING, in
    [determine_next_state] of [src/app.py] or in [send_message] of
    [main.py], carries a keyword the agreement detector accepts; the detector
    knows more keywords, so the converse fails (for "yes"). *)
Theorem closing_input_signals_agreement (current_state : string)
        (user_input : str) (cache : option terms) :
  App.determine_next_state current_state user_input = "CLOSING"%string \/
  Main.next_state user_input = "CLOSING"%string ->
  signals_agreement (mkMessage "user" user_input cache) = true /\
  (App.determine_next_state current_state (txt "yes") = "NEGOTIATING"%string /\
   Main.next_state (txt "yes") = "NEGOTIATING"%string /\
   signals_agreement (mkMessage "user" (txt "yes") cache) = true).
Proof.
  intros H. split; [|repeat split].
  unfold signals_agreement. cbn [is_role role content String.eqb Ascii.eqb Bool.eqb andb].
  destruct H as [H|H].
  - unfold App.determine_next_state in H.
    destruct (any_in App.closing_keywords (lower user_input)) eqn:E;
      [|discriminate H].
    exact (any_in_mono _ _ _ app_closing_keywords_known E).
  - unfold Main.next_state in H.
    destruct (any_in Main.agreement_keywords (lower user_input)) eqn:E;
      [|discriminate H].
    exact (any_in_mono _ _ _ main_closing_keywords_known E).
Qed.

Lemma closing_input_signals_agreement_witness :
  signals_agreement (mkMessage "user" (txt "That works for me, we have a deal") None)
  = true.
Proof.
  apply (closing_input_signals_agreement
           "NEGOTIATING" (txt "That works for me, we have a deal") None).
  left. reflexivity.
Defined.

(* ================================================================== *)
(** * Further properties of the parameter generator *)

Lemma round_half_even_mono (x y : Q) :
  (x <= y)%Q -> round_half_even x <= round_half_even y.
Proof.
  intros Hxy.
  pose proof (Qfloor_resp_le x y Hxy) as Hf.
  destruct (Z_lt_le_dec (Qfloor x) (Qfloor y)) as [Hlt|Hge].
  - pose proof (round_half_even_floor x). pose proof (round_half_even_floor y). lia.
  - assert (Qfloor x = Qfloor y) as Ef by lia.
    unfold round_half_even. rewrite Ef.
    destruct (x - inject_Z (Qfloor y) ?= 1 # 2)%Q eqn:Ex;
      destruct (y - inject_Z (Qfloor y) ?= 1 # 2)%Q eqn:Ey;
      try (destruct (Z.even (Qfloor y)); lia); try lia;
      exfalso;
      repeat match goal with
             | H : (_ ?= _)%Q = Eq |- _ => apply Qeq_alt in H
             | H : (_ ?= _)%Q = Lt |- _ => apply Qlt_alt in H
             | H : (_ ?= _)%Q = Gt |- _ => apply Qgt_alt in H
             end; lra.
Qed.

Lemma round2_mono (x y : Q) : (x <= y)%Q -> (round2 x <= round2 y)%Q.
Proof.
  intros H. unfold round2.
  assert (round_half_even (x * 100) <= round_half_even (y * 100)) as Hr
      by (apply round_half_even_mono; lra).
  unfold Qle. cbn [Qnum Qden]. lia.
Qed.

Lemma round1_mono (x y : Q) : (x <= y)%Q -> (round1 x <= round1 y)%Q.
Proof.
  intros H. unfold round1.
  assert (round_half_even (x * 10) <= round_half_even (y * 10)) as Hr
      by (apply round_half_even_mono; lra).
  unfold Qle. cbn [Qnum Qden]. lia.
Qed.

(** A number of whole cents rounds to itself. *)
Lemma round2_hundredths (x : Q) (k : Z) : (x == k # 100)%Q -> round2 x = k # 100.
Proof.
  intros E. unfold round2. f_equal.
  rewrite <- (round_half_even_Z k). apply round_half_even_comp.
  rewrite E. unfold Qeq. simpl. ring.
Qed.

Section GeneratedLevels.

Variable d : draws.
Hypothesis Hrange : in_range d.

Let opening_price := round2 (u_price d * 10).
Let target_price := round2 (opening_price * (1 - price_reduction_1 d)).
Let reservation0 := round2 (target_price * (1 - price_reduction_2 d)).
Let opening_delivery := round_half_even (u_delivery d * 10).
Let target_delivery :=
  round_half_even (inject_Z opening_delivery * (1 - delivery_reduction_1 d)).

Lemma target_delivery_range :
  (inject_Z opening_delivery * (75 # 100) - (1 # 2) <= inject_Z target_delivery
   <= inject_Z opening_delivery * (85 # 100) + (1 # 2))%Q.
Proof.
  destruct Hrange as (_ & _ & _ & _ & Hd1 & _).
  pose proof (opening_delivery_range d Hrange) as [Ho _].
  fold opening_delivery in Ho.
  assert (40 <= inject_Z opening_delivery)%Q as Hq
      by (change 40%Q with (inject_Z 40); now rewrite <- Zle_Qle).
  pose proof (reduction_bounds (inject_Z opening_delivery) _ _ _ ltac:(lra) Hd1) as Hp.
  pose proof (round_half_even_near
                (inject_Z opening_delivery * (1 - delivery_reduction_1 d))) as Hn.
  fold target_delivery in Hn. split; lra.
Qed.

(** The first repair of the delivery never fires either. *)
Lemma target_delivery_below_gap :
  (opening_delivery - 3 <=? target_delivery) = false.
Proof.
  apply Z.leb_gt.
  pose proof target_delivery_range as [_ Hhi].
  pose proof (opening_delivery_range d Hrange) as [Ho _].
  fold opening_delivery in Ho.
  assert (40 <= inject_Z opening_delivery)%Q as Hq
      by (change 40%Q with (inject_Z 40); now rewrite <- Zle_Qle).
  rewrite Zlt_Qlt. unfold Z.sub. rewrite inject_Z_plus.
  rewrite inject_Z_opp. change (inject_Z 3) with 3%Q. lra.
Qed.

Lemma generated_shape_backend (rng : option Z -> draws) (seed : option Z) :
  rng seed = d ->
  let p := DealGenerator.generate_deal_parameters rng seed in
  opening (params_price p) = opening_price /\
  target (params_price p) = target_price /\
  opening (params_delivery p) = opening_delivery /\
  target (params_delivery p) = target_delivery /\
  (reservation (params_price p) <= target_price - 5)%Q /\
  reservation (params_delivery p) <= target_delivery - 3 /\
  0 < reservation (params_delivery p) /\
  params_volume p = Some (mkTiers 10000 20000 (5 # 100) 50000 (8 # 100)) /\
  (0 < reservation (params_price p))%Q.
Proof.
  intros Hd. unfold DealGenerator.generate_deal_parameters. rewrite Hd.
  cbn [params_price params_delivery params_volume opening target reservation].
  unfold DealGenerator.MIN_PRICE_DIFF, DealGenerator.RESERVATION_FLOOR,
    DealGenerator.MIN_DELIVERY_DIFF.
  rewrite (target0_below_gap d Hrange).
  fold opening_price. fold target_price. fold reservation0. fold opening_delivery. fold target_delivery.
  rewrite target_delivery_below_gap.
  pose proof (opening_price_range d Hrange) as Ho. fold opening_price in Ho.
  pose proof (target0_range d Hrange) as Ht.
  fold opening_price in Ht. fold target_price in Ht.
  pose proof (round2_near (opening_price * (50 # 100))) as Hm.
  set (min_reservation := round2 (opening_price * (50 # 100))) in *.
  pose proof (target0_delivery_lower d Hrange) as Htd.
  fold opening_delivery in Htd. fold target_delivery in Htd.
  destruct Hrange as (_ & _ & _ & _ & _ & Hd2).
  assert (30 <= inject_Z target_delivery)%Q as Hq
      by (change 30%Q with (inject_Z 30); now rewrite <- Zle_Qle).
  assert (1 <= round_half_even
                 (inject_Z target_delivery * (1 - delivery_reduction_2 d))) as Hrd.
  { apply round_half_even_ge. change (inject_Z 1) with 1%Q.
    destruct Hd2 as [Hlo Hhi]. nra. }
  repeat split; try reflexivity.
  - destruct (Qle_bool (target_price - 5) reservation0) eqn:E.
    + destruct (Qmax_cases (target_price - 5) min_reservation) as [[Hc ->]|[Hc ->]];
        lra.
    + apply Qle_bool_false in E.
      destruct (Qmax_cases reservation0 min_reservation) as [[Hc ->]|[Hc ->]];
        lra.
  - match goal with |- context [?a <=? round_half_even ?x] =>
      destruct (Z.leb_spec a (round_half_even x)) end; lia.
  - match goal with |- context [?a <=? round_half_even ?x] =>
      destruct (Z.leb_spec a (round_half_even x)) end; lia.
  - match goal with |- (0 < Qmax ?x _)%Q =>
      destruct (Qmax_cases x min_reservation) as [[Hc ->]|[Hc ->]] end; lra.
Qed.

Lemma generated_shape_app (rng : option Z -> draws) (seed : option Z) :
  rng seed = d ->
  let p := App.generate_deal_parameters rng seed in
  opening (params_price p) = opening_price /\
  target (params_price p) = target_price /\
  opening (params_delivery p) = opening_delivery /\
  target (params_delivery p) = target_delivery /\
  (reservation (params_price p) <= target_price - 5)%Q /\
  reservation (params_delivery p) <= target_delivery - 3.
Proof.
  intros Hd. unfold App.generate_deal_parameters. rewrite Hd.
  cbn [params_price params_delivery params_volume opening target reservation].
  unfold App.MIN_PRICE_DIFF, App.RESERVATION_FLOOR, App.MIN_DELIVERY_DIFF.
  rewrite (target0_below_gap d Hrange).
  fold opening_price. fold target_price. fold reservation0. fold opening_delivery. fold target_delivery.
  rewrite target_delivery_below_gap.
  pose proof (opening_price_range d Hrange) as Ho. fold opening_price in Ho.
  pose proof (target0_range d Hrange) as Ht.
  fold opening_price in Ht. fold target_price in Ht.
  pose proof (round2_near (opening_price * (50 # 100))) as Hm.
  set (min_reservation := round2 (opening_price * (50 # 100))) in *.
  pose proof (target0_delivery_lower d Hrange) as Htd.
  fold opening_delivery in Htd. fold target_delivery in Htd.
  repeat split; try reflexivity.
  - destruct (Qle_bool (target_price - 5) reservation0) eqn:E.
    + assert (round2 (target_price - Qmax 5 (target_price * (10 # 100)))
              <= target_price - 5)%Q as Hrep.
      { set (k := round_half_even (opening_price * (1 - price_reduction_1 d) * 100)).
        assert (target_price = k # 100) as Ek by reflexivity.
        assert (round2 (target_price - 5) = (k - 500) # 100) as E5.
        { apply round2_hundredths. rewrite Ek. unfold Qeq. simpl. ring. }
        assert ((k - 500) # 100 == target_price - 5)%Q as E6
            by (rewrite Ek; unfold Qeq; simpl; ring).
        rewrite <- E6, <- E5. apply round2_mono.
        destruct (Qmax_cases 5 (target_price * (10 # 100))) as [[Hc ->]|[Hc ->]];
          lra. }
      destruct (Qmax_cases
                  (round2 (target_price - Qmax 5 (target_price * (10 # 100))))
                  min_reservation) as [[Hc ->]|[Hc ->]]; lra.
    + apply Qle_bool_false in E.
      destruct (Qmax_cases reservation0 min_reservation) as [[Hc ->]|[Hc ->]];
        lra.
  - match goal with |- context [?a <=? round_half_even ?x] =>
      destruct (Z.leb_spec a (round_half_even x)) end; lia.
Qed.

End GeneratedLevels.

(** X11: For every seed with draws in range, both generators keep the minimum
    gaps between adjacent levels: at least 5 dollars between opening,
    target and reservation price, at least 3 days between opening, target
    and reservation delivery. *)
Theorem generated_levels_keep_minimum_gaps
        (rng : option Z -> draws) (seed : option Z) :
  in_range (rng seed) ->
  let b := DealGenerator.generate_deal_parameters rng seed in
  let a := App.generate_deal_parameters rng seed in
  (target (params_price b) <= opening (params_price b) - 5)%Q /\
  (reservation (params_price b) <= target (params_price b) - 5)%Q /\
  target (params_delivery b) <= opening (params_delivery b) - 3 /\
  reservation (params_delivery b) <= target (params_delivery b) - 3 /\
  (target (params_price a) <= opening (params_price a) - 5)%Q /\
  (reservation (params_price a) <= target (params_price a) - 5)%Q /\
  target (params_delivery a) <= opening (params_delivery a) - 3 /\
  reservation (params_delivery a) <= target (params_delivery a) - 3.
Proof.
  intros Hrange b a.
  destruct (generated_shape_backend (rng seed) Hrange rng seed eq_refl)
    as (B1 & B2 & B3 & B4 & B5 & B6 & _).
  destruct (generated_shape_app (rng seed) Hrange rng seed eq_refl)
    as (A1 & A2 & A3 & A4 & A5 & A6).
  fold b in B1, B2, B3, B4, B5, B6. fold a in A1, A2, A3, A4, A5, A6.
  rewrite B1, B2, B3, B4, A1, A2, A3, A4.
  pose proof (Qle_bool_false _ _ (target0_below_gap (rng seed) Hrange)) as Hp.
  pose proof (target_delivery_below_gap (rng seed) Hrange) as Hdl.
  apply Z.leb_gt in Hdl.
  repeat split; try assumption; try lia; lra.
Qed.

Lemma generated_levels_keep_minimum_gaps_witness :
  let b := DealGenerator.generate_deal_parameters midpoint_rng (Some 42) in
  (target (params_price b) <= opening (params_price b) - 5)%Q.
Proof.
  apply (generated_levels_keep_minimum_gaps midpoint_rng (Some 42)).
  unfold in_range, within, midpoint_rng, Qle; simpl. lia.
Defined.

(** X12: For every seed with draws in range, the opening price lies between 50
    and 300 dollars, the opening delivery between 40 and 100 days, and the
    target 15 to 25 percent below the opening, up to the rounding (half a
    cent, half a day); in both generators. *)
Theorem generated_levels_in_range (rng : option Z -> draws) (seed : option Z) :
  in_range (rng seed) ->
  let b := DealGenerator.generate_deal_parameters rng seed in
  let a := App.generate_deal_parameters rng seed in
  opening (params_price a) = opening (params_price b) /\
  target (params_price a) = target (params_price b) /\
  opening (params_delivery a) = opening (params_delivery b) /\
  target (params_delivery a) = target (params_delivery b) /\
  (50 <= opening (params_price b) <= 300)%Q /\
  40 <= opening (params_delivery b) <= 100 /\
  (opening (params_price b) * (75 # 100) - (1 # 200) <= target (params_price b)
   <= opening (params_price b) * (85 # 100) + (1 # 200))%Q /\
  (inject_Z (opening (params_delivery b)) * (75 # 100) - (1 # 2)
   <= inject_Z (target (params_delivery b))
   <= inject_Z (opening (params_delivery b)) * (85 # 100) + (1 # 2))%Q.
Proof.
  intros Hrange b a.
  destruct (generated_shape_backend (rng seed) Hrange rng seed eq_refl)
    as (B1 & B2 & B3 & B4 & _).
  destruct (generated_shape_app (rng seed) Hrange rng seed eq_refl)
    as (A1 & A2 & A3 & A4 & _).
  fold b in B1, B2, B3, B4. fold a in A1, A2, A3, A4.
  rewrite A1, A2, A3, A4, B1, B2, B3, B4.
  do 4 (split; [reflexivity|]).
  split; [apply (opening_price_range (rng seed) Hrange)|].
  split; [apply (opening_delivery_range (rng seed) Hrange)|].
  split; [apply (target0_range (rng seed) Hrange)|].
  apply (target_delivery_range (rng seed) Hrange).
Qed.

Lemma generated_levels_in_range_witness :
  let b := DealGenerator.generate_deal_parameters midpoint_rng (Some 42) in
  (50 <= opening (params_price b) <= 300)%Q /\
  40 <= opening (params_delivery b) <= 100.
Proof.
  pose proof (generated_levels_in_range midpoint_rng (Some 42)) as H.
  cbv zeta in H.
  destruct H as (_ & _ & _ & _ & Hp & Hd & _).
  - unfold in_range, within, midpoint_rng, Qle; simpl. lia.
  - split; assumption.
Defined.

Lemma Qlt_bool_true (a b : Q) : (a < b)%Q -> Qlt_bool a b = true.
Proof.
  intros H. unfold Qlt_bool. destruct (Qle_bool b a) eqn:E; [|reflexivity].
  apply Qle_bool_iff in E. lra.
Qed.

Lemma Qlt_bool_lt (a b : Q) : Qlt_bool a b = true -> (a < b)%Q.
Proof.
  unfold Qlt_bool. destruct (Qle_bool b a) eqn:E; [discriminate|].
  intros _. now apply Qle_bool_false.
Qed.

(** X13: Every parameter set the backend generator produces from draws in range
    passes its own validation: [validate_parameters] returns [True] on it,
    raising neither [ValueError] nor [KeyError]. *)
Theorem validate_parameters_accepts_generated
        (rng : option Z -> draws) (seed : option Z) :
  in_range (rng seed) ->
  DealGenerator.validate_parameters
    (DealGenerator.generate_deal_parameters rng seed) = Returns true.
Proof.
  intros Hrange.
  destruct (generated_shape_backend (rng seed) Hrange rng seed eq_refl)
    as (B1 & B2 & B3 & B4 & B5 & B6 & B7 & B8 & B9).
  pose proof (Qle_bool_false _ _ (target0_below_gap (rng seed) Hrange)) as Hp.
  pose proof (target_delivery_below_gap (rng seed) Hrange) as Hdl.
  apply Z.leb_gt in Hdl.
  unfold DealGenerator.validate_parameters.
  set (p := DealGenerator.generate_deal_parameters rng seed) in *.
  cbv zeta.
  rewrite (Qlt_bool_true (target (params_price p)) (opening (params_price p)))
    by (rewrite B1, B2; lra).
  rewrite (Qlt_bool_true (reservation (params_price p)) (target (params_price p)))
    by (rewrite B2; lra).
  rewrite (Qlt_bool_true 0 (reservation (params_price p))) by exact B9.
  replace (target (params_delivery p) <? opening (params_delivery p)) with true
    by (symmetry; apply Z.ltb_lt; rewrite B3, B4; lia).
  replace (reservation (params_delivery p) <? target (params_delivery p)) with true
    by (symmetry; apply Z.ltb_lt; rewrite B4; lia).
  replace (0 <? reservation (params_delivery p)) with true
    by (symmetry; apply Z.ltb_lt; lia).
  rewrite B8. reflexivity.
Qed.

Lemma validate_parameters_accepts_generated_witness :
  DealGenerator.validate_parameters
    (DealGenerator.generate_deal_parameters midpoint_rng (Some 42)) = Returns true.
Proof.
  apply (validate_parameters_accepts_generated midpoint_rng (Some 42)).
  unfold in_range, within, midpoint_rng, Qle; simpl. lia.
Defined.

(** X14: [validate_parameters] never returns [False]: whenever it returns, the
    value is [True] and the three price levels, the three delivery levels
    and the three volume thresholds are strictly ordered and positive; on
    every other parameter set it raises. *)
Theorem validate_parameters_returns_only_true (params : deal_params) (b : bool) :
  DealGenerator.validate_parameters params = Returns b ->
  b = true /\
  (0 < reservation (params_price params) < target (params_price params))%Q /\
  (target (params_price params) < opening (params_price params))%Q /\
  0 < reservation (params_delivery params) < target (params_delivery params) /\
  target (params_delivery params) < opening (params_delivery params) /\
  exists volume, params_volume params = Some volume /\
    0 < standard volume < tier_1_threshold volume /\
    tier_1_threshold volume < tier_2_threshold volume.
Proof.
  unfold DealGenerator.validate_parameters. cbv zeta.
  destruct (Qlt_bool (target (params_price params))
                     (opening (params_price params))) eqn:E1;
    [|discriminate].
  destruct (Qlt_bool (reservation (params_price params))
                     (target (params_price params))) eqn:E2;
    [|discriminate].
  destruct (Qlt_bool 0 (reservation (params_price params))) eqn:E3;
    [|discriminate].
  destruct (target (params_delivery params) <? opening (params_delivery params))
           eqn:E4; [|discriminate].
  destruct (reservation (params_delivery params) <? target (params_delivery params))
           eqn:E5; [|discriminate].
  destruct (0 <? reservation (params_delivery params)) eqn:E6; [|discriminate].
  cbn [negb].
  destruct (params_volume params) as [volume|]; [|discriminate].
  destruct (0 <? standard volume) eqn:E7; [|discriminate].
  destruct (standard volume <? tier_1_threshold volume) eqn:E8; [|discriminate].
  destruct (tier_1_threshold volume <? tier_2_threshold volume) eqn:E9;
    [|discriminate].
  cbn [negb]. intros H. injection H as <-.
  apply Qlt_bool_lt in E1, E2, E3.
  apply Z.ltb_lt in E4, E5, E6, E7, E8, E9.
  split; [reflexivity|]. split; [split; assumption|].
  split; [assumption|]. split; [split; assumption|]. split; [assumption|].
  exists volume. split; [reflexivity|]. split; [split; assumption|assumption].
Qed.

Lemma validate_parameters_returns_only_true_witness :
  let p := mkParams (mkLevels (5250 # 100) 42%Q (3850 # 100)) (mkLevels 60 45 35)
                    (Some (mkTiers 10000 20000 (5 # 100) 50000 (8 # 100))) in
  0 < reservation (params_delivery p) < target (params_delivery p).
Proof.
  intros p.
  apply (validate_parameters_returns_only_true p true).
  vm_compute. reflexivity.
Defined.

(* ================================================================== *)
(** * Further properties of the evaluator *)

(** ** When the evaluation returns *)



(** ** Better terms never score lower *)





(** ** The ranges the scores can take *)

Lemma inject_Z_between (lo hi z : Z) :
  lo <= z <= hi -> (inject_Z lo <= inject_Z z <= inject_Z hi)%Q.
Proof. intros [H0 H1]. rewrite <- !Zle_Qle. lia. Qed.

Lemma strategy_range (h : history) :
  (30 <= _score_trade_off_strategy h <= 90)%Q.
Proof.
  unfold _score_trade_off_strategy, strategy_score.
  repeat match goal with |- context [if ?b then _ else _] => destruct b end;
    split; lra.
Qed.

Lemma process_range (h : history) (q : Q) :
  _score_process_management h = Ok q -> (60 <= q <= 100)%Q.
Proof.
  unfold _score_process_management.
  destruct (length (user_messages h)); [discriminate|].
  intros E. injection E as <-. apply (inject_Z_between 60 100).
  repeat match goal with |- context [if ?b then _ else _] => destruct b end; lia.
Qed.

Lemma creativity_range (h : history) :
  (30 <= _score_creativity_adaptability h <= 100)%Q.
Proof.
  unfold _score_creativity_adaptability.
  destruct (Nat.ltb _ 2); [split; lra|].
  destruct (length (filter _ _)); [split; lra|].
  apply (inject_Z_between 30 100).
  repeat match goal with |- context [if ?b then _ else _] => destruct b end; lia.
Qed.

Lemma deal_quality_range (p : deal_params) (t : final_terms) (q : Q) :
  _score_deal_quality p (Some t) = Ok q -> (30 <= q <= 95)%Q.
Proof.
  unfold _score_deal_quality.
  destruct (reduction_pct _ (agreed_price t)) as [pp|]; [|discriminate].
  cbn [bind].
  destruct (agreed_price t) as [fp|]; [|discriminate].
  destruct (reduction_pct _ (agreed_delivery t)) as [dp|]; [|discriminate].
  cbn [bind].
  destruct (agreed_delivery t) as [fd|]; [|discriminate].
  intros E. injection E as <-.
  pose proof (component_range fp (target (params_price p)) pp) as Hx.
  pose proof (component_range fd (inject_Z (target (params_delivery p))) dp) as Hy.
  apply (round1_between _ 30 95).
  change (inject_Z 30) with 30%Q. change (inject_Z 95) with 95%Q.
  split; lra.
Qed.

Lemma letter_below_70 (score : Q) :
  (score < 70)%Q -> letter_of score = "D"%string \/ letter_of score = "F"%string.
Proof.
  intros H. unfold letter_of.
  destruct (Qle_bool 90 score) eqn:E1; [apply Qle_bool_iff in E1; lra|].
  destruct (Qle_bool 80 score) eqn:E2; [apply Qle_bool_iff in E2; lra|].
  destruct (Qle_bool 70 score) eqn:E3; [apply Qle_bool_iff in E3; lra|].
  destruct (Qle_bool 60 score); [left|right]; reflexivity.
Qed.

(** X17: The reports [evaluate] can return: the trade-off score lies between 30
    and 90, process management between 60 and 100 (its lower clamp never
    acts), creativity between 30 and 100; Deal Quality is 0 without agreed
    terms and between 30 and 95 with them.  So the overall score never
    exceeds 95.6, and without agreed terms it never exceeds 64.2, a grade of
    D or F. *)
Theorem evaluation_score_ranges
        (h : history) (p : deal_params) (a : option final_terms) (r : evaluation) :
  evaluate h p a = Ok r ->
  (30 <= trade_off_strategy r <= 90)%Q /\
  (60 <= process_management r <= 100)%Q /\
  (30 <= creativity_adaptability r <= 100)%Q /\
  (a <> None -> (30 <= deal_quality r <= 95)%Q) /\
  (overall_score r <= 956 # 10)%Q /\
  (a = None ->
   deal_quality r = 0%Q /\ (overall_score r <= 642 # 10)%Q /\
   (overall_grade r = "D"%string \/ overall_grade r = "F"%string)).
Proof.
  intros E. unfold evaluate in E.
  destruct (_score_deal_quality p a) as [dq|] eqn:Edq; [|discriminate].
  cbn [bind] in E.
  destruct (_score_process_management h) as [pm|] eqn:Epm; [|discriminate].
  cbn [bind] in E. injection E as <-.
  cbn [deal_quality trade_off_strategy professionalism process_management
       creativity_adaptability overall_score overall_grade].
  pose proof (strategy_range h) as Hst.
  pose proof (process_range h pm Epm) as Hpm.
  pose proof (creativity_range h) as Hcr.
  pose proof (professionalism_on_scale h) as Hpr. unfold on_scale in Hpr.
  pose proof (deal_quality_on_scale p a dq Edq) as Hdq. unfold on_scale in Hdq.
  assert (dq <= 95)%Q as Hdq95.
  { destruct a as [t|].
    - apply (deal_quality_range p t dq Edq).
    - injection Edq as <-. lra. }
  split; [exact Hst|]. split; [exact Hpm|]. split; [exact Hcr|].
  split.
  { intros Ha. destruct a as [t|]; [|congruence].
    exact (deal_quality_range p t dq Edq). }
  split.
  { unfold _calculate_overall_score.
    change (956 # 10) with (round1 (9555 # 100)).
    apply round1_mono. lra. }
  intros ->. injection Edq as <-.
  split; [reflexivity|].
  assert (_calculate_overall_score 0 (_score_trade_off_strategy h)
            (_score_professionalism h) pm (_score_creativity_adaptability h)
          <= 642 # 10)%Q as Hov.
  { unfold _calculate_overall_score.
    change (642 # 10) with (round1 (642 # 10)).
    apply round1_mono. lra. }
  split; [exact Hov|].
  rewrite score_to_grade_letter. apply letter_below_70. lra.
Qed.

Lemma evaluation_score_ranges_witness :
  exists r, evaluate sample_history sample_params (Some sample_agreed) = Ok r /\
            (overall_score r <= 956 # 10)%Q.
Proof.
  eexists. split; [vm_compute; reflexivity|].
  refine (proj1 (proj2 (proj2 (proj2 (proj2
    (evaluation_score_ranges sample_history sample_params (Some sample_agreed)
       _ _)))))).
  vm_compute. reflexivity.
Defined.

(** ** The key recommendation *)

Lemma min_by_score_first_least (items : list (string * Q)) :
  forall best,
  exists before after,
    best :: items = before ++ min_by_score best items :: after /\
    (forall x, In x before -> (snd (min_by_score best items) < snd x)%Q) /\
    (forall x, In x after -> (snd (min_by_score best items) <= snd x)%Q).
Proof.
  induction items as [|item rest IH]; intros best.
  - exists [], []. cbn [min_by_score]. repeat split; intros x [].
  - cbn [min_by_score].
    destruct (Qlt_bool (snd item) (snd best)) eqn:E.
    + apply Qlt_bool_lt in E.
      destruct (IH item) as (before & after & Hsplit & Hb & Ha).
      set (w := min_by_score item rest) in *.
      assert (snd w <= snd item)%Q as Hw.
      { assert (In item (before ++ w :: after)) as Hin
            by (rewrite <- Hsplit; left; reflexivity).
        apply in_app_or in Hin as [Hin|[Heq|Hin]].
        - apply Qlt_le_weak, Hb, Hin.
        - rewrite Heq. apply Qle_refl.
        - apply Ha, Hin. }
      exists (best :: before), after. split; [|split].
      * cbn [app]. now rewrite Hsplit.
      * intros x [<-|Hx]; [lra|apply Hb, Hx].
      * exact Ha.
    + assert (snd best <= snd item)%Q as Hle.
      { unfold Qlt_bool in E. apply negb_false_iff in E.
        now apply Qle_bool_iff in E. }
      destruct (IH best) as (before & after & Hsplit & Hb & Ha).
      destruct before as [|b before].
      * cbn [app] in Hsplit. injection Hsplit as Hw Hrest.
        exists [], (item :: rest). split; [|split].
        -- cbn [app]. now rewrite <- Hw.
        -- intros x [].
        -- intros x [<-|Hx]; [rewrite <- Hw; exact Hle|].
           apply Ha. rewrite <- Hrest. exact Hx.
      * cbn [app] in Hsplit. injection Hsplit as Hbest Hrest.
        subst b.
        exists (best :: item :: before), after. split; [|split].
        -- cbn [app]. do 2 f_equal. exact Hrest.
        -- pose proof (Hb best (or_introl eq_refl)) as Hlt.
           intros x [<-|[<-|Hx]]; [exact Hlt|lra|].
           apply Hb. right. exact Hx.
        -- exact Ha.
Qed.

(** X18: The metric the key recommendation addresses is one of the lowest score,
    and among equally low ones the first in the order deal quality,
    strategy, professionalism, process, creativity: every metric listed
    before it scores strictly more, every metric after it at least as
    much. *)
Theorem top_weakness_is_first_lowest (dq st pr pm cr : Q) :
  let metrics :=
    [ ("deal_quality"%string, dq); ("strategy"%string, st);
      ("professionalism"%string, pr); ("process"%string, pm);
      ("creativity"%string, cr) ] in
  let weakest := top_weakness dq st pr pm cr in
  exists before after,
    metrics = before ++ weakest :: after /\
    (forall x, In x before -> (snd weakest < snd x)%Q) /\
    (forall x, In x after -> (snd weakest <= snd x)%Q).
Proof.
  intros metrics weakest. unfold weakest, top_weakness, metrics.
  apply min_by_score_first_least.
Qed.

(** ** Whose messages are scored *)

Lemma user_messages_of_buyers (h : history) :
  user_messages (filter (is_role "user") h) = user_messages h.
Proof.
  unfold user_messages. f_equal.
  induction h as [|m h IH]; [reflexivity|].
  cbn [filter]. destruct (is_role "user" m) eqn:E; [|exact IH].
  cbn [filter]. rewrite E. now f_equal.
Qed.

(** X19: The scores, the grade and the round count of the report depend on the
    buyer's messages only: dropping every other message from the transcript
    changes nothing, whether [evaluate] returns or raises. *)
Theorem evaluate_reads_buyer_messages_only
        (h : history) (p : deal_params) (a : option final_terms) :
  evaluate (filter (is_role "user") h) p a = evaluate h p a.
Proof.
  unfold evaluate, _score_trade_off_strategy, _score_professionalism,
    _score_process_management, _score_creativity_adaptability.
  now rewrite user_messages_of_buyers.
Qed.

(* ================================================================== *)
(** * The agreed terms the evaluation endpoint reads from the transcript *)

Lemma scan_agreed_sellers_only (p : deal_params) (l : history) :
  forall found,
    Main.scan_agreed l p found
    = Main.scan_agreed (filter (is_role "assistant") l) p found.
Proof.
  induction l as [|m l IH]; intros found; [reflexivity|].
  cbn [filter Main.scan_agreed].
  destruct (is_role "assistant" m) eqn:Em.
  - cbn [Main.scan_agreed]. rewrite Em.
    destruct (extract_price (Some (content m))) as [pr|]; [|reflexivity].
    cbn [bind].
    destruct (extract_delivery (Some (content m))) as [d|]; [|reflexivity].
    cbn [bind].
    destruct (_ && _); [reflexivity|apply IH].
  - apply IH.
Qed.

(** X20: The agreed terms of [evaluate_deal] are read from the seller's messages
    alone: what the buyer wrote, an acceptance or a counter-offer, never
    enters them. *)
Theorem agreed_terms_ignore_buyer_messages (h : history) (p : deal_params) :
  Main.agreed_price_and_delivery h p
  = Main.agreed_price_and_delivery (filter (is_role "assistant") h) p.
Proof.
  unfold Main.agreed_price_and_delivery.
  rewrite <- filter_rev. now rewrite <- scan_agreed_sellers_only.
Qed.

Lemma float_or_truthy (x : option pyfloat) (q : Q) :
  ~ (q == 0)%Q -> Main.truthy_float (Main.float_or x (Fin q)) = true.
Proof.
  intros Hq. unfold Main.float_or.
  assert (Main.truthy_float (Fin q) = true) as Hd
      by (cbn [Main.truthy_float]; now rewrite (Qeq_bool_false q 0 Hq)).
  destruct x as [f|]; [|exact Hd].
  destruct (Main.truthy_float f) eqn:E; [exact E|exact Hd].
Qed.

Lemma int_or_truthy (x : option Z) (n : Z) :
  n <> 0 -> Main.truthy_int (Main.int_or x n) = true.
Proof.
  intros Hn. unfold Main.int_or.
  assert (Main.truthy_int n = true) as Hd
      by (unfold Main.truthy_int; apply negb_true_iff, Z.eqb_neq, Hn).
  destruct x as [k|]; [|exact Hd].
  destruct (Main.truthy_int k) eqn:E; [exact E|exact Hd].
Qed.

Lemma existsb_reversed {A : Type} (f : A -> bool) (l : list A) :
  existsb f (rev l) = existsb f l.
Proof.
  induction l as [|x l IH]; [reflexivity|].
  cbn [rev]. rewrite existsb_app, IH. cbn [existsb].
  rewrite orb_false_r. apply orb_comm.
Qed.

Lemma scan_agreed_skips_buyers (p : deal_params) (l rest : history) :
  forall found,
    existsb (is_role "assistant") l = false ->
    Main.scan_agreed (l ++ rest) p found = Main.scan_agreed rest p found.
Proof.
  induction l as [|m l IH]; intros found Hl; [reflexivity|].
  cbn [existsb] in Hl. apply orb_false_iff in Hl as [Hm Hl].
  cbn [app Main.scan_agreed]. rewrite Hm. now apply IH.
Qed.

(** One step of the loop at a seller message, the targets not being zero:
    both entries are set and the loop is left. *)
Lemma scan_agreed_stops (m : message) (rest : history) (p : deal_params)
      (found : option (pyfloat * Z)) :
  ~ (target (params_price p) == 0)%Q -> target (params_delivery p) <> 0 ->
  is_role "assistant" m = true ->
  Main.scan_agreed (m :: rest) p found
  = (price <- extract_price (Some (content m)) ;;
     delivery <- extract_delivery (Some (content m)) ;;
     Ok (Some (Main.float_or price (Fin (target (params_price p))),
               Main.int_or delivery (target (params_delivery p))))).
Proof.
  intros Hp Hd Hm. cbn [Main.scan_agreed]. rewrite Hm.
  destruct (extract_price (Some (content m))) as [pr|]; [|reflexivity].
  cbn [bind].
  destruct (extract_delivery (Some (content m))) as [d|]; [|reflexivity].
  cbn [bind].
  rewrite (float_or_truthy pr _ Hp), (int_or_truthy d _ Hd).
  reflexivity.
Qed.

(** The reversed transcript, read up to its first seller message. *)
Lemma scan_agreed_reaches_last_seller
      (before after : history) (m : message) (p : deal_params) :
  existsb (is_role "assistant") after = false ->
  Main.scan_agreed (rev (before ++ m :: after)) p None
  = Main.scan_agreed (m :: rev before) p None.
Proof.
  intros Hafter.
  rewrite rev_app_distr. cbn [rev]. rewrite <- app_assoc. cbn [app].
  apply scan_agreed_skips_buyers. now rewrite existsb_reversed.
Qed.

(** X21: With targets other than zero the search of [evaluate_deal] stops at the
    last seller message: the agreed price and delivery are what that one
    message quotes, each replaced by the seller's target where the message
    quotes none (or quotes zero); earlier messages are never consulted. *)
Theorem agreed_terms_from_last_seller_message
        (before after : history) (m : message) (p : deal_params) :
  ~ (target (params_price p) == 0)%Q -> target (params_delivery p) <> 0 ->
  is_role "assistant" m = true ->
  existsb (is_role "assistant") after = false ->
  Main.agreed_price_and_delivery (before ++ m :: after) p
  = (price <- extract_price (Some (content m)) ;;
     delivery <- extract_delivery (Some (content m)) ;;
     Ok (Main.float_or price (Fin (target (params_price p))),
         Main.int_or delivery (target (params_delivery p)))).
Proof.
  intros Hp Hd Hm Hafter. unfold Main.agreed_price_and_delivery.
  rewrite (scan_agreed_reaches_last_seller before after m p Hafter).
  rewrite (scan_agreed_stops m (rev before) p None Hp Hd Hm).
  destruct (extract_price (Some (content m))) as [pr|]; [|reflexivity].
  cbn [bind].
  destruct (extract_delivery (Some (content m))) as [d|]; reflexivity.
Qed.

Lemma agreed_terms_from_last_seller_message_witness :
  Main.agreed_price_and_delivery
    ([ seller "Our price is $52.50 per unit with 60-day delivery.";
       buyer "I can do $40 in 30 days." ]
     ++ seller "We can meet you at $44 per unit." :: [ buyer "Deal." ])
    sample_params
  = Ok (Fin 44, 45).
Proof.
  rewrite (agreed_terms_from_last_seller_message
             [ seller "Our price is $52.50 per unit with 60-day delivery.";
               buyer "I can do $40 in 30 days." ]
             [ buyer "Deal." ]
             (seller "We can meet you at $44 per unit.") sample_params).
  - vm_compute. reflexivity.
  - discriminate.
  - discriminate.
  - reflexivity.
  - reflexivity.
Defined.

(** X22: When the last seller message holds no digit, [evaluate_deal] takes the
    seller's targets for the agreed price and delivery, whatever was
    negotiated before, and the evaluator's Deal Quality for these terms is
    95. *)
Theorem closing_remark_scores_as_target
        (before after : history) (m : message) (p : deal_params)
        (volume : option Q) :
  ~ (target (params_price p) == 0)%Q -> target (params_delivery p) <> 0 ->
  usable_params p ->
  is_role "assistant" m = true ->
  existsb (is_role "assistant") after = false ->
  no_digit (content m) = true ->
  Main.agreed_price_and_delivery (before ++ m :: after) p
  = Ok (Fin (target (params_price p)), target (params_delivery p)) /\
  exists score,
    _score_deal_quality p
      (Some (mkFinal (Some (target (params_price p)))
                     (Some (inject_Z (target (params_delivery p)))) volume))
    = Ok score /\ (score == 95)%Q.
Proof.
  intros Hp Hd [Hop Hod] Hm Hafter Hdigit. split.
  - unfold Main.agreed_price_and_delivery.
    rewrite (scan_agreed_reaches_last_seller before after m p Hafter).
    rewrite (scan_agreed_stops m (rev before) p None Hp Hd Hm).
    rewrite (extract_price_without_digit _ Hdigit).
    rewrite (extract_delivery_without_digit _ Hdigit).
    reflexivity.
  - unfold _score_deal_quality, reduction_pct.
    cbn [agreed_price agreed_delivery].
    rewrite (Qeq_bool_false _ 0 Hop).
    rewrite (Qeq_bool_false (inject_Z (opening (params_delivery p))) 0)
      by (unfold Qeq; simpl; lia).
    cbn [bind]. eexists. split; [reflexivity|].
    unfold component.
    assert (Qle_bool (target (params_price p)) (target (params_price p)) = true)
      as -> by (apply Qle_bool_iff, Qle_refl).
    assert (Qle_bool (inject_Z (target (params_delivery p)))
                     (inject_Z (target (params_delivery p))) = true)
      as -> by (apply Qle_bool_iff, Qle_refl).
    reflexivity.
Qed.

Lemma closing_remark_scores_as_target_witness :
  Main.agreed_price_and_delivery
    ([ seller "Our price is $52.50 per unit with 60-day delivery.";
       buyer "I can do $51 in 59 days." ]
     ++ seller "Wonderful, we have a deal!" :: [])
    sample_params
  = Ok (Fin 42, 45).
Proof.
  apply (closing_remark_scores_as_target
           [ seller "Our price is $52.50 per unit with 60-day delivery.";
             buyer "I can do $51 in 59 days." ]
           [] (seller "Wonderful, we have a deal!") sample_params None).
  - discriminate.
  - discriminate.
  - split; discriminate.
  - reflexivity.
  - reflexivity.
  - reflexivity.
Defined.

(* ================================================================== *)
(** * Further properties of the response post-processor *)

(** ** [split] and [join] *)

Lemma str_split_fuel_nonempty (fuel : nat) (sep : str) :
  forall s piece_rev, str_split_fuel fuel sep s piece_rev <> [].
Proof.
  induction fuel as [|fuel IH]; intros s piece_rev; cbn [str_split_fuel].
  - discriminate.
  - destruct s as [|c s']; [discriminate|].
    destruct (starts_with sep (c :: s')); [discriminate|apply IH].
Qed.

Lemma join_cons (sep p : str) (ps : list str) :
  ps <> [] -> join sep (p :: ps) = p ++ sep ++ join sep ps.
Proof. destruct ps; [contradiction|reflexivity]. Qed.

Lemma join_app (sep : str) (a b : list str) :
  a <> [] -> b <> [] -> join sep (a ++ b) = join sep a ++ sep ++ join sep b.
Proof.
  intros Ha Hb. induction a as [|p a IH]; [contradiction|].
  destruct a as [|q a].
  - cbn [app]. rewrite (join_cons sep p b Hb). reflexivity.
  - change ((p :: q :: a) ++ b) with (p :: ((q :: a) ++ b)).
    rewrite join_cons by discriminate.
    rewrite IH by discriminate.
    rewrite (join_cons sep p (q :: a)) by discriminate.
    now rewrite <- !app_assoc.
Qed.

Lemma starts_with_skipn (p s : str) :
  starts_with p s = true -> s = p ++ skipn (length p) s.
Proof.
  revert s. induction p as [|a p IH]; intros s H; [reflexivity|].
  destruct s as [|b s]; [discriminate|].
  cbn [starts_with] in H. apply andb_true_iff in H as [Hab Hp].
  apply Ascii.eqb_eq in Hab. subst b.
  cbn [length skipn app]. f_equal. now apply IH.
Qed.

(** Joining the pieces of a split gives the text back. *)
Lemma join_str_split_fuel (sep : str) (fuel : nat) :
  forall s piece_rev,
    join sep (str_split_fuel fuel sep s piece_rev) = rev piece_rev ++ s.
Proof.
  induction fuel as [|fuel IH]; intros s piece_rev; cbn [str_split_fuel].
  - reflexivity.
  - destruct s as [|c s'].
    + cbn [join]. now rewrite app_nil_r.
    + destruct (starts_with sep (c :: s')) eqn:E.
      * rewrite join_cons by apply str_split_fuel_nonempty.
        rewrite IH. cbn [rev app].
        now rewrite <- (starts_with_skipn sep (c :: s') E).
      * rewrite IH. cbn [rev]. now rewrite <- app_assoc.
Qed.

Lemma join_str_split (sep s : str) : join sep (str_split sep s) = s.
Proof. unfold str_split. now rewrite join_str_split_fuel. Qed.

(** X23: [clean_ai_response] removes nothing but an exact second copy: it
    returns the text as it is, or the text is the result, a blank line, and
    the result once more. *)
Theorem clean_ai_response_removes_exact_copy (text : str) :
  App.clean_ai_response text = text \/
  text = App.clean_ai_response text ++ App.paragraph_break
         ++ App.clean_ai_response text.
Proof.
  unfold App.clean_ai_response.
  set (paragraphs := str_split App.paragraph_break text).
  cbv zeta.
  destruct (Nat.ltb 1 (length paragraphs)
            && Nat.eqb (Nat.modulo (length paragraphs) 2) 0) eqn:E;
    [|left; reflexivity].
  apply andb_true_iff in E as [Hlen Heven].
  apply Nat.ltb_lt in Hlen.
  set (mid := Nat.div (length paragraphs) 2).
  unfold App.paragraphs_eqb.
  destruct (list_eq_dec (list_eq_dec ascii_dec)
              (firstn mid paragraphs) (skipn mid paragraphs)) as [Eh|];
    [right|left; reflexivity].
  assert (1 <= mid)%nat as Hmid.
  { unfold mid. change 1%nat with (Nat.div 2 2).
    apply Nat.Div0.div_le_mono. lia. }
  assert (firstn mid paragraphs <> []) as Hne.
  { intros Hnil. apply (f_equal (@length str)) in Hnil.
    rewrite length_firstn in Hnil. cbn [length] in Hnil. lia. }
  rewrite <- (join_str_split App.paragraph_break text) at 1.
  fold paragraphs.
  rewrite <- (firstn_skipn mid paragraphs) at 1.
  rewrite <- Eh.
  now rewrite join_app.
Qed.

(** ** A reply sent twice *)

Lemma str_split_single_line (a : str) :
  forall fuel rest piece_rev,
    single_line a = true ->
    str_split_fuel (length a + fuel) App.paragraph_break (a ++ rest) piece_rev
    = str_split_fuel fuel App.paragraph_break rest (rev a ++ piece_rev).
Proof.
  induction a as [|c a IH]; intros fuel rest piece_rev Ha; [reflexivity|].
  cbn [single_line forallb] in Ha. apply andb_true_iff in Ha as [Hc Ha].
  apply negb_true_iff in Hc.
  cbn [length Nat.add app str_split_fuel].
  unfold App.paragraph_break at 1. cbn [starts_with]. rewrite Hc. cbn [andb].
  rewrite (IH fuel rest (c :: piece_rev) Ha).
  cbn [rev]. now rewrite <- app_assoc.
Qed.

Lemma str_split_at_break (fuel : nat) (rest piece_rev : str) :
  str_split_fuel (S fuel) App.paragraph_break (App.paragraph_break ++ rest)
                 piece_rev
  = rev piece_rev :: str_split_fuel fuel App.paragraph_break rest [].
Proof. reflexivity. Qed.

(** X24: A one-paragraph reply that arrives twice, the copies separated by a
    blank line, is reduced to one copy. *)
Theorem clean_ai_response_collapses_doubled_reply (reply : str) :
  single_line reply = true ->
  App.clean_ai_response (reply ++ App.paragraph_break ++ reply) = reply.
Proof.
  intros Hr.
  assert (str_split App.paragraph_break (reply ++ App.paragraph_break ++ reply)
          = [reply; reply]) as Es.
  { unfold str_split.
    replace (S (length (reply ++ App.paragraph_break ++ reply)))
      with (length reply + S (S (S (length reply))))%nat
      by (rewrite !length_app; cbn [length App.paragraph_break]; lia).
    rewrite (str_split_single_line reply _ _ [] Hr).
    rewrite app_nil_r.
    rewrite str_split_at_break, rev_involutive. f_equal.
    rewrite <- (app_nil_r reply) at 2.
    replace (S (S (length reply))) with (length reply + 2)%nat by lia.
    rewrite (str_split_single_line reply 2 [] [] Hr).
    cbn [str_split_fuel]. now rewrite app_nil_r, rev_involutive. }
  unfold App.clean_ai_response. rewrite Es.
  change (length [reply; reply]) with 2%nat.
  change (Nat.ltb 1 2 && Nat.eqb (Nat.modulo 2 2) 0) with true.
  change (Nat.div 2 2) with 1%nat.
  cbn [firstn skipn join]. unfold App.paragraphs_eqb.
  destruct (list_eq_dec (list_eq_dec ascii_dec) [reply] [reply]);
    [reflexivity|congruence].
Qed.

Lemma clean_ai_response_collapses_doubled_reply_witness :
  App.clean_ai_response
    (txt "We can offer $45 per unit." ++ App.paragraph_break
     ++ txt "We can offer $45 per unit.")
  = txt "We can offer $45 per unit.".
Proof.
  apply (clean_ai_response_collapses_doubled_reply
           (txt "We can offer $45 per unit.")).
  reflexivity.
Defined.

(* ================================================================== *)
(** * The scripted seller of backend/app.py *)

(** ** Words within words *)

Lemma starts_with_self (w rest : str) : starts_with w (w ++ rest) = true.
Proof.
  induction w as [|z w IH]; [reflexivity|].
  cbn [app starts_with]. unfold eqc. now rewrite Ascii.eqb_refl, IH.
Qed.

Lemma contains_at (b rest : str) : forall a, contains b (a ++ b ++ rest) = true.
Proof.
  induction a as [|x a IH].
  - cbn [app]. destruct (b ++ rest) as [|y t] eqn:E.
    + destruct b; [reflexivity|discriminate E].
    + cbn [contains]. rewrite <- E, starts_with_self. reflexivity.
  - cbn [app contains]. rewrite IH. apply orb_true_r.
Qed.

(** A text that holds a phrase holds every ending of the phrase. *)
Lemma contains_ending (a b : str) (s : str) :
  contains (a ++ b) s = true -> contains b s = true.
Proof.
  induction s as [|x s IH]; intros H.
  - destruct a, b; try discriminate H; reflexivity.
  - cbn [contains] in H. apply orb_true_iff in H as [H|H].
    + destruct (starts_with_exact (a ++ b) (x :: s) H) as [rest E].
      rewrite E, <- app_assoc. apply contains_at.
    + cbn [contains]. rewrite (IH H). apply orb_true_r.
Qed.

(** ** "No deal" *)

(** X25: The refusal "no deal" can never be heard: a message that holds it holds
    the acceptance word "deal", which is tested first.  So with an offer on
    the table the message closes the deal, at Alex's current terms, and
    without one Alex asks for the terms; the session is never marked as
    failed for it. *)
Theorem no_deal_is_read_as_acceptance
        (s : Session.session) (user_message : str) (choice : nat) :
  contains (txt "no deal") (lower user_message) = true ->
  let s' := snd (Session.process_message s user_message choice) in
  match Session.current_offer s with
  | Some _ =>
      fst (Session.process_message s user_message choice)
      = Ok (Session.DealClosed (Session.alex_quantity s) (Session.alex_price s)
                               (Session.alex_delivery s)) /\
      Session.deal_closed s' = true /\ Session.status s' = "completed"%string
  | None =>
      fst (Session.process_message s user_message choice) = Ok Session.NeedTerms /\
      Session.deal_closed s' = Session.deal_closed s /\
      Session.status s' = Session.status s
  end.
Proof.
  intros H s'. subst s'.
  assert (any_in Session.acceptance_words (lower user_message) = true) as Ha.
  { unfold any_in, Session.acceptance_words. cbn [existsb].
    rewrite (contains_ending (txt "no ") (txt "deal") _ H).
    now rewrite orb_true_r. }
  unfold Session.process_message. cbv zeta. rewrite Ha.
  cbn [Session.current_offer Session.with_turn_count Session._add_user_message
       Session.with_messages].
  destruct (Session.current_offer s); repeat split; reflexivity.
Qed.

Lemma no_deal_is_read_as_acceptance_witness :
  let s := Session.with_current_offer
             (Session.new_session
                (Session.mkDealParameters 80 56 1000 500 60 36 "A" 12))
             (Some (Session.mkOffer 80 1000 60)) in
  Session.deal_closed
    (snd (Session.process_message s (txt "Sorry, no deal at that price.") 0))
  = true.
Proof.
  intros s.
  apply (no_deal_is_read_as_acceptance s (txt "Sorry, no deal at that price.") 0).
  reflexivity.
Defined.

(** ** What one message can change *)

Lemma div3_bounds (x : Z) : 0 <= x -> 0 <= x / 3 <= x.
Proof.
  intros H. split; [apply Z.div_pos; lia|].
  apply Z.div_le_upper_bound; lia.
Qed.

Ltac to_props :=
  repeat match goal with
         | H : (_ && _) = true |- _ => apply andb_true_iff in H as [? ?]
         | H : (_ <? _) = true |- _ => apply Z.ltb_lt in H
         | H : (_ <? _) = false |- _ => apply Z.ltb_ge in H
         | H : (_ <=? _) = true |- _ => apply Z.leb_le in H
         | H : (_ <=? _) = false |- _ => apply Z.leb_gt in H
         end.

(** The effect of [_generate_negotiation_response] on the session: it
    touches Alex's position, the count of concessions and the offer on the
    table, nothing else; the price falls by 5 at most and not below the
    floor; the offer, where one is recorded, holds Alex's terms. *)
Lemma response_step (s : Session.session) (message_lower : str)
      (numbers : list Z) (choice : nat) :
  let s' := snd (Session._generate_negotiation_response
                   s message_lower numbers choice) in
  Session.deal_params s' = Session.deal_params s /\
  Session.messages s' = Session.messages s /\
  Session.turn_count s' = Session.turn_count s /\
  Session.status s' = Session.status s /\
  Session.deal_closed s' = Session.deal_closed s /\
  Session.max_concessions s' = Session.max_concessions s /\
  (Session.current_offer s' = Session.current_offer s \/
   Session.current_offer s'
   = Some (Session.mkOffer (Session.alex_price s) (Session.alex_quantity s)
                           (Session.alex_delivery s))) /\
  Session.concession_count s <= Session.concession_count s' /\
  (Session.concession_count s <= Session.max_concessions s ->
   Session.concession_count s' <= Session.max_concessions s) /\
  (Session.min_price (Session.deal_params s) <= Session.alex_price s ->
   Session.min_price (Session.deal_params s) <= Session.alex_price s' /\
   Session.alex_price s - 5 <= Session.alex_price s' <= Session.alex_price s).
Proof.
  unfold Session._generate_negotiation_response, Session.anchoring,
    Session.bundling, Session.time_pressure, Session.information.
  destruct numbers as [|first others].
  - destruct (_ || _); [|destruct (_ || _)]; try destruct (_ || _);
      repeat match goal with
             | |- context [if ?b then _ else _] => destruct b
             end;
      cbn; repeat split; auto; lia.
  - destruct (contains (txt "price") message_lower
              || contains (txt "$") message_lower).
    + destruct (first <? Session.min_price (Session.deal_params s)) eqn:E1;
        [cbn; repeat split; auto; lia|].
      destruct ((first <? Session.alex_price s)
                && (Session.concession_count s <? Session.max_concessions s))
               eqn:E2.
      * to_props.
        pose proof (div3_bounds (Session.alex_price s - first) ltac:(lia)).
        cbn. repeat split; auto; lia.
      * cbn. repeat split; auto; lia.
    + destruct (contains (txt "quantity") message_lower
                || contains (txt "units") message_lower).
      * destruct (Session.min_quantity (Session.deal_params s)
                  <=? Session.maximum first others);
          [|cbn; repeat split; auto; lia].
        destruct (Session.alex_quantity s <? Session.maximum first others);
          [|cbn; repeat split; auto; lia].
        destruct (Session.exceeds_one_and_a_half _ _) as [[|]|e];
          cbn; repeat split; auto; lia.
      * destruct (_ || _).
        -- destruct (first <? Session.min_delivery (Session.deal_params s));
             cbn; repeat split; auto; lia.
        -- repeat match goal with
                  | |- context [if ?b then _ else _] => destruct b
                  end;
             cbn; repeat split; auto; lia.
Qed.

Lemma user_turns_user (ms : list Session.entry) (content : str) :
  user_turns (ms ++ [Session.FromUser content]) = S (user_turns ms).
Proof.
  unfold user_turns. rewrite filter_app, length_app. cbn. lia.
Qed.

Lemma user_turns_alex (ms : list Session.entry) (content : Session.reply) :
  user_turns (ms ++ [Session.FromAlex content]) = user_turns ms.
Proof.
  unfold user_turns. rewrite filter_app, length_app. cbn. lia.
Qed.

Ltac session_simpl :=
  cbn [Session.deal_params Session.messages Session.turn_count Session.status
       Session.current_offer Session.deal_closed Session.alex_price
       Session.alex_quantity Session.alex_delivery Session.concession_count
       Session.max_concessions Session.with_messages Session.with_turn_count
       Session.with_status Session.with_current_offer Session.with_deal_closed
       Session.with_alex_price Session.with_alex_quantity
       Session.with_alex_delivery Session.with_concession_count
       Session._add_alex_message Session._add_user_message Session._close_deal
       fst snd] in *.

(** One call of [process_message] keeps a steady session steady. *)
Lemma process_message_steady
      (s : Session.session) (user_message : str) (choice : nat) :
  steady s ->
  let s' := snd (Session.process_message s user_message choice) in
  steady s' /\
  Session.deal_params s' = Session.deal_params s /\
  Session.turn_count s' = Session.turn_count s + 1 /\
  Session.alex_price s - 5 <= Session.alex_price s' <= Session.alex_price s /\
  (Session.current_offer s <> None -> Session.current_offer s' <> None) /\
  (Session.deal_closed s = true -> Session.deal_closed s' = true).
Proof.
  intros (Hprice & Hcount & Hmax & Hturn & Hclosed).
  unfold Session.process_message. cbv zeta.
  set (s1 := Session.with_turn_count
               (Session._add_user_message s user_message)
               (Session.turn_count (Session._add_user_message s user_message) + 1)).
  assert (steady s1 /\ Session.deal_params s1 = Session.deal_params s /\
          Session.turn_count s1 = Session.turn_count s + 1 /\
          Session.alex_price s1 = Session.alex_price s /\
          Session.current_offer s1 = Session.current_offer s /\
          Session.deal_closed s1 = Session.deal_closed s)
    as ((Hprice1 & Hcount1 & Hmax1 & Hturn1 & Hclosed1) & Ep & Et & Ea & Eo & Ed).
  { unfold s1, steady. session_simpl. rewrite user_turns_user.
    repeat split; try lia; try assumption. }
  clearbody s1. rewrite <- Ep, <- Et, <- Ea, <- Eo, <- Ed.
  clear Hprice Hcount Hmax Hturn Hclosed Ep Et Ea Eo Ed s.
  destruct (any_in Session.acceptance_words (lower user_message)).
  { destruct (Session.current_offer s1) eqn:Eo.
    - unfold steady. session_simpl. rewrite Eo.
      repeat split; try lia; try assumption; congruence.
    - unfold steady. session_simpl. rewrite user_turns_alex, Eo.
      repeat split; try lia; auto. }
  destruct (any_in Session.walkaway_words (lower user_message)).
  { unfold steady. session_simpl. rewrite user_turns_alex.
    repeat split; try lia; auto. }
  pose proof (response_step s1 (lower user_message)
                (Session.numbers_of user_message) choice) as Hstep.
  cbv zeta in Hstep.
  destruct (Session._generate_negotiation_response s1 (lower user_message)
              (Session.numbers_of user_message) choice) as [[response|e] s2];
    cbn [snd] in Hstep;
    destruct Hstep as (Hp & Hm & Ht & Hs & Hd & Hx & Ho & Hc1 & Hc2 & Ha);
    destruct (Ha ltac:(lia)) as [Ha1 Ha2];
    unfold steady; session_simpl;
    try rewrite user_turns_alex; rewrite Hm, Hp, Hx, Hd, Ht;
    repeat split; try lia; auto;
    (intros Hq; destruct Ho as [Ho|Ho]; rewrite Ho; [auto|discriminate]).
Qed.

Lemma new_session_steady (params : Session.DealParameters) :
  Session.min_price params <= Session.base_price params ->
  steady (Session.new_session params).
Proof.
  intros H. unfold steady, Session.new_session. session_simpl.
  repeat split; try lia; try reflexivity; discriminate.
Qed.

Lemma converse_steady (conversation : list (str * nat)) :
  forall s,
    steady s ->
    steady (Session.converse s conversation) /\
    Session.deal_params (Session.converse s conversation) = Session.deal_params s /\
    Session.turn_count (Session.converse s conversation)
    = Session.turn_count s + Z.of_nat (length conversation) /\
    Session.alex_price (Session.converse s conversation) <= Session.alex_price s.
Proof.
  induction conversation as [|[m c] conversation IH]; intros s Hs.
  - unfold Session.converse. cbn [fold_left length].
    split; [exact Hs|]. repeat split; lia.
  - unfold Session.converse. cbn [fold_left fst snd length].
    destruct (process_message_steady s m c Hs) as (Hs' & Hp & Ht & Ha & _).
    destruct (IH _ Hs') as (Hs'' & Hp' & Ht' & Ha').
    unfold Session.converse in *.
    rewrite Hp', Hp, Ht', Ht. split; [exact Hs''|]. repeat split; lia.
Qed.

(** X26: Whatever the buyer writes, in a session created with a floor price no
    higher than the base price: the parameters stay as drawn; Alex's price
    stays between the floor and the base price; Alex concedes at most five
    times on a price proposal; the turn count is the number of messages
    received.  One more message lowers the price by 5 at most and never
    raises it, never withdraws an offer that is on the table, and never
    reopens a closed deal. *)
Theorem conversation_keeps_the_seller_steady
        (params : Session.DealParameters) (conversation : list (str * nat))
        (user_message : str) (choice : nat) :
  Session.min_price params <= Session.base_price params ->
  let s := Session.converse (Session.new_session params) conversation in
  let s' := snd (Session.process_message s user_message choice) in
  Session.deal_params s = params /\
  Session.min_price params <= Session.alex_price s <= Session.base_price params /\
  0 <= Session.concession_count s <= 5 /\
  Session.turn_count s = Z.of_nat (length conversation) /\
  (Session.deal_closed s = true -> Session.current_offer s <> None) /\
  Session.alex_price s - 5 <= Session.alex_price s' <= Session.alex_price s /\
  (Session.current_offer s <> None -> Session.current_offer s' <> None) /\
  (Session.deal_closed s = true -> Session.deal_closed s' = true).
Proof.
  intros Hparams s s'.
  destruct (converse_steady conversation _ (new_session_steady params Hparams))
    as (Hs & Hp & Ht & _).
  fold s in Hs, Hp, Ht.
  destruct (process_message_steady s user_message choice Hs)
    as (_ & _ & _ & Ha & Ho & Hc).
  fold s' in Ha, Ho, Hc.
  destruct Hs as (Hprice & Hcount & _ & _ & Hclosed).
  rewrite Hp in Hprice.
  change (Session.deal_params (Session.new_session params)) with params in *.
  change (Session.turn_count (Session.new_session params)) with 0 in Ht.
  repeat split; auto; lia.
Qed.

Lemma conversation_keeps_the_seller_steady_witness :
  let params := Session.mkDealParameters 80 56 1000 500 60 36 "A" 12 in
  let s := Session.converse (Session.new_session params)
             [ (txt "My price is 60", 0%nat); (txt "What about 2000 units", 1%nat) ] in
  56 <= Session.alex_price s <= 80.
Proof.
  intros params s.
  apply (conversation_keeps_the_seller_steady params
           [ (txt "My price is 60", 0%nat); (txt "What about 2000 units", 1%nat) ]
           (txt "deal") 0).
  vm_compute. discriminate.
Defined.

(** ** How an offer gets on the table *)

(** X27: An offer is put on the table in one way only: by a message without an
    acceptance word or a walk-away phrase that mentions a price ("price" or
    the dollar sign) and whose first number is no lower than the floor
    price, and either no lower than Alex's current price or proposed when
    the concessions are used up.  The offer recorded is Alex's current
    position, not the price proposed. *)
Theorem offer_is_recorded_at_the_sellers_terms
        (s : Session.session) (user_message : str) (choice : nat)
        (recorded : Session.offer) :
  Session.current_offer s = None ->
  Session.current_offer (snd (Session.process_message s user_message choice))
  = Some recorded ->
  recorded = Session.mkOffer (Session.alex_price s) (Session.alex_quantity s)
                             (Session.alex_delivery s) /\
  any_in Session.acceptance_words (lower user_message) = false /\
  any_in Session.walkaway_words (lower user_message) = false /\
  contains (txt "price") (lower user_message)
  || contains (txt "$") (lower user_message) = true /\
  exists proposed_price others,
    Session.numbers_of user_message = proposed_price :: others /\
    Session.min_price (Session.deal_params s) <= proposed_price /\
    (Session.alex_price s <= proposed_price \/
     Session.max_concessions s <= Session.concession_count s) /\
    fst (Session.process_message s user_message choice)
    = Ok (Session.PriceWorks proposed_price (Session.alex_quantity s)
                             (Session.alex_delivery s)).
Proof.
  intros Hnone. unfold Session.process_message. cbv zeta.
  destruct (any_in Session.acceptance_words (lower user_message)).
  { session_simpl. rewrite Hnone. session_simpl. rewrite Hnone. discriminate. }
  destruct (any_in Session.walkaway_words (lower user_message)).
  { session_simpl. rewrite Hnone. discriminate. }
  unfold Session._generate_negotiation_response, Session.anchoring,
    Session.bundling, Session.time_pressure, Session.information.
  session_simpl.
  destruct (contains (txt "price") (lower user_message)
            || contains (txt "$") (lower user_message)).
  - destruct (Session.numbers_of user_message) as [|first others].
    + repeat match goal with
             | |- context [if ?b then _ else _] => destruct b
             end;
        session_simpl; rewrite ?Hnone; discriminate.
    + destruct (first <? Session.min_price (Session.deal_params s)) eqn:E1;
        [session_simpl; rewrite Hnone; discriminate|].
      destruct ((first <? Session.alex_price s)
                && (Session.concession_count s <? Session.max_concessions s))
               eqn:E2;
        [session_simpl; rewrite Hnone; discriminate|].
      session_simpl. intros [= <-].
      apply Z.ltb_ge in E1. apply andb_false_iff in E2.
      repeat split; auto.
      exists first, others. repeat split; auto.
      destruct E2 as [E2|E2]; apply Z.ltb_ge in E2; [left|right]; lia.
  - destruct (Session.numbers_of user_message) as [|first others].
    + repeat match goal with
             | |- context [if ?b then _ else _] => destruct b
             end;
        session_simpl; rewrite ?Hnone; discriminate.
    + repeat match goal with
             | |- context [if ?b then _ else _] => destruct b
             | |- context [Session.exceeds_one_and_a_half ?a ?b] =>
                 destruct (Session.exceeds_one_and_a_half a b) as [[|]|?]
             end;
        session_simpl; rewrite ?Hnone; discriminate.
Qed.

Lemma offer_is_recorded_at_the_sellers_terms_witness :
  let s := Session.new_session
             (Session.mkDealParameters 80 56 1000 500 60 36 "A" 12) in
  Session.mkOffer 80 1000 60
  = Session.mkOffer (Session.alex_price s) (Session.alex_quantity s)
                    (Session.alex_delivery s).
Proof.
  intros s.
  apply (offer_is_recorded_at_the_sellers_terms
           s (txt "I can pay a price of 500 per unit") 0
           (Session.mkOffer 80 1000 60)).
  - reflexivity.
  - vm_compute. reflexivity.
Defined.

(** ** Doubles: when a rounding stays finite and when it overflows *)

Lemma pow2_pos (e : Z) : (0 < pow2 e)%Q.
Proof. unfold pow2. apply Qpower_0_lt. reflexivity. Qed.

Lemma pow2_add (a b : Z) : (pow2 (a + b) == pow2 a * pow2 b)%Q.
Proof. unfold pow2. apply Qpower_plus. discriminate. Qed.

Lemma pow2_le (a b : Z) : a <= b -> (pow2 a <= pow2 b)%Q.
Proof. intros H. unfold pow2. apply Qpower_le_compat_l; [exact H|discriminate]. Qed.

Lemma pow2_Z (e : Z) : 0 <= e -> (pow2 e == inject_Z (2 ^ e))%Q.
Proof. intros H. unfold pow2. now rewrite (Zpower_Qpower 2 e H). Qed.

Lemma round_half_even_double (t : Q) :
  (0 <= t)%Q ->
  0 <= round_half_even t /\ (inject_Z (round_half_even t) <= 2 * t)%Q.
Proof.
  intros Ht. split.
  - apply round_half_even_ge. exact Ht.
  - destruct (Qlt_le_dec t (1 # 2)) as [Hsmall|Hbig].
    + assert (Qfloor t = 0) as Ef.
      { pose proof (Qfloor_le t) as Hlo. pose proof (Qlt_floor t) as Hhi.
        assert (Qfloor t < 1) as H1.
        { rewrite Zlt_Qlt. change (inject_Z 1) with 1%Q. lra. }
        assert (0 < Qfloor t + 1) as H2.
        { rewrite Zlt_Qlt. change (inject_Z 0) with 0%Q. lra. }
        lia. }
      unfold round_half_even. rewrite Ef.
      assert ((t - inject_Z 0 ?= 1 # 2)%Q = Lt) as ->.
      { apply (proj1 (Qlt_alt _ _)). change (inject_Z 0) with 0%Q. lra. }
      change (inject_Z 0) with 0%Q. lra.
    + pose proof (round_half_even_near t) as [_ Hn]. lra.
Qed.

(** A rational in the range of the doubles rounds to a double, at most
    twice as large. *)
Lemma binary64_finite (q : Q) :
  (0 <= q)%Q -> (q < pow2 1023)%Q ->
  exists x, binary64 q = Fin x /\ (0 <= x <= 2 * q)%Q.
Proof.
  intros Hq Hlt. unfold binary64.
  destruct (Qeq_bool q 0) eqn:E0.
  { exists 0%Q. split; [reflexivity|]. lra. }
  cbv zeta.
  assert (Qabs q == q)%Q as Ea by (apply Qabs_pos, Hq).
  set (a := Qabs q) in *.
  set (ulp := pow2 (Z.max (ilog2 a) (-1022) - 52)).
  pose proof (pow2_pos (Z.max (ilog2 a) (-1022) - 52)) as Hulp. fold ulp in Hulp.
  assert (0 <= a / ulp)%Q as Ht.
  { apply Qle_shift_div_l; [exact Hulp|]. lra. }
  destruct (round_half_even_double (a / ulp) Ht) as [Hm0 Hm].
  set (m := round_half_even (a / ulp)) in *.
  assert (0 <= inject_Z m)%Q as Hm0'
      by (change 0%Q with (inject_Z 0); now rewrite <- Zle_Qle).
  assert (a / ulp * ulp == a)%Q as Eu by (field; lra).
  assert (inject_Z m * ulp <= 2 * q)%Q as Hr.
  { rewrite <- Ea, <- Eu.
    setoid_replace (2 * (a / ulp * ulp))%Q with (2 * (a / ulp) * ulp)%Q by ring.
    apply Qmult_le_compat_r; [exact Hm|lra]. }
  assert (0 <= inject_Z m * ulp)%Q as Hr0 by (apply Qmult_le_0_compat; lra).
  assert (pow2 1024 == 2 * pow2 1023)%Q as E24
      by (change 1024 with (1 + 1023); rewrite pow2_add; reflexivity).
  destruct (Qle_bool (pow2 1024) (inject_Z m * ulp)) eqn:Eo.
  { apply Qle_bool_iff in Eo. lra. }
  assert (Qle_bool 0 q = true) as -> by (now apply Qle_bool_iff).
  eexists. split; [reflexivity|]. rewrite Qred_correct. lra.
Qed.

Lemma ilog2_lower (a : Q) : (0 < a)%Q -> (pow2 (ilog2 a) <= a)%Q.
Proof.
  intros Ha. unfold ilog2. cbv zeta.
  set (ln := Z.log2 (Qnum a)). set (ld := Z.log2 (Z.pos (Qden a))).
  destruct (Qle_bool (pow2 (ln - ld)) a) eqn:E; [now apply Qle_bool_iff|].
  assert (0 < Qnum a) as Hn.
  { unfold Qlt in Ha. cbn in Ha. lia. }
  destruct (Z.log2_spec (Qnum a) Hn) as [Hn1 _]. fold ln in Hn1.
  destruct (Z.log2_spec (Z.pos (Qden a)) ltac:(lia)) as [_ Hd2]. fold ld in Hd2.
  assert (0 <= ln) as Hln by apply Z.log2_nonneg.
  assert (0 <= ld) as Hld by apply Z.log2_nonneg.
  assert (a * inject_Z (Z.pos (Qden a)) == inject_Z (Qnum a))%Q as Ea.
  { unfold Qeq, Qmult, inject_Z. cbn [Qnum Qden]. lia. }
  set (D := inject_Z (Z.pos (Qden a))) in *.
  assert (0 < D)%Q as HD by reflexivity.
  apply (Qmult_le_r _ _ D HD). rewrite Ea.
  assert (pow2 (ln - ld - 1) * pow2 (ld + 1) == inject_Z (2 ^ ln))%Q as Ep.
  { rewrite <- pow2_add. replace (ln - ld - 1 + (ld + 1)) with ln by lia.
    apply pow2_Z, Hln. }
  assert (D <= pow2 (ld + 1))%Q as HD2.
  { rewrite pow2_Z by lia. unfold D. rewrite <- Zle_Qle.
    rewrite Z.pow_succ_r in Hd2 by lia. change (Z.succ ld) with (ld + 1) in *.
    replace (2 ^ (ld + 1)) with (2 * 2 ^ ld) by (rewrite Z.pow_add_r; lia). lia. }
  pose proof (pow2_pos (ln - ld - 1)) as Hp.
  apply Qle_trans with (pow2 (ln - ld - 1) * pow2 (ld + 1))%Q.
  - apply Qmult_le_l; [exact Hp|exact HD2].
  - rewrite Ep. now rewrite <- Zle_Qle.
Qed.

(** A rational beyond the range of the doubles rounds to infinity. *)
Lemma binary64_overflow (q : Q) :
  (pow2 1024 <= q)%Q -> binary64 q = Inf.
Proof.
  intros Hq. pose proof (pow2_pos 1024) as H24. unfold binary64.
  destruct (Qeq_bool q 0) eqn:E0.
  { apply Qeq_bool_iff in E0. lra. }
  cbv zeta.
  assert (Qabs q == q)%Q as Ea by (apply Qabs_pos; lra).
  set (a := Qabs q) in *.
  set (e := Z.max (ilog2 a) (-1022)).
  pose proof (pow2_pos (e - 52)) as Hulp.
  set (ulp := pow2 (e - 52)) in *.
  assert (a / ulp * ulp == a)%Q as Eu by (field; lra).
  assert (pow2 1024 <= inject_Z (round_half_even (a / ulp)) * ulp)%Q as Hr.
  { destruct (Z_le_gt_dec e 1076) as [Hsmall|Hbig].
    - assert (inject_Z (2 ^ (1076 - e)) * ulp == pow2 1024)%Q as Ek.
      { rewrite <- pow2_Z by lia. unfold ulp. rewrite <- pow2_add.
        now replace (1076 - e + (e - 52)) with 1024 by lia. }
      assert (2 ^ (1076 - e) <= round_half_even (a / ulp)) as Hm.
      { apply round_half_even_ge. apply Qle_shift_div_l; [exact Hulp|].
        rewrite Ek. lra. }
      rewrite <- Ek. apply Qmult_le_compat_r; [|lra].
      now rewrite <- Zle_Qle.
    - assert (e = ilog2 a) as Ee by (unfold e in *; lia).
      assert (pow2 e <= a)%Q as Hlow by (rewrite Ee; apply ilog2_lower; lra).
      assert (inject_Z (2 ^ 52) * ulp == pow2 e)%Q as Ek.
      { rewrite <- pow2_Z by lia. unfold ulp. rewrite <- pow2_add.
        now replace (52 + (e - 52)) with e by lia. }
      assert (2 ^ 52 <= round_half_even (a / ulp)) as Hm.
      { apply round_half_even_ge. apply Qle_shift_div_l; [exact Hulp|].
        rewrite Ek. exact Hlow. }
      apply Qle_trans with (pow2 e); [apply pow2_le; lia|].
      rewrite <- Ek. apply Qmult_le_compat_r; [|lra].
      now rewrite <- Zle_Qle. }
  apply Qle_bool_iff in Hr. now rewrite Hr.
Qed.

(** ** The evaluation of a closed deal *)

Lemma ratio_nonneg (a b : Z) :
  0 <= a -> 0 < b -> (0 <= inject_Z a / inject_Z b)%Q.
Proof.
  intros Ha Hb.
  assert (0 < inject_Z b)%Q
    by (change 0%Q with (inject_Z 0); now rewrite <- Zlt_Qlt).
  apply Qle_shift_div_l; [assumption|].
  rewrite Qmult_0_l. change 0%Q with (inject_Z 0). now rewrite <- Zle_Qle.
Qed.

Lemma percent_of_returns (a b : Z) :
  0 <= a -> 0 < b -> a < 2 ^ 1000 * b ->
  exists k, Session.percent_of a b = Ok k.
Proof.
  intros Ha Hb Hlt. unfold Session.percent_of, Session.true_div.
  assert ((b =? 0) = false) as -> by (apply Z.eqb_neq; lia).
  assert (0 < inject_Z b)%Q as Hbq
    by (change 0%Q with (inject_Z 0); now rewrite <- Zlt_Qlt).
  pose proof (ratio_nonneg a b Ha Hb) as Hq0.
  assert (inject_Z a / inject_Z b < pow2 1000)%Q as Hq.
  { apply Qlt_shift_div_r; [exact Hbq|].
    rewrite pow2_Z by lia. rewrite <- inject_Z_mult. now rewrite <- Zlt_Qlt. }
  pose proof (pow2_le 1000 1023 ltac:(lia)) as Hp.
  destruct (binary64_finite _ Hq0 ltac:(lra)) as (x & -> & Hx0 & Hx).
  cbn [bind Session.float_times].
  assert (pow2 1008 == pow2 8 * pow2 1000)%Q as E8
      by (change 1008 with (8 + 1000); apply pow2_add).
  assert (pow2 8 == 256)%Q as E256 by reflexivity.
  pose proof (pow2_le 1008 1023 ltac:(lia)) as Hp8.
  pose proof (pow2_pos 1000) as Hpos.
  assert (0 <= x * inject_Z 100)%Q as Hy0
      by (change (inject_Z 100) with 100%Q; lra).
  assert (x * inject_Z 100 < pow2 1023)%Q as Hy.
  { change (inject_Z 100) with 100%Q. rewrite E8, E256 in Hp8. lra. }
  destruct (binary64_finite _ Hy0 Hy) as (y & -> & _).
  cbn [int_of_float]. eauto.
Qed.

Lemma percent_of_overflow (a b : Z) :
  0 < b -> 2 ^ 1024 * b <= a ->
  Session.percent_of a b = Raise OverflowError.
Proof.
  intros Hb Hge. unfold Session.percent_of, Session.true_div.
  assert ((b =? 0) = false) as -> by (apply Z.eqb_neq; lia).
  assert (0 < inject_Z b)%Q as Hbq
    by (change 0%Q with (inject_Z 0); now rewrite <- Zlt_Qlt).
  rewrite binary64_overflow; [reflexivity|].
  apply Qle_shift_div_l; [exact Hbq|].
  rewrite pow2_Z by lia. rewrite <- inject_Z_mult. now rewrite <- Zle_Qle.
Qed.

Lemma relationship_range (ms : list Session.entry) :
  forall score, 70 <= score <= 100 ->
                70 <= fold_left Session.relationship_step ms score <= 100.
Proof.
  induction ms as [|m ms IH]; intros score Hs; [exact Hs|].
  cbn [fold_left]. apply IH. unfold Session.relationship_step.
  destruct m as [r|content]; [exact Hs|].
  destruct (any_in _ _); lia.
Qed.

Lemma mean_returns (total : Z) :
  0 <= total <= 500 -> exists x, Session.true_div total 5 = Ok (Fin x).
Proof.
  intros [H0 H5]. unfold Session.true_div. cbn [Z.eqb].
  pose proof (ratio_nonneg total 5 H0 ltac:(lia)) as Hq0.
  assert (inject_Z total / inject_Z 5 < pow2 1023)%Q as Hq.
  { apply Qlt_shift_div_r; [reflexivity|].
    apply Qle_lt_trans with (inject_Z 500); [now rewrite <- Zle_Qle|].
    assert (pow2 10 <= pow2 1023)%Q as Hp by (apply pow2_le; lia).
    assert (pow2 10 == 1024)%Q as E10 by reflexivity.
    rewrite E10 in Hp. change (inject_Z 500) with 500%Q.
    change (inject_Z 5) with 5%Q. lra. }
  destruct (binary64_finite _ Hq0 Hq) as (x & -> & _). eauto.
Qed.

Lemma price_score_returns (s : Session.session) :
  steady s ->
  exists k,
    (if 0 <? Session.base_price (Session.deal_params s)
             - Session.min_price (Session.deal_params s)
     then Session.percent_of
            (Session.base_price (Session.deal_params s) - Session.alex_price s)
            (Session.base_price (Session.deal_params s)
             - Session.min_price (Session.deal_params s))
     else Ok 0) = Ok k.
Proof.
  intros (Hprice & _).
  assert (1 < 2 ^ 1000) as Hbig by reflexivity.
  destruct (Z.ltb_spec 0 (Session.base_price (Session.deal_params s)
                          - Session.min_price (Session.deal_params s)));
    [|eauto].
  apply percent_of_returns; nia.
Qed.

Lemma evaluate_overflows (s : Session.session) :
  steady s -> Session.deal_closed s = true ->
  0 < Session.target_quantity (Session.deal_params s) ->
  2 ^ 1024 * Session.target_quantity (Session.deal_params s)
  <= Session.alex_quantity s ->
  Session.evaluate s = Raise OverflowError.
Proof.
  intros Hs Hclosed Htarget Hhuge.
  destruct (price_score_returns s Hs) as [k1 Ek1].
  unfold Session.evaluate. rewrite Hclosed. cbn [negb]. cbv zeta.
  rewrite Ek1. cbn [bind].
  now rewrite (percent_of_overflow _ _ Htarget Hhuge).
Qed.

(** X28: [evaluate] on a closed deal of a steady session with a positive target
    quantity.  While Alex's quantity stays below 2^1000 times the target,
    the report is returned: price achievement and value creation lie in
    [0, 100], relationship building in [70, 100], efficiency is 100 less 10
    per turn and never negative, and the strategic score is 100 less 15 per
    concession, 25 at least.  A quantity of 2^1024 times the target or more,
    which one message can set, makes the value ratio overflow and [evaluate]
    raise [OverflowError]. *)
Theorem evaluate_of_a_closed_deal (s : Session.session) :
  steady s -> Session.deal_closed s = true ->
  0 < Session.target_quantity (Session.deal_params s) ->
  0 <= Session.alex_quantity s ->
  (Session.alex_quantity s
   < 2 ^ 1000 * Session.target_quantity (Session.deal_params s) ->
   exists overall scores,
     Session.evaluate s = Ok (Session.Completed overall scores) /\
     0 <= Session.price_achievement scores <= 100 /\
     Session.efficiency scores = Z.max 0 (100 - Session.turn_count s * 10) /\
     70 <= Session.relationship_building scores <= 100 /\
     0 <= Session.value_creation scores <= 100 /\
     Session.strategic_negotiation scores
     = 100 - Session.concession_count s * 15 /\
     25 <= Session.strategic_negotiation scores <= 100) /\
  (2 ^ 1024 * Session.target_quantity (Session.deal_params s)
   <= Session.alex_quantity s ->
   Session.evaluate s = Raise OverflowError).
Proof.
  intros Hs Hclosed Htarget Hquantity.
  destruct (price_score_returns s Hs) as [k1 Ek1].
  pose proof Hs as (Hprice & Hcount & Hmax & Hturn & _).
  unfold Session.evaluate. rewrite Hclosed. cbn [negb]. cbv zeta.
  rewrite Ek1. cbn [bind]. split.
  - intros Hsmall.
    destruct (percent_of_returns _ _ Hquantity Htarget Hsmall) as [k2 Ek2].
    rewrite Ek2. cbn [bind].
    pose proof (relationship_range (Session.messages s) 70 ltac:(lia)) as Hrel.
    set (relationship := fold_left Session.relationship_step (Session.messages s) 70)
      in *.
    destruct (mean_returns
                (Z.max 0 (Z.min 100 k1)
                 + Z.max 0 (100 - Session.turn_count s * 10)
                 + relationship + Z.max 0 (Z.min 100 k2)
                 + Z.max 0 (100 - Session.concession_count s * 15))
                ltac:(lia)) as [x Ex].
    rewrite Ex. cbn [bind].
    do 2 eexists. split; [reflexivity|].
    cbn [Session.price_achievement Session.efficiency
         Session.relationship_building Session.value_creation
         Session.strategic_negotiation].
    repeat split; lia.
  - intros Hhuge.
    pose proof (evaluate_overflows s Hs Hclosed Htarget Hhuge) as E.
    unfold Session.evaluate in E. rewrite Hclosed in E. cbn [negb] in E.
    cbv zeta in E. rewrite Ek1 in E. exact E.
Qed.

Lemma evaluate_of_a_closed_deal_witness :
  let params := Session.mkDealParameters 80 56 1000 500 60 36 "A" 12 in
  let s := Session.converse (Session.new_session params)
             [ (txt "I need 1" ++ repeat "0"%char 400 ++ txt " units", 0%nat);
               (txt "My price is 90", 0%nat);
               (txt "deal", 0%nat) ] in
  Session.evaluate s = Raise OverflowError.
Proof.
  intros params s.
  refine (proj2 (evaluate_of_a_closed_deal s _ _ _ _) _).
  - unfold steady. vm_compute. repeat split; discriminate.
  - vm_compute. reflexivity.
  - vm_compute. reflexivity.
  - vm_compute. discriminate.
  - vm_compute. discriminate.
Defined.

(** ** The call that closes the deal *)

(** X29: The call of [/api/chat] that accepts an offer after an order of 2^1024
    times the target quantity or more fails: [process_message] closes the
    deal and marks the session completed, then [evaluate] raises
    [OverflowError], which escapes the endpoint. *)
Theorem closing_call_fails_after_a_huge_order
        (s : Session.session) (message : str) (choice : nat)
        (on_the_table : Session.offer) :
  steady s ->
  Session.status s = "active"%string \/ Session.deal_closed s = true ->
  Session.current_offer s = Some on_the_table ->
  any_in Session.acceptance_words (lower message) = true ->
  0 < Session.target_quantity (Session.deal_params s) ->
  2 ^ 1024 * Session.target_quantity (Session.deal_params s)
  <= Session.alex_quantity s ->
  exists s',
    Session.send_message s message choice = (Raise OverflowError, s') /\
    Session.deal_closed s' = true /\
    Session.status s' = "completed"%string /\
    Session.alex_quantity s' = Session.alex_quantity s.
Proof.
  intros Hs Hactive Hoffer Haccept Htarget Hhuge.
  unfold Session.send_message.
  assert (negb (String.eqb (Session.status s) "active")
          && negb (Session.deal_closed s) = false) as ->.
  { destruct Hactive as [->| ->]; [reflexivity|]. apply andb_false_r. }
  pose proof (process_message_steady s message choice Hs) as (Hs' & Hp & _).
  revert Hs' Hp.
  unfold Session.process_message. cbv zeta. rewrite Haccept.
  session_simpl. rewrite Hoffer. session_simpl.
  intros Hs' Hp.
  rewrite evaluate_overflows; [eexists; repeat split; reflexivity|exact Hs'| | |];
    session_simpl; auto.
Qed.

Lemma closing_call_fails_after_a_huge_order_witness :
  let params := Session.mkDealParameters 80 56 1000 500 60 36 "A" 12 in
  let s := Session.converse (Session.new_session params)
             [ (txt "I need 1" ++ repeat "0"%char 400 ++ txt " units", 0%nat);
               (txt "My price is 90", 0%nat) ] in
  exists s',
    Session.send_message s (txt "It's a deal") 0 = (Raise OverflowError, s') /\
    Session.deal_closed s' = true /\
    Session.status s' = "completed"%string /\
    Session.alex_quantity s' = Session.alex_quantity s.
Proof.
  intros params s.
  apply (closing_call_fails_after_a_huge_order s (txt "It's a deal") 0
           (Session.mkOffer 78 (Session.alex_quantity s) 60)).
  - unfold steady. vm_compute. repeat split; discriminate.
  - left. vm_compute. reflexivity.
  - vm_compute. reflexivity.
  - vm_compute. reflexivity.
  - vm_compute. reflexivity.
  - vm_compute. discriminate.
Defined.

(** ** The parameters of a session *)

Lemma In_Z_range (lo : Z) (n : nat) (x : Z) :
  lo <= x < lo + Z.of_nat n -> In x (Z_range lo n).
Proof.
  intros H. unfold Z_range. apply in_map_iff.
  exists (Z.to_nat (x - lo)). split; [lia|].
  apply in_seq. lia.
Qed.

Lemma checked_on_range (check : Z -> bool) (lo : Z) (n : nat) :
  forallb check (Z_range lo n) = true ->
  forall x, lo <= x < lo + Z.of_nat n -> check x = true.
Proof.
  intros Hall x Hx. rewrite forallb_forall in Hall.
  apply Hall, In_Z_range, Hx.
Qed.

Lemma floor_price_computed (base_price : Z) :
  50 <= base_price <= 100 -> floor_price_as_computed base_price = true.
Proof.
  intros H. apply (checked_on_range floor_price_as_computed 50 51).
  - vm_compute. reflexivity.
  - lia.
Qed.

Lemma half_computed (quantity : Z) :
  500 <= quantity <= 2000 -> half_as_computed quantity = true.
Proof.
  intros H. apply (checked_on_range half_as_computed 500 1501).
  - vm_compute. reflexivity.
  - lia.
Qed.

Lemma fastest_computed (days : Z) :
  30 <= days <= 90 -> fastest_as_computed days = true.
Proof.
  intros H. apply (checked_on_range fastest_as_computed 30 61).
  - vm_compute. reflexivity.
  - lia.
Qed.

(** X30: For draws in the ranges of [DealParameters.__init__] the constructor
    returns, and the floors it computes in floating point are: for the
    price the integer part of 70% of the base price, except that a base
    price of 90 gives 62 and not 63; for the quantity half the target,
    rounded down; for the delivery the integer part of 60% of the days.
    The floor price lies below the base price, so the session that starts
    from these parameters is steady. *)
Theorem new_DealParameters_floors
        (rng : Z -> Session.parameter_draws) (student_id : str) :
  Session.draws_in_range (rng (Session.seed_of student_id)) ->
  exists params,
    Session.new_DealParameters rng student_id = Ok params /\
    50 <= Session.base_price params <= 100 /\
    Session.min_price params
    = 7 * Session.base_price params / 10
      - (if Session.base_price params =? 90 then 1 else 0) /\
    Session.min_quantity params = Session.target_quantity params / 2 /\
    Session.min_delivery params = 6 * Session.delivery_days params / 10 /\
    35 <= Session.min_price params < Session.base_price params /\
    steady (Session.new_session params).
Proof.
  intros (Hb & Hq & Hd & _ & _).
  unfold Session.new_DealParameters. cbv zeta.
  set (d := rng (Session.seed_of student_id)) in *.
  pose proof (floor_price_computed _ Hb) as H1.
  pose proof (half_computed _ Hq) as H2.
  pose proof (fastest_computed _ Hd) as H3.
  unfold floor_price_as_computed in H1. unfold half_as_computed in H2.
  unfold fastest_as_computed in H3.
  destruct (Session.int_of_product (Session.drawn_base_price d) (7 # 10))
    as [k1|]; [|discriminate].
  destruct (Session.int_of_product (Session.drawn_target_quantity d) (5 # 10))
    as [k2|]; [|discriminate].
  destruct (Session.int_of_product (Session.drawn_delivery_days d) (6 # 10))
    as [k3|]; [|discriminate].
  apply Z.eqb_eq in H1, H2, H3. cbn [bind].
  eexists. split; [reflexivity|].
  cbn [Session.base_price Session.min_price Session.min_quantity
       Session.target_quantity Session.min_delivery Session.delivery_days].
  assert (35 <= k1 < Session.drawn_base_price d) as Hk1.
  { rewrite H1.
    pose proof (Z.div_le_lower_bound (7 * Session.drawn_base_price d) 10 35
                  ltac:(lia) ltac:(lia)).
    pose proof (Z.div_lt_upper_bound (7 * Session.drawn_base_price d) 10
                  (Session.drawn_base_price d) ltac:(lia) ltac:(lia)).
    destruct (Z.eqb_spec (Session.drawn_base_price d) 90) as [E|_]; [|lia].
    rewrite E. change (7 * 90 / 10) with 63. lia. }
  split; [exact Hb|]. split; [exact H1|]. split; [exact H2|].
  split; [exact H3|]. split; [exact Hk1|].
  apply new_session_steady.
  cbn [Session.base_price Session.min_price]. lia.
Qed.

Lemma new_DealParameters_floors_witness :
  exists params,
    Session.new_DealParameters
      (fun _ => Session.mkParameterDraws 90 1000 60 "A" 12) (txt "S12345")
    = Ok params /\
    Session.min_price params = 62.
Proof.
  destruct (new_DealParameters_floors
              (fun _ => Session.mkParameterDraws 90 1000 60 "A" 12) (txt "S12345"))
    as (params & E & _ & Hmin & _).
  - unfold Session.draws_in_range. cbn. repeat split; try lia. left. reflexivity.
  - exists params. split; [exact E|].
    rewrite Hmin.
    replace (Session.base_price params) with 90; [reflexivity|].
    unfold Session.new_DealParameters in E. cbv zeta in E.
    cbn [Session.drawn_base_price] in E.
    destruct (Session.int_of_product 90 (7 # 10)); [|discriminate E].
    cbn [bind] in E.
    destruct (Session.int_of_product _ (5 # 10)); [|discriminate E].
    cbn [bind] in E.
    destruct (Session.int_of_product _ (6 # 10)); [|discriminate E].
    cbn [bind] in E. injection E as <-. reflexivity.
Defined.
